(** * SEO analyzer backend: the page-scoring checklist and the TTL cache

    A shallow embedding of [src/seo_analyzer.py] (class [SEOAnalyzer]) and
    [src/cache_service.py] (class [CacheService]), with the properties the
    specification states about them.

    Conventions of the embedding:
    - a Python [str] is a Rocq [string], one [ascii] per code point (code
      points below 256); [len] is [String.length];
    - a Python [int] is a [Z]; a Python [float] is a binary64 number of
      [SpecFloat] ([prec = 53], [emax = 1024]);
    - a Python [dict] built by the analyzer is an association list in
      insertion order; the cache's dict, where order plays no role, is a
      [gmap];
    - code that may raise returns a [result]: [Return v] or [Raise e];
    - everything the analyzer reads from outside (the network behind
      [self.session.get], [urlparse], the HTML parser, the clock) is a
      field of the [World] the analyzer runs in. *)

From Stdlib Require Import ZArith List String Ascii Bool Lia Permutation.
From Stdlib Require Import QArith Qpower Lqa.
From Stdlib Require Import DecimalString.
From Stdlib Require Import Floats.SpecFloat.
From stdpp Require Import base option list gmap strings.

Local Open Scope string_scope.
Local Open Scope Z_scope.

(* ===================================================================== *)
(** * The Python fragment the sources use *)
(* ===================================================================== *)

Module Py.

(** ** Exceptions *)

(** The exception classes that occur; [KeyboardInterrupt] stands for the
    classes below [BaseException] but outside [Exception]. *)
Inductive exc_class :=
| KeyboardInterrupt
| Exception
| TypeError
| ValueError
| OverflowError
| ZeroDivisionError
| RequestException
| HTTPError
| ConnectionError
| ReadTimeout.

Record exn := mk_exn { exn_class : exc_class; exn_str : string }.

(** [issubclass c d] for the classes above. *)
Definition issubclass (c d : exc_class) : bool :=
  match d, c with
  | KeyboardInterrupt, KeyboardInterrupt => true
  | KeyboardInterrupt, _ => false
  | Exception, KeyboardInterrupt => false
  | Exception, _ => true
  | TypeError, TypeError => true
  | ValueError, ValueError => true
  | OverflowError, OverflowError => true
  | ZeroDivisionError, ZeroDivisionError => true
  | RequestException, (RequestException | HTTPError | ConnectionError | ReadTimeout) => true
  | HTTPError, HTTPError => true
  | ConnectionError, ConnectionError => true
  | ReadTimeout, ReadTimeout => true
  | _, _ => false
  end.

Definition isinstance (e : exn) (d : exc_class) : bool :=
  issubclass (exn_class e) d.

Inductive result (A : Type) : Type :=
| Return (a : A)
| Raise (e : exn).
Arguments Return {A} a.
Arguments Raise {A} e.

#[export] Instance result_ret : MRet result := fun A a => Return a.
#[export] Instance result_bind : MBind result := fun A B f m =>
  match m with
  | Return a => f a
  | Raise e => Raise e
  end.

(** [try: body  except: handler] with a bare [except], which catches every
    exception. *)
Definition try_except_all {A} (body : result A) (handler : result A) : result A :=
  match body with
  | Return a => Return a
  | Raise _ => handler
  end.

(** [try: body  except C1 as e: h1(e)  except C2 as e: h2(e) ...]: the first
    clause whose class matches handles the exception; with none, it
    propagates. *)
Fixpoint handle {A} (clauses : list (exc_class * (exn -> result A))) (e : exn) : result A :=
  match clauses with
  | [] => Raise e
  | (c, h) :: rest => if isinstance e c then h e else handle rest e
  end.

Definition try_except {A} (body : result A)
    (clauses : list (exc_class * (exn -> result A))) : result A :=
  match body with
  | Return a => Return a
  | Raise e => handle clauses e
  end.

(** ** Values and dicts *)

Inductive value :=
| Int (z : Z)
| Float (x : spec_float)
| Str (s : string)
| None_.

(** A dict in insertion order. *)
Definition dict (V : Type) := list (string * V).

Fixpoint dict_get {V} (k : string) (d : dict V) : option V :=
  match d with
  | [] => None
  | (k', v) :: d' => if String.eqb k k' then Some v else dict_get k d'
  end.

(** [k in d] *)
Definition dict_in {V} (k : string) (d : dict V) : bool :=
  match dict_get k d with Some _ => true | None => false end.

(** [d[k] = v]: replaces the value of an existing key in place, appends a
    new key. *)
Fixpoint dict_set {V} (k : string) (v : V) (d : dict V) : dict V :=
  match d with
  | [] => [(k, v)]
  | (k', v') :: d' =>
      if String.eqb k k' then (k', v) :: d' else (k', v') :: dict_set k v d'
  end.

(** ** Strings *)

(** [str(n)] for an int. *)
Definition str_of_int (z : Z) : string := NilZero.string_of_int (Z.to_int z).

(** [len(s)] as an int. *)
Definition len (s : string) : Z := Z.of_nat (String.length s).

(** [c.isspace()] for a code point below 256: what [str.strip()] removes. *)
Definition isspace (c : ascii) : bool :=
  let n := N_of_ascii c in
  ((9 <=? n) && (n <=? 13) || (28 <=? n) && (n <=? 32) || (n =? 133) || (n =? 160))%N.

Fixpoint lstrip (s : string) : string :=
  match s with
  | EmptyString => EmptyString
  | String c t => if isspace c then lstrip t else s
  end.

Fixpoint rstrip (s : string) : string :=
  match s with
  | EmptyString => EmptyString
  | String c t =>
      match rstrip t with
      | EmptyString => if isspace c then EmptyString else String c EmptyString
      | t' => String c t'
      end
  end.

Definition strip (s : string) : string := rstrip (lstrip s).

(** [s.startswith(p)] *)
Definition startswith (s p : string) : bool := String.prefix p s.

(** [needle in hay] for strings. *)
Fixpoint str_contains (needle hay : string) : bool :=
  String.prefix needle hay ||
  match hay with
  | EmptyString => false
  | String _ t => str_contains needle t
  end.

(** [s.lower()] on the ASCII letters. *)
Definition lower_ascii (c : ascii) : ascii :=
  let n := N_of_ascii c in
  if ((65 <=? n) && (n <=? 90))%N then ascii_of_N (n + 32) else c.

Fixpoint lower (s : string) : string :=
  match s with
  | EmptyString => EmptyString
  | String c t => String (lower_ascii c) (lower t)
  end.

(** [\w] of [re] on a str pattern, for a code point below 256: a character
    for which [isalnum()] holds, or the underscore. *)
Definition isword (c : ascii) : bool :=
  let n := N_of_ascii c in
  ((48 <=? n) && (n <=? 57) || (65 <=? n) && (n <=? 90) || (n =? 95) ||
   (97 <=? n) && (n <=? 122) || (n =? 170) || (n =? 178) || (n =? 179) ||
   (n =? 181) || (n =? 185) || (n =? 186) || (188 <=? n) && (n <=? 190) ||
   (192 <=? n) && (n <=? 214) || (216 <=? n) && (n <=? 246) || (248 <=? n))%N.

(** [len(re.findall(r'\b\w+\b', s))]: the matches are the maximal runs of
    word characters; [inword] tells whether the previous character was one. *)
Fixpoint count_words_from (inword : bool) (s : string) : Z :=
  match s with
  | EmptyString => 0
  | String c t =>
      if isword c
      then (if inword then 0 else 1) + count_words_from true t
      else count_words_from false t
  end.

Definition count_words (s : string) : Z := count_words_from false s.

(** ** Floats *)

Definition float := spec_float.

Definition prec : Z := 53.
Definition emax : Z := 1024.

(** [float(n)] for an int: exact below 2^53. *)
Definition float_of_int (z : Z) : float := binary_normalize prec emax z 0 false.

(** [a / b] on two ints: the correctly rounded quotient.  For operands
    below 2^53 in magnitude, the only ones the theorems below use, CPython
    converts both exactly and divides the two doubles, as here. *)
Definition int_truediv (a b : Z) : result float :=
  if b =? 0 then Raise (mk_exn ZeroDivisionError "division by zero")
  else Return (SFdiv prec emax (float_of_int a) (float_of_int b)).

(** [x * n] for a float [x] and an int [n]. *)
Definition float_mul_int (x : float) (n : Z) : float :=
  SFmul prec emax x (float_of_int n).

(** Half-to-even rounding of [m / 2^k] to an integer, [m] and [k] natural. *)
Definition round_half_even_shift (m : Z) (k : Z) : Z :=
  let d := 2 ^ k in
  let q := m / d in
  let r := m mod d in
  match (2 * r ?= d) with
  | Lt => q
  | Gt => q + 1
  | Eq => if Z.even q then q else q + 1
  end.

(** [round(x)] with one argument: the nearest int, ties to even. *)
Definition round (x : float) : result Z :=
  match x with
  | S754_zero _ => Return 0
  | S754_finite s m e =>
      let a := match e with
               | Zneg k => round_half_even_shift (Zpos m) (Zpos k)
               | _ => Zpos m * 2 ^ e
               end in
      Return (if s then - a else a)
  | S754_infinity _ =>
      Raise (mk_exn OverflowError "cannot convert float infinity to integer")
  | S754_nan =>
      Raise (mk_exn ValueError "cannot convert float NaN to integer")
  end.

(** ** Numbers *)

(** An int or a float: what the accumulators of [_calculate_overall_score]
    hold. *)
Inductive number :=
| NInt (z : Z)
| NFloat (x : float).

(** The conversion of an int operand that meets a float: the nearest
    double, or [OverflowError] beyond the doubles. *)
Definition int_to_float (z : Z) : result float :=
  match float_of_int z with
  | S754_infinity _ => Raise (mk_exn OverflowError "int too large to convert to float")
  | x => Return x
  end.

(** [a += b] on a number [a]: exact on two ints, the rounded sum of two
    doubles as soon as one operand is a float. *)
Definition iadd (a : number) (b : value) : result number :=
  match a, b with
  | NInt x, Int y => Return (NInt (x + y))
  | NInt x, Float y =>
      x ← int_to_float x; Return (NFloat (SFadd prec emax x y))
  | NFloat x, Int y =>
      y ← int_to_float y; Return (NFloat (SFadd prec emax x y))
  | NFloat x, Float y => Return (NFloat (SFadd prec emax x y))
  | NInt _, Str _ =>
      Raise (mk_exn TypeError "unsupported operand type(s) for +=: 'int' and 'str'")
  | NInt _, None_ =>
      Raise (mk_exn TypeError "unsupported operand type(s) for +=: 'int' and 'NoneType'")
  | NFloat _, Str _ =>
      Raise (mk_exn TypeError "unsupported operand type(s) for +=: 'float' and 'str'")
  | NFloat _, None_ =>
      Raise (mk_exn TypeError "unsupported operand type(s) for +=: 'float' and 'NoneType'")
  end.

(** [x == 0] for a float [x]. *)
Definition float_is_zero (x : float) : bool :=
  match x with S754_zero _ => true | _ => false end.

(** [a == 0] on a number. *)
Definition number_is_zero (a : number) : bool :=
  match a with
  | NInt z => z =? 0
  | NFloat x => float_is_zero x
  end.

(** [x / y] on two floats. *)
Definition float_truediv (x y : float) : result float :=
  if float_is_zero y then Raise (mk_exn ZeroDivisionError "float division by zero")
  else Return (SFdiv prec emax x y).

(** [a / b] on two numbers. *)
Definition truediv (a b : number) : result float :=
  match a, b with
  | NInt x, NInt y => int_truediv x y
  | NInt x, NFloat y => x ← int_to_float x; float_truediv x y
  | NFloat x, NInt y => y ← int_to_float y; float_truediv x y
  | NFloat x, NFloat y => float_truediv x y
  end.

End Py.
Export Py.

(* ===================================================================== *)
(** * Values of binary64 numbers, for the error analysis *)
(* ===================================================================== *)

Module Binary64.

(** The value [m * 2^e]. *)
Definition F2Q (m e : Z) : Q := (inject_Z m * 2 ^ e)%Q.

(** The value of a finite float. *)
Definition float_value (x : float) : Q :=
  match x with
  | S754_finite s m e => if s then (- F2Q (Zpos m) e)%Q else F2Q (Zpos m) e
  | _ => 0%Q
  end.

(** [l] tells where [v] lies in the interval from [m * 2^e] to
    [(m + 1) * 2^e]: at its start, in its lower half, at its middle, or in
    its upper half. *)
Definition located (v : Q) (m e : Z) (l : location) : Prop :=
  match l with
  | loc_Exact => (v == F2Q m e)%Q
  | loc_Inexact Lt => (F2Q m e < v /\ v < F2Q m e + (1 # 2) * 2 ^ e)%Q
  | loc_Inexact Eq => (v == F2Q m e + (1 # 2) * 2 ^ e)%Q
  | loc_Inexact Gt => (F2Q m e + (1 # 2) * 2 ^ e < v /\ v < F2Q m e + 2 ^ e)%Q
  end.

(** The relative error of one rounding: 2^-53. *)
Definition eps : Q := 1 # 9007199254740992.

End Binary64.

(* ===================================================================== *)
(** * The parsed document (the part of [bs4] the analyzer calls) *)
(* ===================================================================== *)

Module Bs4.

(** A parsed document is a tree of tags and strings; the [BeautifulSoup]
    object is the root tag. *)
#[warnings="-register-all"]
Inductive PageElement :=
| NavigableString (s : string)
| Tag (name : string) (attrs : dict string) (contents : list PageElement).

(** The elements below [e], in document order. *)
Fixpoint descendants (e : PageElement) : list PageElement :=
  match e with
  | NavigableString _ => []
  | Tag _ _ cs => flat_map (fun c => c :: descendants c) cs
  end.

(** [tag.get_text()]: the strings below the tag, concatenated. *)
Fixpoint get_text (e : PageElement) : string :=
  match e with
  | NavigableString s => s
  | Tag _ _ cs => fold_right (fun c acc => get_text c +:+ acc) "" cs
  end.

(** [tag.get(key)]: the attribute, [None] when the tag has none. *)
Definition get (key : string) (e : PageElement) : option string :=
  match e with
  | NavigableString _ => None
  | Tag _ a _ => dict_get key a
  end.

(** [tag.get(key, default)] *)
Definition get_default (key default : string) (e : PageElement) : string :=
  match get key e with Some v => v | None => default end.

(** Whether [e] is a tag called [name] that carries every attribute of
    [attrs] with the given value. *)
Definition matches (name : string) (attrs : dict string) (e : PageElement) : bool :=
  match e with
  | NavigableString _ => false
  | Tag n _ _ =>
      String.eqb n name &&
      forallb (fun kv => match get (fst kv) e with
                         | Some v => String.eqb v (snd kv)
                         | None => false
                         end) attrs
  end.

(** [soup.find_all(name, attrs=attrs)] *)
Definition find_all (name : string) (attrs : dict string) (soup : PageElement)
  : list PageElement :=
  List.filter (matches name attrs) (descendants soup).

(** [soup.find(name, attrs=attrs)]: the first match, or [None]. *)
Definition find (name : string) (attrs : dict string) (soup : PageElement)
  : option PageElement :=
  match find_all name attrs soup with
  | [] => None
  | e :: _ => Some e
  end.

(** [soup.find_all(name, **{attr: True})]: the tags called [name] that carry
    the attribute [attr], whatever its value. *)
Definition find_all_having (name attr : string) (soup : PageElement)
  : list PageElement :=
  List.filter (fun e => matches name [] e &&
                        match get attr e with Some _ => true | None => false end)
              (descendants soup).

End Bs4.
Export Bs4.

(* ===================================================================== *)
(** * The HTTP response (the part of [requests] the analyzer calls) *)
(* ===================================================================== *)

Module Requests.

Record Response := mk_Response {
  url : string;          (* the final URL, after redirects *)
  status_code : Z;
  reason : string;
  headers : dict string;
  content : string
}.

(** [response.headers.get(key, default)]: header names are compared without
    regard to case. *)
Fixpoint headers_get (key default : string) (h : dict string) : string :=
  match h with
  | [] => default
  | (k, v) :: h' =>
      if String.eqb (lower k) (lower key) then v else headers_get key default h'
  end.

(** [response.raise_for_status()] *)
Definition raise_for_status (r : Response) : result unit :=
  if (400 <=? status_code r) && (status_code r <? 500) then
    Raise (mk_exn HTTPError
             (str_of_int (status_code r) +:+ " Client Error: " +:+ reason r +:+
              " for url: " +:+ url r))
  else if (500 <=? status_code r) && (status_code r <? 600) then
    Raise (mk_exn HTTPError
             (str_of_int (status_code r) +:+ " Server Error: " +:+ reason r +:+
              " for url: " +:+ url r))
  else Return tt.

(** [key in response.headers], again without regard to case. *)
Fixpoint headers_in (key : string) (h : dict string) : bool :=
  match h with
  | [] => false
  | (k, _) :: h' => String.eqb (lower k) (lower key) || headers_in key h'
  end.

(** The two fields of [urlparse(url)] the analyzer reads. *)
Record ParseResult := mk_ParseResult { scheme : string; netloc : string }.

End Requests.
Export Requests.

(* ===================================================================== *)
(** * [class SEOAnalyzer] *)
(* ===================================================================== *)

Module SEOAnalyzer.

(** One check: the dict literal every branch of the check functions
    builds. *)
Definition check_data (status : string) (score max_score : Z) (message : string)
    (recommendation : value) (priority : string) : dict value :=
  [("status", Str status); ("score", Int score); ("max_score", Int max_score);
   ("message", Str message); ("recommendation", recommendation);
   ("priority", Str priority)].

(** [_get_page_title] *)
Definition _get_page_title (soup : PageElement) : option string :=
  match find "title" [] soup with
  | Some title_tag => Some (strip (get_text title_tag))
  | None => None
  end.

(** [_get_meta_description] *)
Definition _get_meta_description (soup : PageElement) : option string :=
  match find "meta" [("name", "description")] soup with
  | Some meta_desc => Some (strip (get_default "content" "" meta_desc))
  | None => None
  end.

(** [_check_seo_factors]; [url] and [response] are not read. *)
Definition _check_seo_factors (url : string) (soup : PageElement) (response : Response)
  : dict (dict value) :=
  let checks : dict (dict value) := [] in
  (* Title tag check *)
  let checks :=
    match find "title" [] soup with
    | Some title =>
        let title_text := strip (get_text title) in
        if len title_text =? 0 then
          dict_set "title_tag"
            (check_data "fail" 0 10 "Title tag is empty"
               (Str "Add a descriptive title tag to your page") "high") checks
        else if len title_text >? 60 then
          dict_set "title_tag"
            (check_data "warning" 7 10
               ("Title tag is too long (" +:+ str_of_int (len title_text) +:+ " characters)")
               (Str "Keep title tags under 60 characters for better display in search results")
               "medium") checks
        else
          dict_set "title_tag"
            (check_data "pass" 10 10
               ("Title tag length is optimal (" +:+ str_of_int (len title_text) +:+ " characters)")
               None_ "low") checks
    | None =>
        dict_set "title_tag"
          (check_data "fail" 0 10 "Title tag is missing"
             (Str "Add a title tag to your page") "critical") checks
    end in
  (* Meta description check *)
  let checks :=
    match find "meta" [("name", "description")] soup with
    | Some meta_desc =>
        let desc_content := strip (get_default "content" "" meta_desc) in
        if len desc_content =? 0 then
          dict_set "meta_description"
            (check_data "fail" 0 10 "Meta description is empty"
               (Str "Add a compelling meta description") "high") checks
        else if len desc_content >? 160 then
          dict_set "meta_description"
            (check_data "warning" 7 10
               ("Meta description is too long (" +:+ str_of_int (len desc_content) +:+ " characters)")
               (Str "Keep meta descriptions under 160 characters") "medium") checks
        else
          dict_set "meta_description"
            (check_data "pass" 10 10
               ("Meta description length is optimal (" +:+ str_of_int (len desc_content) +:+ " characters)")
               None_ "low") checks
    | None =>
        dict_set "meta_description"
          (check_data "fail" 0 10 "Meta description is missing"
             (Str "Add a meta description to improve click-through rates") "high") checks
    end in
  (* H1 tag check *)
  let h1_tags := find_all "h1" [] soup in
  let checks :=
    if Z.of_nat (length h1_tags) =? 0 then
      dict_set "h1_tag"
        (check_data "fail" 0 10 "No H1 tag found"
           (Str "Add an H1 tag to clearly define the main topic of your page") "high") checks
    else if Z.of_nat (length h1_tags) >? 1 then
      dict_set "h1_tag"
        (check_data "warning" 5 10
           ("Multiple H1 tags found (" +:+ str_of_int (Z.of_nat (length h1_tags)) +:+ ")")
           (Str "Use only one H1 tag per page for better SEO") "medium") checks
    else
      dict_set "h1_tag"
        (check_data "pass" 10 10 "Single H1 tag found" None_ "low") checks in
  checks.

(** [not img.get('alt')]: the attribute is absent or the empty string. *)
Definition without_alt (img : PageElement) : bool :=
  match get "alt" img with
  | None => true
  | Some v => len v =? 0
  end.

(** [_check_content_factors] *)
Definition _check_content_factors (soup : PageElement) : dict (dict value) :=
  let checks : dict (dict value) := [] in
  (* Image alt attributes *)
  let images := find_all "img" [] soup in
  let images_without_alt := List.filter without_alt images in
  let checks :=
    if Z.of_nat (length images) =? 0 then
      dict_set "image_alt_attributes"
        (check_data "info" 5 5 "No images found on page" None_ "low") checks
    else if Z.of_nat (length images_without_alt) =? 0 then
      dict_set "image_alt_attributes"
        (check_data "pass" 10 10 "All images have alt attributes" None_ "low") checks
    else
      dict_set "image_alt_attributes"
        (check_data "warning" 5 10
           (str_of_int (Z.of_nat (length images_without_alt)) +:+ " out of " +:+
            str_of_int (Z.of_nat (length images)) +:+ " images missing alt attributes")
           (Str "Add descriptive alt attributes to all images for better accessibility and SEO")
           "medium") checks in
  (* Word count *)
  let text_content := get_text soup in
  let word_count := count_words text_content in
  let checks :=
    if word_count <? 300 then
      dict_set "content_length"
        (check_data "warning" 3 10
           ("Content is quite short (" +:+ str_of_int word_count +:+ " words)")
           (Str "Consider adding more comprehensive content (aim for 300+ words)")
           "medium") checks
    else if word_count <? 500 then
      dict_set "content_length"
        (check_data "pass" 7 10
           ("Content length is adequate (" +:+ str_of_int word_count +:+ " words)")
           (Str "Consider expanding content for better SEO value") "low") checks
    else
      dict_set "content_length"
        (check_data "pass" 10 10
           ("Content length is good (" +:+ str_of_int word_count +:+ " words)")
           None_ "low") checks in
  checks.

(** [_check_performance_factors] *)
Definition _check_performance_factors (response : Response) (load_time_ms : Z)
  : dict (dict value) :=
  let checks : dict (dict value) := [] in
  (* Page load time *)
  let checks :=
    if load_time_ms <? 1000 then
      dict_set "page_load_time"
        (check_data "pass" 10 10
           ("Page loads quickly (" +:+ str_of_int load_time_ms +:+ "ms)") None_ "low") checks
    else if load_time_ms <? 3000 then
      dict_set "page_load_time"
        (check_data "warning" 7 10
           ("Page load time is acceptable (" +:+ str_of_int load_time_ms +:+ "ms)")
           (Str "Consider optimizing images and scripts to improve load time") "medium") checks
    else
      dict_set "page_load_time"
        (check_data "fail" 3 10
           ("Page loads slowly (" +:+ str_of_int load_time_ms +:+ "ms)")
           (Str "Optimize images, enable compression, and minimize scripts") "high") checks in
  (* Compression *)
  let checks :=
    if str_contains "gzip" (headers_get "content-encoding" "" (headers response)) then
      dict_set "gzip_compression"
        (check_data "pass" 5 5 "GZIP compression is enabled" None_ "low") checks
    else
      dict_set "gzip_compression"
        (check_data "fail" 0 5 "GZIP compression is not enabled"
           (Str "Enable GZIP compression to reduce page size") "medium") checks in
  checks.

(** [_check_mobile_factors] *)
Definition _check_mobile_factors (soup : PageElement) : dict (dict value) :=
  let checks : dict (dict value) := [] in
  (* Viewport meta tag *)
  let checks :=
    match find "meta" [("name", "viewport")] soup with
    | Some viewport_meta =>
        dict_set "viewport_meta_tag"
          (check_data "pass" 10 10 "Viewport meta tag is present" None_ "low") checks
    | None =>
        dict_set "viewport_meta_tag"
          (check_data "fail" 0 10 "Viewport meta tag is missing"
             (Str "Add a viewport meta tag for mobile responsiveness") "high") checks
    end in
  checks.

(** The body of the two loops of [_calculate_overall_score]: one check. *)
Definition add_check (acc : number * number) (check_data : dict value)
  : result (number * number) :=
  let '(total_score, max_total_score) := acc in
  match dict_get "score" check_data, dict_get "max_score" check_data with
  | Some score, Some max_score =>
      total_score ← iadd total_score score;
      max_total_score ← iadd max_total_score max_score;
      Return (total_score, max_total_score)
  | _, _ => Return acc
  end.

(** [for check_name, check_data in checks.items()] *)
Fixpoint sum_checks (checks : dict (dict value)) (acc : number * number)
  : result (number * number) :=
  match checks with
  | [] => Return acc
  | (check_name, check_data) :: rest =>
      acc ← add_check acc check_data;
      sum_checks rest acc
  end.

(** [for category, checks in details.items()] *)
Fixpoint sum_details (details : dict (dict (dict value))) (acc : number * number)
  : result (number * number) :=
  match details with
  | [] => Return acc
  | (category, checks) :: rest =>
      acc ← sum_checks checks acc;
      sum_details rest acc
  end.

(** [_calculate_overall_score] *)
Definition _calculate_overall_score (details : dict (dict (dict value))) : result Z :=
  totals ← sum_details details (NInt 0, NInt 0);
  let '(total_score, max_total_score) := totals in
  if number_is_zero max_total_score then Return 0
  else
    ratio ← truediv total_score max_total_score;
    round (float_mul_int ratio 100).

(** The world around one analysis: what the analyzer reads from outside. *)
Record World := mk_World {
  (** [self.session.get(url, ...)]: the response the network gives for a URL
      (after following redirects), or the exception the call raises. *)
  session_get : string -> result Response;
  (** [urllib.parse.urlparse] *)
  urlparse : string -> result ParseResult;
  (** [BeautifulSoup(content, 'html.parser')] *)
  BeautifulSoup : string -> result PageElement;
  (** [int((time.time() - start_time) * 1000)]: the measured fetch time. *)
  elapsed_ms : Z;
  (** The three summaries, which no check reads: [_analyze_seo_metrics],
      [_analyze_performance], [_analyze_security]. *)
  SeoMetrics : Type;
  PerformanceMetrics : Type;
  SecurityScan : Type;
  _analyze_seo_metrics : string -> Response -> PageElement -> Z -> result SeoMetrics;
  _analyze_performance : string -> Response -> Z -> result PerformanceMetrics;
  _analyze_security : string -> Response -> result SecurityScan
}.

(** What [analyze_website] returns. *)
Record AnalysisResult (w : World) := mk_AnalysisResult {
  overall_score : Z;
  page_title : option string;
  meta_description : option string;
  details : dict (dict (dict value));
  seo_metrics : SeoMetrics w;
  performance_metrics : PerformanceMetrics w;
  security_scan : SecurityScan w
}.
Arguments mk_AnalysisResult {w}.
Arguments overall_score {w}.
Arguments page_title {w}.
Arguments meta_description {w}.
Arguments details {w}.
Arguments seo_metrics {w}.
Arguments performance_metrics {w}.
Arguments security_scan {w}.

Section Analyzer.

Variable w : World.

(** [_check_robots_txt] *)
Definition _check_robots_txt (url : string) : result bool :=
  try_except_all
    (parsed_url ← urlparse w url;
     let robots_url := scheme parsed_url +:+ "://" +:+ netloc parsed_url +:+ "/robots.txt" in
     response ← session_get w robots_url;
     Return (status_code response =? 200))
    (Return false).

(** The loop of [_check_sitemap]. *)
Fixpoint sitemap_loop (sitemap_urls : list string) : result bool :=
  match sitemap_urls with
  | [] => Return false
  | sitemap_url :: rest =>
      response ← session_get w sitemap_url;
      if status_code response =? 200 then Return true else sitemap_loop rest
  end.

(** [_check_sitemap] *)
Definition _check_sitemap (url : string) : result bool :=
  try_except_all
    (parsed_url ← urlparse w url;
     let sitemap_urls :=
       [scheme parsed_url +:+ "://" +:+ netloc parsed_url +:+ "/sitemap.xml";
        scheme parsed_url +:+ "://" +:+ netloc parsed_url +:+ "/sitemap_index.xml"] in
     sitemap_loop sitemap_urls)
    (Return false).

(** [_check_technical_factors]; [soup] and [response] are not read. *)
Definition _check_technical_factors (url : string) (soup : PageElement)
    (response : Response) : result (dict (dict value)) :=
  let checks : dict (dict value) := [] in
  (* SSL check *)
  let checks :=
    if startswith url "https://" then
      dict_set "ssl_certificate"
        (check_data "pass" 10 10 "SSL certificate is present" None_ "low") checks
    else
      dict_set "ssl_certificate"
        (check_data "fail" 0 10 "No SSL certificate found"
           (Str "Install an SSL certificate to secure your website") "critical") checks in
  (* Robots.txt check *)
  robots_exists ← _check_robots_txt url;
  let checks :=
    if robots_exists : bool then
      dict_set "robots_txt"
        (check_data "pass" 5 5 "Robots.txt file found" None_ "low") checks
    else
      dict_set "robots_txt"
        (check_data "warning" 0 5 "Robots.txt file not found"
           (Str "Create a robots.txt file to guide search engine crawlers") "medium") checks in
  (* Sitemap check *)
  sitemap_exists ← _check_sitemap url;
  let checks :=
    if sitemap_exists : bool then
      dict_set "xml_sitemap"
        (check_data "pass" 5 5 "XML sitemap found" None_ "low") checks
    else
      dict_set "xml_sitemap"
        (check_data "warning" 0 5 "XML sitemap not found"
           (Str "Create an XML sitemap to help search engines index your content")
           "medium") checks in
  Return checks.

(** The [try] block of [analyze_website]. *)
Definition analyze_website_body (url : string) : result (AnalysisResult w) :=
  (* Fetch the webpage *)
  response ← session_get w url;
  _ ← raise_for_status response;
  (* Parse HTML *)
  soup ← BeautifulSoup w (content response);
  (* Calculate load time *)
  let load_time_ms := elapsed_ms w in
  (* Perform all analysis checks *)
  let page_title := _get_page_title soup in
  let meta_description := _get_meta_description soup in
  seo_metrics ← _analyze_seo_metrics w url response soup load_time_ms;
  performance_metrics ← _analyze_performance w url response load_time_ms;
  security_scan ← _analyze_security w url response;
  let details : dict (dict (dict value)) := [] in
  (* Perform detailed checks *)
  let details := dict_set "seo" (_check_seo_factors url soup response) details in
  technical ← _check_technical_factors url soup response;
  let details := dict_set "technical" technical details in
  let details := dict_set "content" (_check_content_factors soup) details in
  let details :=
    dict_set "performance" (_check_performance_factors response load_time_ms) details in
  let details := dict_set "mobile" (_check_mobile_factors soup) details in
  (* Calculate overall score *)
  overall_score ← _calculate_overall_score details;
  Return (mk_AnalysisResult overall_score page_title meta_description details
            seo_metrics performance_metrics security_scan).

(** [analyze_website] *)
Definition analyze_website (url : string) : result (AnalysisResult w) :=
  try_except (analyze_website_body url)
    [(RequestException,
      fun e => Raise (mk_exn Exception ("Failed to fetch website: " +:+ exn_str e)));
     (Exception,
      fun e => Raise (mk_exn Exception ("Analysis failed: " +:+ exn_str e)))].

(** The link loop of [_analyze_seo_metrics] (the statements from
    [internal_links = 0] to the end of the [for]); [netloc0] is
    [parsed_url.netloc], [acc] the two counters. *)
Fixpoint count_links (netloc0 : string) (links : list PageElement) (acc : Z * Z)
  : result (Z * Z) :=
  match links with
  | [] => Return acc
  | link :: rest =>
      let '(internal_links, external_links) := acc in
      let href := get_default "href" "" link in
      if startswith href "http" then
        parsed_href ← urlparse w href;
        let link_domain := netloc parsed_href in
        if String.eqb link_domain netloc0
        then count_links netloc0 rest (internal_links + 1, external_links)
        else count_links netloc0 rest (internal_links, external_links + 1)
      else if startswith href "/" then
        count_links netloc0 rest (internal_links + 1, external_links)
      else count_links netloc0 rest (internal_links, external_links)
  end.

(** [internal_links] and [external_links] as [_analyze_seo_metrics] counts
    them. *)
Definition link_counts (url : string) (soup : PageElement) : result (Z * Z) :=
  parsed_url ← urlparse w url;
  count_links (netloc parsed_url) (find_all_having "a" "href" soup) (0, 0).

End Analyzer.

(** [_check_mobile_friendly] *)
Definition _check_mobile_friendly (soup : PageElement) : bool :=
  match find "meta" [("name", "viewport")] soup with
  | Some _ => true
  | None => false
  end.

End SEOAnalyzer.

(* ===================================================================== *)
(** * The summaries of [SEOAnalyzer]: performance and security *)
(* ===================================================================== *)

Module Summaries.

(** What [_analyze_performance] returns. *)
Record PerformanceMetrics := mk_PerformanceMetrics {
  first_contentful_paint : Z;
  largest_contentful_paint : Z;
  first_input_delay : Z;
  cumulative_layout_shift : float;
  speed_index : Z;
  time_to_interactive : Z;
  total_blocking_time : Z;
  performance_score : Z;
  accessibility_score : Z;
  best_practices_score : Z;
  seo_score : Z
}.

(** The double [0.1]. *)
Definition float_0_1 : float := S754_finite false 7205759403792794 (-56).

(** [_analyze_performance]; [url] is not read. *)
Definition _analyze_performance (url : string) (response : Response) (load_time_ms : Z)
  : PerformanceMetrics :=
  (* Basic performance scoring *)
  let performance_score := 100 in
  (* Penalize slow load times *)
  let performance_score :=
    if load_time_ms >? 3000 then performance_score - 30
    else if load_time_ms >? 2000 then performance_score - 20
    else if load_time_ms >? 1000 then performance_score - 10
    else performance_score in
  (* Check compression *)
  let performance_score :=
    if negb (str_contains "gzip" (headers_get "content-encoding" "" (headers response)))
    then performance_score - 10 else performance_score in
  (* Check caching headers *)
  let performance_score :=
    if negb (headers_in "cache-control" (headers response))
    then performance_score - 10 else performance_score in
  mk_PerformanceMetrics load_time_ms (load_time_ms + 500) 50 float_0_1 load_time_ms
    (load_time_ms + 1000) 100 (Z.max 0 performance_score) 85 90 80.

Section Security.

(** The certificate dict [_analyze_security] builds, and the [try] block
    that builds it: the TLS handshake with the host of the URL on port 443
    and the reading of the peer certificate, or the exception raised on the
    way. *)
Variable Certificate : Type.
Variable peer_certificate : string -> result Certificate.

(** What [_analyze_security] returns; [None] stands for the empty dict of
    [ssl_certificate], [blacklist_status] and [vulnerabilities] are always
    empty and [ssl_expires_at] is always [None]. *)
Record SecurityScan := mk_SecurityScan {
  ssl_certificate : option Certificate;
  ssl_grade : string;
  malware_detected : bool;
  security_headers : dict string;
  security_score : Z
}.

Definition headers_to_check : list string :=
  ["strict-transport-security"; "content-security-policy"; "x-frame-options";
   "x-content-type-options"; "referrer-policy"].

(** [for header in headers_to_check]; the state is [security_headers] and
    [security_score]. *)
Fixpoint check_headers (to_check : list string) (response : Response)
    (acc : dict string * Z) : dict string * Z :=
  match to_check with
  | [] => acc
  | header :: rest =>
      let '(security_headers, security_score) := acc in
      if headers_in header (headers response) then
        check_headers rest response
          (dict_set header (headers_get header "" (headers response)) security_headers,
           security_score)
      else check_headers rest response (security_headers, security_score - 5)
  end.

(** [_analyze_security] *)
Definition _analyze_security (url : string) (response : Response) : result SecurityScan :=
  let security_score := 100 in
  let ssl_grade := "A" in
  let ssl_certificate : option Certificate := None in
  (* Check SSL *)
  ssl ← (if negb (startswith url "https://") then
           Return (security_score - 50, "F", ssl_certificate)
         else
           (* Get SSL certificate info *)
           try_except
             (cert ← peer_certificate url;
              Return (security_score, ssl_grade, Some cert))
             [(Exception, fun _ => Return (security_score - 20, "C", ssl_certificate))]);
  let '(security_score, ssl_grade, ssl_certificate) := ssl in
  (* Check security headers *)
  let '(security_headers, security_score) :=
    check_headers headers_to_check response ([], security_score) in
  Return (mk_SecurityScan ssl_certificate ssl_grade false security_headers
            (Z.max 0 security_score)).

End Security.

Arguments SecurityScan Certificate : clear implicits.

End Summaries.

(* ===================================================================== *)
(** * [class CacheService] *)
(* ===================================================================== *)

Module CacheService.

Section Cache.

(** The type of the cached values. *)
Context {V : Type}.

(** One cache entry: the dict [set] stores under a key.  Times are clock
    readings; only their order is ever used. *)
Record entry := mk_entry {
  value : V;
  created_at : Z;
  accessed_at : Z;
  expires_at : Z
}.

(** The service and the clock it reads: [clock n] is what the [n]-th call of
    [time.time()] returns, [ticks] counts the calls made so far. *)
Record state := mk_state {
  _cache : gmap string entry;
  _default_ttl : Z;
  clock : nat -> Z;
  ticks : nat
}.

(** [CacheService()] under a given clock. *)
Definition init (clock : nat -> Z) (ticks : nat) : state :=
  mk_state ∅ 3600 clock ticks.

(** [time.time()] *)
Definition time_time (st : state) : Z * state :=
  (clock st (ticks st),
   mk_state (_cache st) (_default_ttl st) (clock st) (S (ticks st))).

Definition with_cache (c : gmap string entry) (st : state) : state :=
  mk_state c (_default_ttl st) (clock st) (ticks st).

(** [get]: the value, or [None]. *)
Definition get (key : string) (st : state) : option V * state :=
  match _cache st !! key with
  | None => (None, st)
  | Some cache_entry =>
      (* Check if expired *)
      let '(now, st) := time_time st in
      if expires_at cache_entry <? now then
        (None, with_cache (base.delete key (_cache st)) st)
      else
        (* Update access time *)
        let '(now, st) := time_time st in
        let cache_entry :=
          mk_entry (value cache_entry) (created_at cache_entry) now
                   (expires_at cache_entry) in
        (Some (value cache_entry), with_cache (<[key := cache_entry]> (_cache st)) st)
  end.

(** [set] *)
Definition set (key : string) (v : V) (ttl : option Z) (st : state) : state :=
  let ttl := match ttl with None => _default_ttl st | Some ttl => ttl end in
  let '(t_created, st) := time_time st in
  let '(t_accessed, st) := time_time st in
  let '(t_expires, st) := time_time st in
  with_cache
    (<[key := mk_entry v t_created t_accessed (t_expires + ttl)]> (_cache st)) st.

(** [delete]: whether the key was there. *)
Definition delete (key : string) (st : state) : bool * state :=
  match _cache st !! key with
  | Some _ => (true, with_cache (base.delete key (_cache st)) st)
  | None => (false, st)
  end.

(** [clear] *)
Definition clear (st : state) : state := with_cache ∅ st.

End Cache.

Arguments entry V : clear implicits.
Arguments state V : clear implicits.

(** What [get_stats] returns. *)
Record Stats := mk_Stats {
  total_entries : Z;
  active_entries : Z;
  expired_entries : Z;
  memory_usage_mb : float
}.

Section Maintenance.

Context {V : Type}.

(** [_estimate_memory_usage]: the sum of [sys.getsizeof] over the cache, in
    megabytes; the sizes are the interpreter's. *)
Variable _estimate_memory_usage : gmap string (entry V) -> float.

(** [entry['expires_at'] < current_time] *)
Definition expired (current_time : Z) (e : entry V) : bool :=
  expires_at e <? current_time.

(** [cleanup_expired]: the number of entries removed.  The order in which a
    dict yields its items plays no role here. *)
Definition cleanup_expired (st : state V) : Z * state V :=
  let '(current_time, st) := time_time st in
  let expired_keys :=
    map fst (List.filter (fun item => expired current_time (snd item))
                         (map_to_list (_cache st))) in
  let c := foldl (fun c key => base.delete key c) (_cache st) expired_keys in
  (Z.of_nat (length expired_keys), with_cache c st).

(** [get_stats] *)
Definition get_stats (st : state V) : Stats * state V :=
  let '(current_time, st) := time_time st in
  let total_entries := Z.of_nat (size (_cache st)) in
  let expired_entries :=
    foldr Z.add 0
      (map (fun _ => 1)
           (List.filter (expired current_time) (map snd (map_to_list (_cache st))))) in
  (mk_Stats total_entries (total_entries - expired_entries) expired_entries
     (_estimate_memory_usage (_cache st)),
   st).

End Maintenance.

Section Keys.

(** [hashlib.md5(s.encode()).hexdigest()] *)
Variable md5_hexdigest : string -> string.

(** [_generate_key]: [args] are the positional arguments as [str] shows
    them; [kwargs] is [None] without keyword arguments and otherwise their
    text [json.dumps(kwargs, sort_keys=True)]. *)
Definition _generate_key (prefix : string) (args : list string) (kwargs : option string)
  : string :=
  let key_data := prefix +:+ ":" +:+ String.concat ":" args in
  let key_data :=
    match kwargs with
    | Some json => key_data +:+ ":" +:+ json
    | None => key_data
    end in
  (* Hash long keys to keep them manageable *)
  if len key_data >? 100 then prefix +:+ ":" +:+ md5_hexdigest key_data
  else key_data.

(** [cached(prefix, ttl)(func)], the wrapper.  The arguments of a call are
    an [Args]; [key_parts] gives what [_generate_key] makes of them, the
    texts [str(arg)] of the positional arguments and the text
    [json.dumps(kwargs, sort_keys=True)] of the keyword arguments ([None]
    without any), or the exception raised on the way: by a [__str__], by
    [json.dumps], or by the call of [_generate_key] itself when a keyword is
    named [prefix].  [func] returns a value or [None], or raises; it touches
    neither the cache nor the clock. *)
Definition cached {X Args : Type}
    (key_parts : Args -> result (list string * option string))
    (prefix : string) (ttl : option Z)
    (func : Args -> result (option X)) (args : Args) (st : state (option X))
  : result (option X) * state (option X) :=
  (* Generate cache key *)
  match key_parts args with
  | Raise e => (Raise e, st)
  | Return (str_args, json_kwargs) =>
      let cache_key := _generate_key prefix str_args json_kwargs in
      (* Try to get from cache *)
      let '(cached_result, st) := get cache_key st in
      match cached_result with
      | Some (Some x) => (Return (Some x), st)
      | _ =>
          (* Execute function and cache result *)
          match func args with
          | Return result => (Return result, set cache_key result ttl st)
          | Raise e => (Raise e, st)
          end
      end
  end.

End Keys.

End CacheService.

(* ===================================================================== *)
(** * [class SEOAnalysisCache] *)
(* ===================================================================== *)

Module SEOAnalysisCache.

Import CacheService.

Section Cache.

Variable md5_hexdigest : string -> string.
Context {V : Type}.

Definition analysis_ttl : Z := 1800.
Definition domain_info_ttl : Z := 3600.
Definition backlinks_ttl : Z := 7200.

Definition analysis_key (domain analysis_type : string) : string :=
  _generate_key md5_hexdigest "analysis" [domain; analysis_type] None.

Definition domain_info_key (domain : string) : string :=
  _generate_key md5_hexdigest "domain_info" [domain] None.

Definition backlinks_key (domain : string) : string :=
  _generate_key md5_hexdigest "backlinks" [domain] None.

(** [get_analysis_result] *)
Definition get_analysis_result (domain analysis_type : string) (st : state V)
  : option V * state V :=
  get (analysis_key domain analysis_type) st.

(** [set_analysis_result] *)
Definition set_analysis_result (domain analysis_type : string) (result : V) (st : state V)
  : state V :=
  set (analysis_key domain analysis_type) result (Some analysis_ttl) st.

(** [get_domain_info] *)
Definition get_domain_info (domain : string) (st : state V) : option V * state V :=
  get (domain_info_key domain) st.

(** [set_domain_info] *)
Definition set_domain_info (domain : string) (info : V) (st : state V) : state V :=
  set (domain_info_key domain) info (Some domain_info_ttl) st.

(** [get_backlinks] *)
Definition get_backlinks (domain : string) (st : state V) : option V * state V :=
  get (backlinks_key domain) st.

(** [set_backlinks] *)
Definition set_backlinks (domain : string) (backlinks : V) (st : state V) : state V :=
  set (backlinks_key domain) backlinks (Some backlinks_ttl) st.

(** [invalidate_domain] *)
Definition invalidate_domain (domain : string) (st : state V) : state V :=
  let keys_to_delete :=
    List.filter (fun key => str_contains domain key)
                (map fst (map_to_list (_cache st))) in
  foldl (fun st key => snd (delete key st)) st keys_to_delete.

End Cache.

End SEOAnalysisCache.

(* ===================================================================== *)
(** * Vocabulary of the specification *)
(* ===================================================================== *)

Module Spec.

Import SEOAnalyzer.

(** What the specification says of a check: its status, its score and its
    maximum score. *)
Definition outcome (name : string) (checks : dict (dict value))
  : option (value * value * value) :=
  c ← dict_get name checks;
  status ← dict_get "status" c;
  score ← dict_get "score" c;
  max_score ← dict_get "max_score" c;
  Some (status, score, max_score).

Definition message (name : string) (checks : dict (dict value)) : option value :=
  c ← dict_get name checks; dict_get "message" c.

Definition verdict (status : string) (score max_score : Z) : option (value * value * value) :=
  Some (Str status, Int score, Int max_score).

(** The checks of a details mapping, whatever their category and name. *)
Definition checks_of (details : dict (dict (dict value))) : list (dict value) :=
  flat_map (fun cat => map snd (snd cat)) details.

(** The (score, max_score) pairs of the checks that carry both. *)
Definition score_pair (c : dict value) : option (value * value) :=
  match dict_get "score" c, dict_get "max_score" c with
  | Some s, Some m => Some (s, m)
  | _, _ => None
  end.

Definition score_pairs (details : dict (dict (dict value))) : list (value * value) :=
  omap score_pair (checks_of details).

(** A check that carries an int score between 0 and its int max_score. *)
Definition well_scored (c : dict value) : Prop :=
  exists s m, dict_get "score" c = Some (Int s) /\
              dict_get "max_score" c = Some (Int m) /\ 0 <= s <= m.

(** The sums the aggregation is about. *)
Definition int_of (v : value) : Z := match v with Int z => z | _ => 0 end.

Definition total_of (details : dict (dict (dict value))) : Z :=
  foldr Z.add 0 (map (fun p => int_of (fst p)) (score_pairs details)).

Definition max_total_of (details : dict (dict (dict value))) : Z :=
  foldr Z.add 0 (map (fun p => int_of (snd p)) (score_pairs details)).

(** The two loops of [_calculate_overall_score], seen on the pairs alone. *)
Fixpoint sum_pairs (l : list (value * value)) (acc : number * number)
  : result (number * number) :=
  match l with
  | [] => Return acc
  | (s, m) :: rest =>
      acc ← (total_score ← iadd (fst acc) s;
             max_total_score ← iadd (snd acc) m;
             Return (total_score, max_total_score));
      sum_pairs rest acc
  end.

Definition is_int (v : value) : bool :=
  match v with Int _ => true | _ => false end.

Definition int_pair (p : value * value) : bool := is_int (fst p) && is_int (snd p).



(** What [_calculate_overall_score] does once the totals are known. *)
Definition percent_of (totals : number * number) : result Z :=
  let '(total_score, max_total_score) := totals in
  if number_is_zero max_total_score then Return 0
  else
    ratio ← truediv total_score max_total_score;
    round (float_mul_int ratio 100).

(** The same on two int totals. *)
Definition percent_of_totals (totals : Z * Z) : result Z :=
  let '(total_score, max_total_score) := totals in
  if max_total_score =? 0 then Return 0
  else
    ratio ← int_truediv total_score max_total_score;
    round (float_mul_int ratio 100).


(** [round(100 * s / m)] on the exact quotient, ties to even: the overall
    score as the specification writes it. *)
Definition exact_percent (s m : Z) : Z :=
  let q := (100 * s) / m in
  let r := (100 * s) mod m in
  match (2 * r ?= m) with
  | Lt => q
  | Gt => q + 1
  | Eq => if Z.even q then q else q + 1
  end.

(** An image with a non-empty alt attribute. *)
Definition has_alt (img : PageElement) : Prop :=
  exists v, get "alt" img = Some v /\ v <> "".

(** The URL of a probe: [f"{scheme}://{netloc}{path}"]. *)
Definition site_url (p : ParseResult) (path : string) : string :=
  scheme p +:+ "://" +:+ netloc p +:+ path.

(** A probe that answers with status 200, and one that answers with another
    status. *)
Definition probe_200 (w : World) (u : string) : Prop :=
  exists r, session_get w u = Return r /\ status_code r = 200.

Definition probe_not_200 (w : World) (u : string) : Prop :=
  exists r, session_get w u = Return r /\ status_code r <> 200.

(** The checks of one category of a result. *)
Definition category (name : string) (details : dict (dict (dict value)))
  : dict (dict value) :=
  match dict_get name details with Some checks => checks | None => [] end.

End Spec.

(* ===================================================================== *)
(** * Vocabulary for whole analyses *)
(* ===================================================================== *)

Module Shape.

Import Spec.

(** The names of the categories and of their checks, in order. *)
Definition layout (details : dict (dict (dict value))) : list (string * list string) :=
  map (fun cat => (fst cat, map fst (snd cat))) details.

(** The layout of every analysis. *)
Definition analysis_layout : list (string * list string) :=
  [("seo", ["title_tag"; "meta_description"; "h1_tag"]);
   ("technical", ["ssl_certificate"; "robots_txt"; "xml_sitemap"]);
   ("content", ["image_alt_attributes"; "content_length"]);
   ("performance", ["page_load_time"; "gzip_compression"]);
   ("mobile", ["viewport_meta_tag"])].

(** The pairs of one category. *)
Definition pairs_of (checks : dict (dict value)) : list (value * value) :=
  omap score_pair (map snd checks).

Definition int_pairs (l : list (Z * Z)) : list (value * value) :=
  map (fun p => (Int (fst p), Int (snd p))) l.

(** A check that reached its maximum score. *)
Definition full_marks (c : dict value) : Prop :=
  exists m, dict_get "score" c = Some (Int m) /\ dict_get "max_score" c = Some (Int m).

(** A string that starts with [p]. *)
Definition starts_with (p s : string) : Prop := exists rest, s = p +:+ rest.

(** The cache holds the value [v] under [key], to expire at the time
    [expiry]. *)
Definition holds_until {V} (key : string) (v : V) (expiry : Z)
    (st : CacheService.state V) : Prop :=
  exists e, CacheService._cache st !! key = Some e /\
            CacheService.value e = v /\ CacheService.expires_at e = expiry.

(** The security headers a response lacks. *)
Definition missing_headers (response : Response) : list string :=
  List.filter (fun header => negb (headers_in header (headers response)))
              Summaries.headers_to_check.

(** The security headers a response carries. *)
Definition present_headers (response : Response) : list string :=
  List.filter (fun header => headers_in header (headers response))
              Summaries.headers_to_check.

(** A link with an absolute http(s) address or a path from the root: the
    links [_analyze_seo_metrics] counts. *)
Definition counted_link (link : PageElement) : bool :=
  startswith (get_default "href" "" link) "http" ||
  startswith (get_default "href" "" link) "/".

End Shape.

(* ===================================================================== *)
(** * Concrete pages and worlds, for the examples *)
(* ===================================================================== *)

Module Examples.

Import SEOAnalyzer.

(** A page with the given children of [head] and [body]. *)
Definition page (head body : list PageElement) : PageElement :=
  Tag "[document]" [] [Tag "html" [] [Tag "head" [] head; Tag "body" [] body]].

Definition title (text : string) : PageElement :=
  Tag "title" [] [NavigableString text].

Definition h1 (text : string) : PageElement :=
  Tag "h1" [] [NavigableString text].

Definition img (a : dict string) : PageElement := Tag "img" a [].

Definition title60 : string :=
  "A title of sixty characters exactly, padded to the very end.".

Definition title61 : string :=
  "A title of sixty-one characters exactly, padded to the wished".

Definition ok_response (final_url : string) : Response :=
  mk_Response final_url 200 "OK" [("Content-Type", "text/html")] "<html></html>".

Definition not_found (final_url : string) : Response :=
  mk_Response final_url 404 "Not Found" [] "".

(** Splits [scheme://netloc/path] at the first ["://"] and the next ["/"];
    enough of [urlparse] for the URLs of the examples. *)
Fixpoint until_slash (s : string) : string :=
  match s with
  | EmptyString => EmptyString
  | String c t => if Ascii.eqb c "/" then EmptyString else String c (until_slash t)
  end.

Fixpoint split_scheme (s : string) : string * string :=
  match s with
  | EmptyString => (EmptyString, EmptyString)
  | String c t =>
      if String.prefix "://" s then (EmptyString, substring 3 (String.length s) s)
      else let '(a, b) := split_scheme t in (String c a, b)
  end.

Definition urlparse (u : string) : result ParseResult :=
  let '(s, rest) := split_scheme u in
  Return (mk_ParseResult (lower s) (until_slash rest)).

(** A site that serves its page over [http://example.com/] by redirecting
    to [https://example.com/], and has neither robots.txt nor sitemap. *)
Definition redirecting_site (u : string) : result Response :=
  if String.eqb u "http://example.com/" then Return (ok_response "https://example.com/")
  else Return (not_found u).

(** A site whose [/sitemap.xml] times out and whose [/sitemap_index.xml]
    exists. *)
Definition slow_sitemap_site (u : string) : result Response :=
  if String.eqb u "https://example.com/sitemap.xml" then
    Raise (mk_exn ReadTimeout "Read timed out. (read timeout=10)")
  else if String.eqb u "https://example.com/sitemap_index.xml" then
    Return (mk_Response u 200 "OK" [] "<sitemapindex/>")
  else Return (not_found u).

(** A site that refuses the connection. *)
Definition unreachable_site (u : string) : result Response :=
  Raise (mk_exn ConnectionError "Connection refused").

(** A parser that yields one fixed page, and summaries that say nothing. *)
Definition parse_as (soup : PageElement) (content : string) : result PageElement :=
  Return soup.

Definition no_seo_metrics (url : string) (r : Response) (soup : PageElement) (ms : Z)
  : result unit := Return tt.
Definition no_performance (url : string) (r : Response) (ms : Z) : result unit := Return tt.
Definition no_security (url : string) (r : Response) : result unit := Return tt.

(** The world made of a site and the page its HTML parses to; the fetch
    takes 250 ms. *)
Definition world (site : string -> result Response) (soup : PageElement) : World :=
  mk_World site urlparse (parse_as soup) 250
    unit unit unit no_seo_metrics no_performance no_security.

(** Four checks worth 10 points each, with 23 points reached. *)
Definition details_23_of_40 : dict (dict (dict value)) :=
  [("seo",
    [("title_tag", check_data "pass" 10 10 "Title tag length is optimal (12 characters)" None_ "low");
     ("h1_tag", check_data "fail" 0 10 "No H1 tag found"
        (Str "Add an H1 tag to clearly define the main topic of your page") "high")]);
   ("content",
    [("content_length", check_data "warning" 3 10 "Content is quite short (42 words)"
        (Str "Consider adding more comprehensive content (aim for 300+ words)") "medium")]);
   ("mobile",
    [("viewport_meta_tag", check_data "pass" 10 10 "Viewport meta tag is present" None_ "low")])].






(** A page with a title, a description and a viewport in its head, and a
    heading, an image with its alt text and five anchors in its body. *)
Definition meta (name content : string) : PageElement :=
  Tag "meta" [("name", name); ("content", content)] [].

Definition anchor (href text : string) : PageElement :=
  Tag "a" [("href", href)] [NavigableString text].

Definition example_page : PageElement :=
  page [title "Example Domain";
        meta "description" "An example page for documents and tests.";
        meta "viewport" "width=device-width, initial-scale=1"]
       [h1 "Example Domain";
        img [("src", "/logo.png"); ("alt", "Example logo")];
        anchor "http://example.com/about" "About";
        anchor "/contact" "Contact";
        anchor "https://www.iana.org/domains/example" "More information";
        anchor "mailto:hostmaster@example.com" "Mail";
        Tag "a" [("name", "top")] []].

Definition example_world : World := world redirecting_site example_page.

(** A response with two of the five security headers. *)
Definition guarded_response : Response :=
  mk_Response "https://example.com/" 200 "OK"
    [("Content-Type", "text/html");
     ("Strict-Transport-Security", "max-age=31536000");
     ("X-Frame-Options", "DENY")]
    "<html></html>".

(** Reading the certificate: one host that shows it, one that resets the
    connection. *)
Definition shown_certificate (url : string) : result string :=
  Return "CN=example.com".

Definition reset_connection (url : string) : result string :=
  Raise (mk_exn ConnectionError "Connection reset by peer").

(** A clock that shows 1000, 1001, 1002, ... *)
Definition ticking (n : nat) : Z := 1000 + Z.of_nat n.

(** A clock that shows 1000, 2000, 3000, ... *)
Definition striding (n : nat) : Z := 1000 * (1 + Z.of_nat n).

(** A stand-in for the digest: 32 hexadecimal digits, the same for every
    text. *)
Definition md5_stub (s : string) : string := "d41d8cd98f00b204e9800998ecf8427e".

(** A looked-up function for the decorator, and one that is out of
    order. *)
Definition owner_of (domain : string) : result (option string) :=
  Return (Some ("owner of " +:+ domain)).

Definition unknown_owner (domain : string) : result (option string) := Return None.

Definition out_of_order (domain : string) : result (option string) :=
  Raise (mk_exn ConnectionError "whois server unreachable").

(** The key parts of a call with one positional argument, and those of a
    call whose keyword arguments hold a set, which [json.dumps] refuses. *)
Definition one_argument (domain : string) : result (list string * option string) :=
  Return ([domain], None).

Definition set_keyword (domain : string) : result (list string * option string) :=
  Raise (mk_exn TypeError "Object of type set is not JSON serializable").

End Examples.

(* ===================================================================== *)
(** * Rounding in binary64 *)
(* ===================================================================== *)

Module Rounding.

Import Binary64.

Ltac qsplit :=
  repeat match goal with
         | H : _ /\ _ |- _ => destruct H
         | |- _ /\ _ => split
         end.

Lemma pow2_pos (e : Z) : (0 < 2 ^ e)%Q.
Proof. apply Qpower_0_lt. reflexivity. Qed.

Lemma pow2_succ (e : Z) : (2 ^ (e + 1) == 2 * 2 ^ e)%Q.
Proof. rewrite Qpower_plus by discriminate. change (2 ^ 1)%Q with 2%Q. ring. Qed.

Lemma pow2_add (a b : Z) : (2 ^ (a + b) == 2 ^ a * 2 ^ b)%Q.
Proof. apply Qpower_plus. discriminate. Qed.

Lemma inject_Z_xO p : (inject_Z (Zpos p~0) == 2 * inject_Z (Zpos p))%Q.
Proof. change (Zpos p~0) with (2 * Zpos p). rewrite inject_Z_mult. reflexivity. Qed.

Lemma inject_Z_xI p : (inject_Z (Zpos p~1) == 2 * inject_Z (Zpos p) + 1)%Q.
Proof.
  change (Zpos p~1) with (2 * Zpos p + 1). rewrite inject_Z_plus, inject_Z_mult.
  reflexivity.
Qed.

(** One step to the right keeps the location. *)
Lemma shr_1_located (v : Q) (mrs : shr_record) (e : Z) :
  0 <= shr_m mrs ->
  located v (shr_m mrs) e (loc_of_shr_record mrs) ->
  0 <= shr_m (shr_1 mrs) /\
  located v (shr_m (shr_1 mrs)) (e + 1) (loc_of_shr_record (shr_1 mrs)).
Proof.
  destruct mrs as [m r s]. cbn [shr_m]. intros Hm H.
  pose proof (pow2_pos e) as HP. pose proof (pow2_succ e) as HS.
  destruct m as [|p|p]; [| |lia].
  - unfold located, F2Q in *.
    destruct r, s; cbn [shr_1 shr_m orb loc_of_shr_record] in *; (split; [lia|]);
      rewrite ?HS; change (inject_Z 0) with 0%Q in *;
      qsplit; clear HS; set (P := (2 ^ e)%Q) in *; clearbody P; lra.
  - unfold located, F2Q in *.
    destruct p as [p|p|];
      [pose proof (inject_Z_xI p) as HI|pose proof (inject_Z_xO p) as HI|];
      destruct r, s; cbn [shr_1 orb loc_of_shr_record shr_m] in *; (split; [lia|]);
      rewrite ?HS, ?HI in *; change (inject_Z 0) with 0%Q in *;
      change (inject_Z 1) with 1%Q in *;
      qsplit; clear HS; set (P := (2 ^ e)%Q) in *; clearbody P; lra.
Qed.

Lemma loc_of_shr_record_of_loc m l :
  loc_of_shr_record (shr_record_of_loc m l) = l /\ shr_m (shr_record_of_loc m l) = m.
Proof. destruct l as [|[]]; split; reflexivity. Qed.

Lemma shr_1_m (mrs : shr_record) :
  0 <= shr_m mrs -> shr_m (shr_1 mrs) = shr_m mrs / 2.
Proof.
  destruct mrs as [m r s]. cbn [shr_m]. intros Hm.
  destruct m as [|[p|p|]|p]; cbn [shr_1 shr_m]; try lia; try reflexivity.
  - apply (Z.div_unique _ _ _ 1); lia.
  - apply (Z.div_unique _ _ _ 0); lia.
Qed.

(** [n] steps to the right. *)
Lemma iter_shr_1_located (v : Q) (n : positive) (mrs : shr_record) (e : Z) :
  0 <= shr_m mrs ->
  located v (shr_m mrs) e (loc_of_shr_record mrs) ->
  0 <= shr_m (SpecFloat.iter_pos shr_1 n mrs) /\
  shr_m (SpecFloat.iter_pos shr_1 n mrs) = shr_m mrs / 2 ^ Zpos n /\
  located v (shr_m (SpecFloat.iter_pos shr_1 n mrs)) (e + Zpos n)
    (loc_of_shr_record (SpecFloat.iter_pos shr_1 n mrs)).
Proof.
  revert mrs e. induction n as [n IH|n IH|]; intros mrs e Hm H; cbn [SpecFloat.iter_pos].
  - destruct (shr_1_located v mrs e Hm H) as [H0 H1].
    destruct (IH _ _ H0 H1) as (H2 & E2 & H3).
    destruct (IH _ _ H2 H3) as (H4 & E4 & H5).
    split; [exact H4|]. split.
    + rewrite E4, E2, shr_1_m by exact Hm.
      rewrite !Z.div_div by lia. f_equal.
      replace (Zpos n~1) with (1 + Zpos n + Zpos n) by lia.
      rewrite !Z.pow_add_r by lia. change (2 ^ 1) with 2. ring.
    + replace (e + Zpos n~1) with (e + 1 + Zpos n + Zpos n) by lia. exact H5.
  - destruct (IH _ _ Hm H) as (H2 & E2 & H3).
    destruct (IH _ _ H2 H3) as (H4 & E4 & H5).
    split; [exact H4|]. split.
    + rewrite E4, E2. rewrite Z.div_div by lia. f_equal.
      replace (Zpos n~0) with (Zpos n + Zpos n) by lia.
      rewrite Z.pow_add_r by lia. ring.
    + replace (e + Zpos n~0) with (e + Zpos n + Zpos n) by lia. exact H5.
  - destruct (shr_1_located v mrs e Hm H) as [H0 H1].
    split; [exact H0|]. split; [|exact H1]. apply shr_1_m, Hm.
Qed.

Lemma shr_located (v : Q) (mrs : shr_record) (e n : Z) :
  0 <= n -> 0 <= shr_m mrs ->
  located v (shr_m mrs) e (loc_of_shr_record mrs) ->
  snd (shr mrs e n) = e + n /\
  shr_m (fst (shr mrs e n)) = shr_m mrs / 2 ^ n /\
  located v (shr_m (fst (shr mrs e n))) (e + n) (loc_of_shr_record (fst (shr mrs e n))).
Proof.
  intros Hn Hm H. destruct n as [|n|n]; [| |lia]; cbn [shr fst snd].
  - rewrite Z.add_0_r, Z.pow_0_r, Z.div_1_r. auto.
  - destruct (iter_shr_1_located v n mrs e Hm H) as (_ & E & L). auto.
Qed.

(** The number of binary digits. *)
Lemma digits2_pos_size (p : positive) : digits2_pos p = Pos.size p.
Proof. induction p; cbn; congruence. Qed.

Lemma Zdigits2_bounds (p : positive) :
  2 ^ (Zdigits2 (Zpos p) - 1) <= Zpos p < 2 ^ Zdigits2 (Zpos p).
Proof.
  cbn [Zdigits2]. rewrite digits2_pos_size.
  pose proof (Pos.size_gt p) as Hgt. pose proof (Pos.size_le p) as Hle.
  apply Pos2Z.pos_lt_pos in Hgt. apply Pos2Z.pos_le_pos in Hle.
  rewrite Pos2Z.inj_pow in Hgt, Hle. change (Zpos p~0) with (2 * Zpos p) in Hle.
  split; [|exact Hgt].
  replace (2 ^ Zpos (Pos.size p)) with (2 * 2 ^ (Zpos (Pos.size p) - 1)) in Hle.
  - lia.
  - rewrite <- Z.pow_succ_r by lia. f_equal. lia.
Qed.

Lemma Zdigits2_unique (m d : Z) :
  2 ^ (d - 1) <= m < 2 ^ d -> 0 < m -> Zdigits2 m = d.
Proof.
  intros [Hlo Hhi] Hm. destruct m as [|p|p]; try lia.
  pose proof (Zdigits2_bounds p) as [Blo Bhi].
  assert (0 < Zdigits2 (Zpos p)) by (cbn; lia).
  assert (Hd : 0 < d).
  { destruct (Z.ltb_spec 0 d); [assumption|].
    rewrite Z.pow_neg_r in Hlo by lia.
    assert (2 ^ d <= 1); [|lia].
    destruct (Z.eqb_spec d 0) as [->|]; [cbn; lia|].
    rewrite Z.pow_neg_r by lia. lia. }
  destruct (Z.lt_trichotomy (Zdigits2 (Zpos p)) d) as [Hlt|[Heq|Hgt]]; [|exact Heq|].
  - assert (2 ^ Zdigits2 (Zpos p) <= 2 ^ (d - 1)) by (apply Z.pow_le_mono_r; lia). lia.
  - assert (2 ^ d <= 2 ^ (Zdigits2 (Zpos p) - 1)) by (apply Z.pow_le_mono_r; lia). lia.
Qed.

Lemma fexp_normal (x : Z) : -1021 <= x -> fexp prec emax x = x - 53.
Proof. unfold fexp, emin, prec, emax. lia. Qed.

Lemma F2Q_succ (m e : Z) : (F2Q (m + 1) e == F2Q m e + 2 ^ e)%Q.
Proof. unfold F2Q. rewrite inject_Z_plus. change (inject_Z 1) with 1%Q. ring. Qed.

(** Rounding to nearest: at most half a unit away. *)
Lemma round_nearest_even_located (v : Q) (m e : Z) (l : location) :
  located v m e l ->
  (round_nearest_even m l = m \/ round_nearest_even m l = m + 1) /\
  (- ((1 # 2) * 2 ^ e) <= F2Q (round_nearest_even m l) e - v <= (1 # 2) * 2 ^ e)%Q.
Proof.
  intros H. pose proof (pow2_pos e) as HP. pose proof (F2Q_succ m e) as HS.
  unfold located in H.
  destruct l as [|[]]; cbn [round_nearest_even]; try destruct (Z.even m);
    (split; [auto|]); rewrite ?HS; clear HS;
    set (P := (2 ^ e)%Q) in *; clearbody P; set (X := F2Q m e) in *; clearbody X;
    qsplit; lra.
Qed.

Lemma pow2_split (a b : Z) : 0 <= a -> 0 <= b -> 2 ^ (a + b) = 2 ^ a * 2 ^ b.
Proof. intros. apply Z.pow_add_r; lia. Qed.

(** [binary_round_aux] on a mantissa of at least 53 digits, away from
    underflow and overflow: the result is a normal number, within half a
    unit in the last place of the value that is rounded. *)
Lemma binary_round_aux_spec (v : Q) (mx ex d : Z) (lx : location) :
  53 <= d -> 2 ^ (d - 1) <= mx < 2 ^ d -> located v mx ex lx ->
  -1074 <= ex -> ex + d <= 1023 ->
  exists m e,
    binary_round_aux prec emax false mx ex lx = S754_finite false m e /\
    2 ^ 52 <= Zpos m < 2 ^ 53 /\
    ex + d - 53 <= e <= ex + d - 52 /\
    (- ((1 # 2) * 2 ^ (ex + d - 53)) <= F2Q (Zpos m) e - v
     <= (1 # 2) * 2 ^ (ex + d - 53))%Q.
Proof.
  intros Hd Hmx Hloc Hex Hov.
  assert (Hpos : 0 < mx).
  { assert (0 < 2 ^ (d - 1)) by (apply Z.pow_pos_nonneg; lia). lia. }
  unfold binary_round_aux.
  (* the first shift *)
  unfold shr_fexp at 1. rewrite (Zdigits2_unique mx d Hmx Hpos).
  rewrite fexp_normal by lia.
  destruct (loc_of_shr_record_of_loc mx lx) as [El Em].
  destruct (shr_located v (shr_record_of_loc mx lx) ex (d + ex - 53 - ex))
    as (Ee & Emm & L1); [lia|rewrite Em; lia|rewrite El, Em; exact Hloc|].
  rewrite Em in Emm.
  destruct (shr _ ex _) as [mrs1 e1]. cbn [fst snd] in Ee, Emm, L1.
  replace (ex + (d + ex - 53 - ex)) with (ex + d - 53) in * by lia.
  replace (d + ex - 53 - ex) with (d - 53) in * by lia.
  subst e1.
  assert (H1 : 2 ^ 52 <= shr_m mrs1 < 2 ^ 53).
  { rewrite Emm.
    assert (0 < 2 ^ (d - 53)) by (apply Z.pow_pos_nonneg; lia).
    split.
    - apply Z.div_le_lower_bound; [lia|].
      rewrite <- pow2_split by lia. replace (d - 53 + 52) with (d - 1) by lia. lia.
    - apply Z.div_lt_upper_bound; [lia|].
      rewrite <- pow2_split by lia. replace (d - 53 + 53) with d by lia. lia. }
  (* rounding *)
  destruct (round_nearest_even_located v _ _ _ L1) as [Hm2 Herr].
  set (m2 := round_nearest_even (shr_m mrs1) (loc_of_shr_record mrs1)) in *.
  clearbody m2. clear L1 Emm El Em Hloc.
  (* the second shift *)
  unfold shr_fexp. cbn [shr_record_of_loc].
  destruct (Z.eq_dec m2 (2 ^ 53)) as [->|Hne].
  - (* the rounding carried into a 54th digit *)
    exists (Z.to_pos (2 ^ 52)), (ex + d - 53 + 1).
    rewrite (Zdigits2_unique (2 ^ 53) 54) by (vm_compute; intuition discriminate).
    rewrite fexp_normal by lia.
    replace (54 + (ex + d - 53) - 53 - (ex + d - 53)) with 1 by lia.
    cbn [shr SpecFloat.iter_pos]. change (shr_m (shr_1 _)) with (2 ^ 52).
    change (2 ^ 52) with (Zpos (Z.to_pos (2 ^ 52))) at 1. cbv iota.
    destruct (Z.leb_spec (ex + d - 53 + 1) (emax - prec)) as [_|Hbad];
      [|unfold emax, prec in Hbad; lia].
    split; [reflexivity|]. split; [vm_compute; intuition discriminate|].
    split; [lia|].
    assert (E : (F2Q (Zpos (Z.to_pos (2 ^ 52))) (ex + d - 53 + 1)
                 == F2Q (2 ^ 53) (ex + d - 53))%Q).
    { unfold F2Q. rewrite pow2_succ.
      change (inject_Z (Zpos (Z.to_pos (2 ^ 52)))) with (inject_Z (2 ^ 52)).
      change (inject_Z (2 ^ 53)) with (2 * inject_Z (2 ^ 52))%Q. ring. }
    rewrite E. exact Herr.
  - assert (H2 : 2 ^ 52 <= m2 < 2 ^ 53) by lia.
    assert (Hp2 : 0 < m2) by (change (2 ^ 52) with 4503599627370496 in H2; lia).
    destruct m2 as [|m2|m2]; try lia.
    exists m2, (ex + d - 53).
    rewrite (Zdigits2_unique (Zpos m2) 53 H2 Hp2).
    rewrite fexp_normal by lia.
    replace (53 + (ex + d - 53) - 53 - (ex + d - 53)) with 0 by lia.
    cbn [shr shr_m].
    destruct (Z.leb_spec (ex + d - 53) (emax - prec)) as [_|Hbad];
      [|unfold emax, prec in Hbad; lia].
    split; [reflexivity|]. split; [exact H2|]. split; [lia|exact Herr].
Qed.

Lemma located_lower (v : Q) (m e : Z) (l : location) :
  located v m e l -> (F2Q m e <= v)%Q.
Proof.
  intros H. pose proof (pow2_pos e) as HP. unfold located in H.
  set (P := (2 ^ e)%Q) in *; clearbody P; set (X := F2Q m e) in *; clearbody X.
  destruct l as [|[]]; qsplit; lra.
Qed.

Lemma inject_Z_pow2 (n : Z) : 0 <= n -> (inject_Z (2 ^ n) == 2 ^ n)%Q.
Proof. intros H. rewrite Zpower_Qpower by exact H. reflexivity. Qed.

Lemma F2Q_mono (m m' e : Z) : m <= m' -> (F2Q m e <= F2Q m' e)%Q.
Proof.
  intros H. unfold F2Q. apply Qmult_le_compat_r.
  - rewrite <- Zle_Qle. exact H.
  - apply Qlt_le_weak, pow2_pos.
Qed.

Lemma binary_round_aux_relative (v : Q) (mx ex : Z) (lx : location) :
  2 ^ 52 <= mx -> located v mx ex lx ->
  -1074 <= ex -> ex + Zdigits2 mx <= 1023 ->
  exists m e,
    binary_round_aux prec emax false mx ex lx = S754_finite false m e /\
    2 ^ 52 <= Zpos m < 2 ^ 53 /\
    ex + Zdigits2 mx - 53 <= e <= ex + Zdigits2 mx - 52 /\
    (- (eps * v) <= F2Q (Zpos m) e - v <= eps * v)%Q.
Proof.
  intros Hmx Hloc Hex Hov.
  assert (Hpos : 0 < mx) by (change (2 ^ 52) with 4503599627370496 in Hmx; lia).
  destruct mx as [|p|p]; try lia.
  pose proof (Zdigits2_bounds p) as Hb. set (d := Zdigits2 (Zpos p)) in *.
  assert (Hd : 53 <= d).
  { destruct (Z.ltb_spec d 53); [|assumption].
    assert (2 ^ d <= 2 ^ 52) by (apply Z.pow_le_mono_r; lia). lia. }
  destruct (binary_round_aux_spec v (Zpos p) ex d lx Hd Hb Hloc Hex Hov)
    as (m & e & E & Hm & He & Herr).
  exists m, e. split; [exact E|]. split; [exact Hm|]. split; [exact He|].
  assert (Hv : ((1 # 2) * 2 ^ (ex + d - 53) <= eps * v)%Q).
  { apply located_lower in Hloc.
    pose proof (F2Q_mono _ _ ex (proj1 Hb)) as Hlow. unfold F2Q at 1 in Hlow.
    rewrite inject_Z_pow2 in Hlow by lia. rewrite <- pow2_add in Hlow.
    replace (ex + d - 53) with (-52 + (d - 1 + ex)) by lia.
    rewrite pow2_add. set (P := (2 ^ (d - 1 + ex))%Q) in *. clearbody P.
    change (2 ^ (-52))%Q with (1 # 4503599627370496)%Q. unfold eps.
    set (X := F2Q (Zpos p) ex) in *. clearbody X. lra. }
  set (H := ((1 # 2) * 2 ^ (ex + d - 53))%Q) in *. clearbody H.
  set (X := F2Q (Zpos m) e) in *. clearbody X. qsplit; lra.
Qed.

(** A 53-digit mantissa is kept as it is. *)
Lemma binary_round_aux_exact (m : positive) (e : Z) :
  2 ^ 52 <= Zpos m < 2 ^ 53 -> -1074 <= e <= 971 ->
  binary_round_aux prec emax false (Zpos m) e loc_Exact = S754_finite false m e.
Proof.
  intros Hm He. unfold binary_round_aux, shr_fexp.
  rewrite (Zdigits2_unique (Zpos m) 53 Hm) by lia.
  rewrite fexp_normal by lia.
  replace (53 + e - 53 - e) with 0 by lia.
  cbn [shr shr_record_of_loc shr_m loc_of_shr_record round_nearest_even].
  rewrite (Zdigits2_unique (Zpos m) 53 Hm) by lia.
  rewrite fexp_normal by lia.
  replace (53 + e - 53 - e) with 0 by lia.
  cbn [shr shr_record_of_loc shr_m].
  destruct (Z.leb_spec e (emax - prec)) as [_|Hbad];
    [reflexivity|unfold emax, prec in Hbad; lia].
Qed.

Lemma iter_xO (p k : positive) : Zpos (Pos.iter xO p k) = Zpos p * 2 ^ Zpos k.
Proof.
  change (Pos.iter xO p k) with (shift_pos k p). rewrite shift_pos_correct.
  change (Zpower_pos 2 k) with (2 ^ Zpos k). apply Z.mul_comm.
Qed.

Lemma F2Q_scale (m k : Z) : 0 <= k -> (F2Q (m * 2 ^ k) (- k) == inject_Z m)%Q.
Proof.
  intros Hk. unfold F2Q. rewrite inject_Z_mult, inject_Z_pow2 by exact Hk.
  rewrite <- Qmult_assoc, <- pow2_add. replace (k + - k) with 0 by lia.
  change (2 ^ 0)%Q with 1%Q. ring.
Qed.

(** [float(z)] for [0 < z < 2^53] is [z] itself, normalized. *)
Lemma float_of_int_pos (z : Z) :
  0 < z < 2 ^ 53 ->
  exists m e,
    float_of_int z = S754_finite false m e /\
    2 ^ 52 <= Zpos m < 2 ^ 53 /\ -52 <= e <= 0 /\
    (F2Q (Zpos m) e == inject_Z z)%Q.
Proof.
  intros Hz. destruct z as [|p|p]; try lia.
  unfold float_of_int. cbn [binary_normalize]. unfold binary_round.
  pose proof (Zdigits2_bounds p) as Hb.
  change (Zpos (digits2_pos p)) with (Zdigits2 (Zpos p)).
  set (d := Zdigits2 (Zpos p)) in *.
  assert (Hd : 1 <= d <= 53).
  { split; [unfold d; cbn; lia|].
    destruct (Z.leb_spec d 53); [assumption|].
    assert (2 ^ 53 <= 2 ^ (d - 1)) by (apply Z.pow_le_mono_r; lia). lia. }
  clearbody d. rewrite fexp_normal by lia. unfold shl_align.
  replace (d + 0 - 53) with (d - 53) by lia.
  replace (d - 53 - 0) with (d - 53) by lia.
  destruct (d - 53) as [|k|k] eqn:Ek; try lia.
  - assert (d = 53) by lia. subst d. replace (53 - 1) with 52 in Hb by lia.
    rewrite binary_round_aux_exact by (try exact Hb; lia).
    exists p, 0. repeat split; try lia.
    unfold F2Q. change (2 ^ 0)%Q with 1%Q. ring.
  - assert (Hm : 2 ^ 52 <= Zpos (Pos.iter xO p k) < 2 ^ 53).
    { rewrite iter_xO.
      assert (E52 : 2 ^ 52 = 2 ^ (d - 1) * 2 ^ Zpos k).
      { rewrite <- pow2_split by lia. f_equal. lia. }
      assert (E53 : 2 ^ 53 = 2 ^ d * 2 ^ Zpos k).
      { rewrite <- pow2_split by lia. f_equal. lia. }
      assert (0 < 2 ^ Zpos k) by (apply Z.pow_pos_nonneg; lia).
      rewrite E52, E53. split; [apply Z.mul_le_mono_nonneg_r; lia|].
      apply Z.mul_lt_mono_pos_r; lia. }
    rewrite binary_round_aux_exact by (try exact Hm; lia).
    exists (Pos.iter xO p k), (Zneg k). split; [reflexivity|].
    split; [exact Hm|]. split; [lia|].
    rewrite iter_xO. change (Zneg k) with (- Zpos k). apply F2Q_scale. lia.
Qed.

(** What [new_location] says of a remainder. *)
Lemma new_location_spec (D r : Z) :
  0 <= r < D ->
  match new_location D r with
  | loc_Exact => r = 0
  | loc_Inexact Lt => 0 < r /\ 2 * r < D
  | loc_Inexact Eq => 2 * r = D
  | loc_Inexact Gt => D < 2 * r
  end.
Proof.
  intros Hr. unfold new_location, new_location_even, new_location_odd.
  destruct (Z.even D) eqn:Ev; destruct (Z.eqb_spec r 0) as [E0|N0]; try exact E0.
  - destruct (Z.compare_spec (2 * r) D); lia.
  - assert (Hodd : Z.odd D = true) by (rewrite <- Z.negb_even, Ev; reflexivity).
    apply Z.odd_spec in Hodd as [h Hh].
    destruct (Z.compare_spec (2 * r + 1) D); lia.
Qed.

(** The quotient [(q * D + r) / D], located from its remainder. *)
Lemma located_quotient (v : Q) (q r D e : Z) :
  0 <= r < D ->
  (v * inject_Z D == inject_Z (q * D + r) * 2 ^ e)%Q ->
  located v q e (new_location D r).
Proof.
  intros Hr Hv. pose proof (new_location_spec D r Hr) as Hl.
  pose proof (pow2_pos e) as HP.
  assert (HD : (0 < inject_Z D)%Q) by (rewrite <- (Zlt_Qlt 0); lia).
  rewrite inject_Z_plus, inject_Z_mult in Hv.
  unfold located, F2Q.
  set (P := (2 ^ e)%Q) in *. clearbody P.
  set (d := inject_Z D) in *. set (x := inject_Z q) in *. set (y := inject_Z r) in *.
  assert (Hy : (0 <= y)%Q) by (unfold y; rewrite <- (Zle_Qle 0); lia).
  (* compare after multiplying by [D] *)
  assert (Hmul : forall a b : Q, (a * d < b * d -> a < b)%Q).
  { intros a b H. apply Qmult_lt_r in H; assumption. }
  assert (Hmul_eq : forall a b : Q, (a * d == b * d -> a == b)%Q).
  { intros a b H. apply Qmult_inj_r in H; [assumption|]. intros E. rewrite E in HD.
    discriminate. }
  revert Hl. destruct (new_location D r) as [|[]]; intros Hl.
  - subst r. apply Hmul_eq. rewrite Hv. unfold y. change (inject_Z 0) with 0%Q. ring.
  - assert (Hy2 : (2 * y == d)%Q).
    { unfold y, d. change 2%Q with (inject_Z 2). rewrite <- inject_Z_mult.
      rewrite Hl. reflexivity. }
    apply Hmul_eq. rewrite Hv. rewrite <- Hy2. ring.
  - assert (Hy2 : (2 * y < d)%Q).
    { unfold y, d. change 2%Q with (inject_Z 2). rewrite <- inject_Z_mult, <- Zlt_Qlt. lia. }
    assert (Hy0 : (0 < y)%Q) by (unfold y; rewrite <- (Zlt_Qlt 0); lia).
    split; apply Hmul; rewrite Hv; clearbody d x y; nra.
  - assert (Hy2 : (d < 2 * y)%Q).
    { unfold y, d. change 2%Q with (inject_Z 2). rewrite <- inject_Z_mult, <- Zlt_Qlt. lia. }
    assert (Hy1 : (y < d)%Q) by (unfold y, d; rewrite <- Zlt_Qlt; lia).
    split; apply Hmul; rewrite Hv; clearbody d x y; nra.
Qed.

Lemma Zdigits2_range (m lo hi : Z) :
  0 <= lo -> 2 ^ lo <= m < 2 ^ hi -> lo + 1 <= Zdigits2 m <= hi.
Proof.
  intros Hlo [H1 H2].
  assert (0 < 2 ^ lo) by (apply Z.pow_pos_nonneg; lia).
  destruct m as [|p|p]; try lia.
  pose proof (Zdigits2_bounds p) as [B1 B2].
  assert (0 < Zdigits2 (Zpos p)) by (cbn; lia).
  split.
  - destruct (Z.leb_spec (lo + 1) (Zdigits2 (Zpos p))); [assumption|].
    assert (2 ^ Zdigits2 (Zpos p) <= 2 ^ lo) by (apply Z.pow_le_mono_r; lia). lia.
  - destruct (Z.leb_spec (Zdigits2 (Zpos p)) hi); [assumption|].
    assert (2 ^ hi <= 2 ^ (Zdigits2 (Zpos p) - 1)) by (apply Z.pow_le_mono_r; lia). lia.
Qed.

Lemma pow2_nonzero (e : Z) : ~ (2 ^ e == 0)%Q.
Proof. intros E. pose proof (pow2_pos e) as H. rewrite E in H. discriminate. Qed.

(** The quotient of two normal numbers: within a relative error of 2^-53 of
    the exact quotient [v]. *)
Lemma SFdiv_spec (m1 m2 : positive) (e1 e2 : Z) (v : Q) :
  2 ^ 52 <= Zpos m1 < 2 ^ 53 -> 2 ^ 52 <= Zpos m2 < 2 ^ 53 ->
  -1021 <= e1 - e2 <= 1020 ->
  (v * F2Q (Zpos m2) e2 == F2Q (Zpos m1) e1)%Q ->
  exists m e,
    SFdiv prec emax (S754_finite false m1 e1) (S754_finite false m2 e2)
      = S754_finite false m e /\
    2 ^ 52 <= Zpos m < 2 ^ 53 /\
    e1 - e2 - 53 <= e <= e1 - e2 - 51 /\
    (- (eps * v) <= F2Q (Zpos m) e - v <= eps * v)%Q.
Proof.
  intros H1 H2 He Hv.
  cbn [SFdiv xorb]. unfold SFdiv_core_binary.
  rewrite (Zdigits2_unique (Zpos m1) 53 H1), (Zdigits2_unique (Zpos m2) 53 H2) by lia.
  replace (53 + e1 - (53 + e2)) with (e1 - e2) by lia.
  rewrite fexp_normal by lia.
  rewrite Z.min_l by lia.
  replace (e1 - e2 - (e1 - e2 - 53)) with 53 by lia.
  cbv iota. rewrite Z.shiftl_mul_pow2 by lia.
  pose proof (Z_div_mod (Zpos m1 * 2 ^ 53) (Zpos m2) eq_refl) as Hdiv.
  destruct (Z.div_eucl (Zpos m1 * 2 ^ 53) (Zpos m2)) as [q r].
  destruct Hdiv as [Eq Hr].
  assert (Hq : 2 ^ 52 <= q < 2 ^ 54).
  { change (2 ^ 52) with 4503599627370496 in *. change (2 ^ 53) with 9007199254740992 in *.
    change (2 ^ 54) with 18014398509481984. nia. }
  pose proof (Zdigits2_range q 52 54 ltac:(lia) Hq) as Hd.
  assert (Hloc : located v q (e1 - e2 - 53) (new_location (Zpos m2) r)).
  { apply located_quotient; [exact Hr|].
    replace (q * Zpos m2 + r) with (Zpos m1 * 2 ^ 53) by lia.
    unfold F2Q in Hv. rewrite inject_Z_mult, inject_Z_pow2 by lia.
    apply (Qmult_inj_r _ _ (2 ^ e2)%Q); [apply pow2_nonzero|].
    rewrite <- Qmult_assoc, Hv.
    replace e1 with (53 + (e1 - e2 - 53) + e2) at 1 by lia.
    rewrite !pow2_add. ring. }
  destruct (binary_round_aux_relative v q (e1 - e2 - 53) _ (proj1 Hq) Hloc)
    as (m & e & E & Hm & Hee & Herr); [lia|lia|].
  exists m, e. split; [exact E|]. split; [exact Hm|]. split; [lia|exact Herr].
Qed.

(** The product of two normal numbers. *)
Lemma SFmul_spec (m1 m2 : positive) (e1 e2 : Z) :
  2 ^ 52 <= Zpos m1 < 2 ^ 53 -> 2 ^ 52 <= Zpos m2 < 2 ^ 53 ->
  -1074 <= e1 + e2 <= 900 ->
  exists m e,
    SFmul prec emax (S754_finite false m1 e1) (S754_finite false m2 e2)
      = S754_finite false m e /\
    2 ^ 52 <= Zpos m < 2 ^ 53 /\
    (- (eps * (F2Q (Zpos m1) e1 * F2Q (Zpos m2) e2))
     <= F2Q (Zpos m) e - F2Q (Zpos m1) e1 * F2Q (Zpos m2) e2
     <= eps * (F2Q (Zpos m1) e1 * F2Q (Zpos m2) e2))%Q.
Proof.
  intros H1 H2 He. cbn [SFmul xorb].
  assert (Hp : 2 ^ 104 <= Zpos (m1 * m2) < 2 ^ 106).
  { rewrite Pos2Z.inj_mul.
    change (2 ^ 52) with 4503599627370496 in *. change (2 ^ 53) with 9007199254740992 in *.
    change (2 ^ 104) with (4503599627370496 * 4503599627370496).
    change (2 ^ 106) with (9007199254740992 * 9007199254740992). nia. }
  pose proof (Zdigits2_range _ 104 106 ltac:(lia) Hp) as Hd.
  assert (Hloc : located (F2Q (Zpos m1) e1 * F2Q (Zpos m2) e2)
                   (Zpos (m1 * m2)) (e1 + e2) loc_Exact).
  { unfold located, F2Q. rewrite Pos2Z.inj_mul, inject_Z_mult, pow2_add. ring. }
  assert (H52 : 2 ^ 52 <= Zpos (m1 * m2)).
  { change (2 ^ 52) with 4503599627370496.
    change (2 ^ 104) with 20282409603651670423947251286016 in Hp. lia. }
  destruct (binary_round_aux_relative _ _ _ _ H52 Hloc)
    as (m & e & E & Hm & Hee & Herr); [lia|lia|].
  exists m, e. split; [exact E|]. split; [exact Hm|exact Herr].
Qed.

(** Half-to-even rounding of [m / 2^k] is at most one half away. *)
Lemma round_half_even_shift_spec (m k : Z) :
  0 <= m -> 0 < k ->
  - 2 ^ k <= 2 * (round_half_even_shift m k * 2 ^ k - m) <= 2 ^ k.
Proof.
  intros Hm Hk. unfold round_half_even_shift.
  assert (Hd : 0 < 2 ^ k) by (apply Z.pow_pos_nonneg; lia).
  pose proof (Z.div_mod m (2 ^ k) ltac:(lia)) as E.
  pose proof (Z.mod_pos_bound m (2 ^ k) Hd) as Hr.
  set (d := 2 ^ k) in *. clearbody d.
  set (q := m / d) in *. set (r := m mod d) in *. clearbody q r.
  destruct (Z.compare_spec (2 * r) d); [destruct (Z.even q)| |]; nia.
Qed.

(** [round] of a positive finite float: an int at most one half away. *)
Lemma round_spec (m : positive) (e : Z) :
  exists r, round (S754_finite false m e) = Return r /\
            (- (1 # 2) <= inject_Z r - F2Q (Zpos m) e <= 1 # 2)%Q.
Proof.
  cbn [round]. eexists. split; [reflexivity|]. unfold F2Q.
  destruct e as [|k|k].
  - change (2 ^ 0)%Q with 1%Q. rewrite Z.pow_0_r, Z.mul_1_r.
    set (x := inject_Z (Zpos m)). clearbody x. lra.
  - rewrite inject_Z_mult, inject_Z_pow2 by lia.
    set (x := (inject_Z (Zpos m) * 2 ^ Zpos k)%Q). clearbody x. lra.
  - pose proof (round_half_even_shift_spec (Zpos m) (Zpos k) ltac:(lia) ltac:(lia))
      as Hspec.
    set (r := round_half_even_shift (Zpos m) (Zpos k)) in *. clearbody r.
    assert (Hlo : 2 * Zpos m <= 2 * (r * 2 ^ Zpos k) + 2 ^ Zpos k) by lia.
    assert (Hhi : 2 * (r * 2 ^ Zpos k) <= 2 * Zpos m + 2 ^ Zpos k) by lia.
    clear Hspec. rewrite Zle_Qle in Hlo, Hhi.
    rewrite !inject_Z_plus, !inject_Z_mult, !inject_Z_pow2 in Hlo by lia.
    rewrite !inject_Z_plus, !inject_Z_mult, !inject_Z_pow2 in Hhi by lia.
    change (inject_Z 2) with 2%Q in *.
    pose proof (pow2_pos (Zneg k)) as HP.
    assert (E : (2 ^ Zpos k * 2 ^ Zneg k == 1)%Q).
    { rewrite <- pow2_add. replace (Zpos k + Zneg k) with 0 by lia. reflexivity. }
    set (P := (2 ^ Zneg k)%Q) in *. set (D := (2 ^ Zpos k)%Q) in *.
    clearbody P D. set (x := inject_Z (Zpos m)) in *. set (y := inject_Z r) in *.
    clearbody x y.
    assert (Hlo' : (2 * x * P <= (2 * (y * D) + D) * P)%Q).
    { apply Qmult_le_compat_r; [exact Hlo|lra]. }
    assert (Hhi' : (2 * (y * D) * P <= (2 * x + D) * P)%Q).
    { apply Qmult_le_compat_r; [exact Hhi|lra]. }
    assert (E1 : ((2 * (y * D) + D) * P == 2 * y + 1)%Q).
    { transitivity (2 * y * (D * P) + D * P)%Q; [ring|rewrite E; ring]. }
    assert (E2 : (2 * (y * D) * P == 2 * y)%Q).
    { transitivity (2 * y * (D * P))%Q; [ring|rewrite E; ring]. }
    assert (E3 : ((2 * x + D) * P == 2 * (x * P) + 1)%Q).
    { transitivity (2 * (x * P) + D * P)%Q; [ring|rewrite E; ring]. }
    assert (E4 : (2 * x * P == 2 * (x * P))%Q) by ring.
    rewrite E1, E4 in Hlo'. rewrite E2, E3 in Hhi'.
    set (z := (x * P)%Q) in *. clearbody z. split; lra.
Qed.

End Rounding.

(* ===================================================================== *)
(** * The percentage computed from the totals *)
(* ===================================================================== *)

Module Percent.

Import SEOAnalyzer Spec Binary64 Rounding.

Lemma float_of_int_100 :
  float_of_int 100 = S754_finite false 7036874417766400 (-46).
Proof. vm_compute. reflexivity. Qed.

Lemma F2Q_100 : (F2Q 7036874417766400 (-46) == 100)%Q.
Proof. vm_compute. reflexivity. Qed.

(** Nothing out of nothing. *)
Lemma percent_of_zero (M : Z) :
  0 < M < 2 ^ 53 -> percent_of_totals (0, M) = Return 0.
Proof.
  intros HM. unfold percent_of_totals, int_truediv.
  destruct (Z.eqb_spec M 0) as [|_]; [lia|].
  destruct (float_of_int_pos M HM) as (m & e & E & _).
  cbn [mbind result_bind]. unfold float_mul_int. rewrite E, float_of_int_100.
  reflexivity.
Qed.

(** The three roundings, put together: the double [(S / M) * 100] is within
    [100 * S / M * (2 * eps + eps^2)] of [100 * S / M], and [round] adds at
    most one half. *)
Lemma percent_error (S M : Z) :
  0 < S <= M -> M < 2 ^ 53 ->
  exists r y,
    percent_of_totals (S, M) = Return r /\
    (- (1 # 2) <= inject_Z r - y <= 1 # 2)%Q /\
    (- ((200 + 100 * eps) * eps * inject_Z S) <= y * inject_Z M - 100 * inject_Z S
     <= (200 + 100 * eps) * eps * inject_Z S)%Q.
Proof.
  intros HS HM. unfold percent_of_totals, int_truediv.
  destruct (Z.eqb_spec M 0) as [|_]; [lia|].
  cbn [mbind result_bind]. unfold float_mul_int.
  destruct (float_of_int_pos S ltac:(lia)) as (mS & eS & ES & HmS & HeS & VS).
  destruct (float_of_int_pos M ltac:(lia)) as (mM & eM & EM & HmM & HeM & VM).
  rewrite ES, EM, float_of_int_100.
  assert (Hm : (0 < inject_Z M)%Q) by (rewrite <- (Zlt_Qlt 0); lia).
  assert (Hs : (0 < inject_Z S)%Q) by (rewrite <- (Zlt_Qlt 0); lia).
  set (v := (inject_Z S / inject_Z M)%Q).
  assert (Hv : (v * inject_Z M == inject_Z S)%Q).
  { unfold v. field. intros E. rewrite E in Hm. discriminate. }
  destruct (SFdiv_spec mS mM eS eM v HmS HmM ltac:(lia)) as (mq & eq & Eq & Hmq & Heq & H1).
  { rewrite VS, VM. exact Hv. }
  rewrite Eq.
  destruct (SFmul_spec mq 7036874417766400 eq (-46) Hmq) as (mp & ep & Ep & Hmp & H2).
  { vm_compute. intuition discriminate. }
  { lia. }
  rewrite Ep. rewrite F2Q_100 in H2.
  destruct (round_spec mp ep) as (r & Er & H3).
  exists r, (F2Q (Zpos mp) ep). split; [exact Er|]. split; [exact H3|].
  (* scale the two error bounds by [M] *)
  set (X := F2Q (Zpos mq) eq) in *. set (Y := F2Q (Zpos mp) ep) in *.
  set (m := inject_Z M) in *. set (s := inject_Z S) in *.
  clearbody X Y m s v. clear - H1 H2 Hv Hm Hs.
  assert (Heps : (0 < eps)%Q) by reflexivity.
  destruct H1 as [H1a H1b]. destruct H2 as [H2a H2b].
  assert (A1 : (- (eps * v) * m <= (X - v) * m)%Q)
    by (apply Qmult_le_compat_r; lra).
  assert (A2 : ((X - v) * m <= eps * v * m)%Q)
    by (apply Qmult_le_compat_r; lra).
  assert (B1 : (- (eps * (X * 100)) * m <= (Y - X * 100) * m)%Q)
    by (apply Qmult_le_compat_r; lra).
  assert (B2 : ((Y - X * 100) * m <= eps * (X * 100) * m)%Q)
    by (apply Qmult_le_compat_r; lra).
  assert (E1 : (- (eps * v) * m == - (eps * s))%Q) by (rewrite <- Hv; ring).
  assert (E2 : ((X - v) * m == X * m - s)%Q) by (rewrite <- Hv; ring).
  assert (E3 : (eps * v * m == eps * s)%Q) by (rewrite <- Hv; ring).
  assert (E4 : (- (eps * (X * 100)) * m == - (100 * eps * (X * m)))%Q) by ring.
  assert (E5 : ((Y - X * 100) * m == Y * m - 100 * (X * m))%Q) by ring.
  assert (E6 : (eps * (X * 100) * m == 100 * eps * (X * m))%Q) by ring.
  rewrite E1, E2 in A1. rewrite E2, E3 in A2.
  rewrite E4, E5 in B1. rewrite E5, E6 in B2.
  clear E1 E2 E3 E4 E5 E6 H1a H1b H2a H2b Hv.
  set (A := (X * m)%Q) in *. set (B := (Y * m)%Q) in *. clearbody A B.
  unfold eps in *. split; lra.
Qed.

(** So [round((S / M) * 100)] is a nearest int of [100 * S / M] when the
    total is below 2^44. *)
Lemma percent_of_totals_nearest (S M : Z) :
  0 <= S <= M -> 0 < M <= 2 ^ 44 ->
  exists r, percent_of_totals (S, M) = Return r /\ 2 * Z.abs (r * M - 100 * S) <= M.
Proof.
  intros HS HM. change (2 ^ 44) with 17592186044416 in HM.
  destruct (Z.eq_dec S 0) as [->|HS0].
  { exists 0. split; [apply percent_of_zero; change (2 ^ 53) with 9007199254740992; lia|lia]. }
  destruct (percent_error S M ltac:(lia)) as (r & y & E & H3 & H12).
  { change (2 ^ 53) with 9007199254740992; lia. }
  exists r. split; [exact E|].
  assert (Hm : (0 < inject_Z M)%Q) by (rewrite <- (Zlt_Qlt 0); lia).
  assert (Hs : (inject_Z S <= inject_Z M)%Q) by (rewrite <- Zle_Qle; lia).
  assert (Hs0 : (0 < inject_Z S)%Q) by (rewrite <- (Zlt_Qlt 0); lia).
  assert (HK : (inject_Z M <= 17592186044416)%Q).
  { change 17592186044416%Q with (inject_Z 17592186044416). rewrite <- Zle_Qle. lia. }
  destruct H3 as [H3a H3b]. destruct H12 as [H12a H12b].
  assert (C1 : (- (1 # 2) * inject_Z M <= (inject_Z r - y) * inject_Z M)%Q)
    by (apply Qmult_le_compat_r; lra).
  assert (C2 : ((inject_Z r - y) * inject_Z M <= (1 # 2) * inject_Z M)%Q)
    by (apply Qmult_le_compat_r; lra).
  assert (E5 : ((inject_Z r - y) * inject_Z M
                == inject_Z r * inject_Z M - y * inject_Z M)%Q) by ring.
  rewrite E5 in C1, C2. clear E5.
  assert (Hlt : (2 * (inject_Z r * inject_Z M) < inject_Z M + 1 + 200 * inject_Z S)%Q /\
                (200 * inject_Z S < 2 * (inject_Z r * inject_Z M) + inject_Z M + 1)%Q).
  { set (m := inject_Z M) in *. set (s := inject_Z S) in *.
    set (C := (inject_Z r * inject_Z M)%Q) in *. set (B := (y * m)%Q) in *.
    clearbody m s C B. unfold eps in *. split; lra. }
  destruct Hlt as [Hlt1 Hlt2].
  change 2%Q with (inject_Z 2) in Hlt1, Hlt2.
  change 1%Q with (inject_Z 1) in Hlt1, Hlt2.
  change 200%Q with (inject_Z 200) in Hlt1, Hlt2.
  rewrite <- !inject_Z_mult, <- !inject_Z_plus, <- Zlt_Qlt in Hlt1, Hlt2.
  lia.
Qed.

End Percent.
(* ===================================================================== *)
(** * The aggregation: [_calculate_overall_score] *)
(* ===================================================================== *)

Module OverallScore.

Import SEOAnalyzer Spec.

Lemma bind_Return {A B} (f : A -> result B) (a : A) : (Return a ≫= f) = f a.
Proof. reflexivity. Qed.



(** The loops only look at the pairs. *)
Lemma sum_checks_pairs (checks : dict (dict value)) (rest : list (value * value)) acc :
  (acc' ← sum_checks checks acc; sum_pairs rest acc')
  = sum_pairs (omap score_pair (map snd checks) ++ rest) acc.
Proof.
  revert acc. induction checks as [|[name c] checks IH]; intros [t mt]; [reflexivity|].
  cbn [sum_checks map snd].
  change (omap score_pair (c :: map snd checks))
    with (match score_pair c with
          | Some p => p :: omap score_pair (map snd checks)
          | None => omap score_pair (map snd checks)
          end).
  unfold add_check, score_pair.
  destruct (dict_get "score" c) as [s|], (dict_get "max_score" c) as [m|];
    cbn [app sum_pairs fst snd]; rewrite ?bind_Return; try apply IH.
  destruct (iadd t s) as [t'|e]; [|reflexivity].
  destruct (iadd mt m) as [mt'|e]; [|reflexivity].
  apply IH.
Qed.

Lemma sum_details_pairs (details : dict (dict (dict value))) acc :
  sum_details details acc = sum_pairs (score_pairs details) acc.
Proof.
  unfold score_pairs, checks_of. revert acc.
  induction details as [|[cat checks] details IH]; intros acc; [reflexivity|].
  cbn [sum_details flat_map snd]. rewrite omap_app.
  rewrite <- sum_checks_pairs.
  destruct (sum_checks checks acc) as [acc'|e]; [|reflexivity].
  rewrite !bind_Return. apply IH.
Qed.

Lemma overall_score_pairs (details : dict (dict (dict value))) :
  _calculate_overall_score details
  = (totals ← sum_pairs (score_pairs details) (NInt 0, NInt 0); percent_of totals).
Proof.
  unfold _calculate_overall_score. rewrite sum_details_pairs.
  destruct (sum_pairs _ _) as [[t mt]|e]; reflexivity.
Qed.

(** On two int totals the last step is the one the error analysis is
    about. *)
Lemma percent_of_ints (t mt : Z) :
  percent_of (NInt t, NInt mt) = percent_of_totals (t, mt).
Proof. reflexivity. Qed.

(** On int pairs the loops add up both components. *)
Lemma sum_pairs_ints (l : list (value * value)) (t mt : Z) :
  forallb int_pair l = true ->
  sum_pairs l (NInt t, NInt mt)
  = Return (NInt (t + foldr Z.add 0 (map (fun p => int_of (fst p)) l)),
            NInt (mt + foldr Z.add 0 (map (fun p => int_of (snd p)) l))).
Proof.
  revert t mt. induction l as [|[s m] l IH]; intros t mt H.
  - cbn. do 2 f_equal; f_equal; lia.
  - cbn [forallb] in H. apply andb_true_iff in H as [Hp Hl].
    unfold int_pair in Hp. cbn [fst snd] in Hp.
    destruct s as [s| | |], m as [m| | |]; try discriminate.
    cbn [sum_pairs iadd fst snd]. rewrite !bind_Return, IH by exact Hl.
    cbn. do 2 f_equal; f_equal; lia.
Qed.








(** Well-scored checks give int pairs, each score between 0 and its
    maximum. *)
Lemma well_scored_pairs (cs : list (dict value)) :
  Forall well_scored cs ->
  forallb int_pair (omap score_pair cs) = true /\
  0 <= foldr Z.add 0 (map (fun p => int_of (fst p)) (omap score_pair cs))
    <= foldr Z.add 0 (map (fun p => int_of (snd p)) (omap score_pair cs)).
Proof.
  induction 1 as [|c cs (s & m & Hs & Hm & Hsm) _ [IH1 IH2]];
    [cbn; split; [reflexivity|lia]|].
  change (omap score_pair (c :: cs))
    with (match score_pair c with
          | Some p => p :: omap score_pair cs
          | None => omap score_pair cs
          end).
  assert (Ec : score_pair c = Some (Int s, Int m))
    by (unfold score_pair; rewrite Hs, Hm; reflexivity).
  rewrite Ec.
  cbn [forallb map foldr fst snd int_of int_pair is_int andb].
  split; [exact IH1|lia].
Qed.

Lemma nearest_is_exact_percent (r S M : Z) :
  0 < M -> 2 * Z.abs (r * M - 100 * S) <= M -> 2 * ((100 * S) mod M) <> M ->
  r = exact_percent S M.
Proof.
  intros HM Hr Htie. unfold exact_percent.
  pose proof (Z.div_mod (100 * S) M ltac:(lia)) as E.
  pose proof (Z.mod_pos_bound (100 * S) M HM) as Hb.
  set (q := 100 * S / M) in *. set (t := (100 * S) mod M) in *. clearbody q t.
  destruct (Z.compare_spec (2 * t) M); [contradiction| |]; nia.
Qed.

(** C1, amended. When every check carries an int score between 0 and its
    int max_score and the summed max_score is at most 2^44, the overall
    score is returned, lies between 0 and 100, and is a nearest integer of
    100 * (sum of scores) / (sum of max_scores): it is the exact percentage
    rounded half to even unless that percentage lies exactly halfway
    between two integers, where either neighbour can come out.  It is 0 when
    the summed max_score is 0. *)
Theorem overall_score_nearest (details : dict (dict (dict value))) :
  Forall well_scored (checks_of details) ->
  max_total_of details <= 2 ^ 44 ->
  exists r,
    _calculate_overall_score details = Return r /\
    0 <= r <= 100 /\
    2 * Z.abs (r * max_total_of details - 100 * total_of details)
      <= max_total_of details /\
    (2 * ((100 * total_of details) mod max_total_of details) <> max_total_of details ->
     r = exact_percent (total_of details) (max_total_of details)) /\
    (max_total_of details = 0 -> r = 0).
Proof.
  intros Hws Hmax. rewrite overall_score_pairs.
  destruct (well_scored_pairs _ Hws) as [Hint Hsum].
  fold (score_pairs details) in Hint, Hsum.
  rewrite (sum_pairs_ints _ 0 0 Hint), bind_Return, percent_of_ints. rewrite !Z.add_0_l.
  fold (total_of details) (max_total_of details) in *.
  set (S := total_of details) in *. set (M := max_total_of details) in *.
  clearbody S M.
  destruct (Z.eq_dec M 0) as [->|HM].
  - exists 0. cbn. repeat split; try lia. intros _. unfold exact_percent.
    rewrite Z.div_0_r, Z.mod_0_r. assert (S = 0) by lia. subst S. reflexivity.
  - destruct (Percent.percent_of_totals_nearest S M Hsum ltac:(lia)) as (r & E & Hr).
    exists r. split; [exact E|]. split; [nia|]. split; [exact Hr|].
    split; [|lia]. intros Htie. apply nearest_is_exact_percent; [lia|exact Hr|exact Htie].
Qed.

Lemma overall_score_nearest_witness :
  exists r,
    _calculate_overall_score Examples.details_23_of_40 = Return r /\
    0 <= r <= 100 /\
    2 * Z.abs (r * 40 - 100 * 23) <= 40.
Proof.
  destruct (overall_score_nearest Examples.details_23_of_40) as (r & E & Hr & Hn & _).
  - repeat constructor; eexists; eexists; (split; [reflexivity|split; [reflexivity|lia]]).
  - vm_compute. discriminate.
  - exists r. split; [exact E|]. split; [exact Hr|exact Hn].
Defined.

(** C1 as stated fails: with 23 points out of 40 the exact percentage is
    57.5, which rounds to 58, but the quotient 23/40 is rounded to a double
    before it is multiplied by 100, the product is 57.49999999999999, and
    the overall score is 57. *)
Lemma overall_score_23_of_40 :
  let details := Examples.details_23_of_40 in
  Forall well_scored (checks_of details) /\
  total_of details = 23 /\
  max_total_of details = 40 /\
  exact_percent 23 40 = 58 /\
  _calculate_overall_score details = Return 57 /\
  _calculate_overall_score details
    <> Return (exact_percent (total_of details) (max_total_of details)).
Proof.
  cbv zeta. split.
  - repeat constructor; eexists; eexists; (split; [reflexivity|split; [reflexivity|lia]]).
  - repeat (split; [reflexivity|]). vm_compute. discriminate.
Qed.

(** [round] breaks ties toward the even neighbour. *)
Example round_ties_to_even :
  map (fun p => ratio ← int_truediv (fst p) (snd p); round ratio)
      [(1, 2); (3, 2); (5, 2); (7, 2); (1, 4); (3, 4)]
  = map Return [0; 2; 2; 4; 0; 1].
Proof. reflexivity. Qed.

End OverallScore.

(* ===================================================================== *)
(** * The on-page checks *)
(* ===================================================================== *)

Module Checks.

Import SEOAnalyzer Spec.

(** Each check function fills one key per check; reading one back is a
    computation once the branch conditions are known. *)
Ltac by_cases f := unfold f; repeat case_match; reflexivity.

Lemma title_tag_outcome url soup response :
  outcome "title_tag" (_check_seo_factors url soup response)
  = match find "title" [] soup with
    | None => verdict "fail" 0 10
    | Some title =>
        if len (strip (get_text title)) =? 0 then verdict "fail" 0 10
        else if len (strip (get_text title)) >? 60 then verdict "warning" 7 10
        else verdict "pass" 10 10
    end.
Proof. by_cases _check_seo_factors. Qed.

Lemma h1_tag_outcome url soup response :
  outcome "h1_tag" (_check_seo_factors url soup response)
  = if Z.of_nat (length (find_all "h1" [] soup)) =? 0 then verdict "fail" 0 10
    else if Z.of_nat (length (find_all "h1" [] soup)) >? 1 then verdict "warning" 5 10
    else verdict "pass" 10 10.
Proof. by_cases _check_seo_factors. Qed.

Lemma image_alt_outcome soup :
  outcome "image_alt_attributes" (_check_content_factors soup)
  = let images := find_all "img" [] soup in
    if Z.of_nat (length images) =? 0 then verdict "info" 5 5
    else if Z.of_nat (length (List.filter without_alt images)) =? 0
         then verdict "pass" 10 10
         else verdict "warning" 5 10.
Proof. by_cases _check_content_factors. Qed.

Lemma len_0 (s : string) : len s = 0 <-> s = "".
Proof.
  unfold len. destruct s; cbn [String.length]; split; intros H;
    try reflexivity; try discriminate; lia.
Qed.

(** C3. The title_tag check fails with 0/10 when the document has no title
    element or the trimmed title text is empty, warns with 7/10 when the
    trimmed text is longer than 60 characters, and passes with 10/10
    otherwise. *)
Theorem title_tag_check url soup response :
  let result := outcome "title_tag" (_check_seo_factors url soup response) in
  (find "title" [] soup = None -> result = verdict "fail" 0 10) /\
  (forall title, find "title" [] soup = Some title ->
     strip (get_text title) = "" -> result = verdict "fail" 0 10) /\
  (forall title, find "title" [] soup = Some title ->
     60 < len (strip (get_text title)) -> result = verdict "warning" 7 10) /\
  (forall title, find "title" [] soup = Some title ->
     strip (get_text title) <> "" -> len (strip (get_text title)) <= 60 ->
     result = verdict "pass" 10 10).
Proof.
  cbv zeta. rewrite title_tag_outcome. repeat split.
  - intros ->. reflexivity.
  - intros title -> ->. reflexivity.
  - intros title -> H.
    destruct (Z.eqb_spec (len (strip (get_text title))) 0); [lia|].
    destruct (Z.gtb_spec (len (strip (get_text title))) 60); [reflexivity|lia].
  - intros title -> Hne Hle.
    destruct (Z.eqb_spec (len (strip (get_text title))) 0) as [E|_].
    { apply len_0 in E. contradiction. }
    destruct (Z.gtb_spec (len (strip (get_text title))) 60); [lia|reflexivity].
Qed.

(** C6. The h1_tag check fails with 0/10 when the document has no h1
    element, warns with 5/10 when it has more than one, and passes with
    10/10 when it has exactly one. *)
Theorem h1_tag_check url soup response :
  let result := outcome "h1_tag" (_check_seo_factors url soup response) in
  let h1_tags := find_all "h1" [] soup in
  (length h1_tags = 0%nat -> result = verdict "fail" 0 10) /\
  (length h1_tags > 1 -> result = verdict "warning" 5 10)%nat /\
  (length h1_tags = 1%nat -> result = verdict "pass" 10 10).
Proof.
  cbv zeta. rewrite h1_tag_outcome. repeat split; intros H.
  - rewrite H. reflexivity.
  - destruct (Z.eqb_spec (Z.of_nat (length (find_all "h1" [] soup))) 0); [lia|].
    destruct (Z.gtb_spec (Z.of_nat (length (find_all "h1" [] soup))) 1);
      [reflexivity|lia].
  - rewrite H. reflexivity.
Qed.

Lemma without_alt_spec (img : PageElement) :
  without_alt img = true <-> get "alt" img = None \/ get "alt" img = Some "".
Proof.
  unfold without_alt. destruct (get "alt" img) as [v|]; [|tauto].
  rewrite Z.eqb_eq, len_0. split; [intros ->; auto|].
  intros [H|[= ->]]; [discriminate|reflexivity].
Qed.

Lemma without_alt_false (img : PageElement) :
  without_alt img = false <-> has_alt img.
Proof.
  unfold without_alt, has_alt. destruct (get "alt" img) as [v|].
  - rewrite Z.eqb_neq, len_0. split; [eauto|]. intros (v' & [= <-] & H). exact H.
  - split; [discriminate|]. intros (v' & H & _). discriminate.
Qed.

Lemma filter_without_alt_nil (images : list PageElement) :
  List.filter without_alt images = [] <-> Forall has_alt images.
Proof.
  induction images as [|img images IH]; cbn [List.filter].
  - split; auto.
  - destruct (without_alt img) eqn:E.
    + split; [discriminate|]. intros H. inversion H as [|? ? Ha _]; subst.
      apply without_alt_false in Ha. congruence.
    + rewrite IH. split; [intros H; constructor; [apply without_alt_false|]; auto|].
      intros H. inversion H; auto.
Qed.

Lemma image_alt_message soup :
  find_all "img" [] soup <> [] ->
  List.filter without_alt (find_all "img" [] soup) <> [] ->
  message "image_alt_attributes" (_check_content_factors soup)
  = Some (Str (str_of_int (Z.of_nat (length (List.filter without_alt (find_all "img" [] soup))))
               +:+ " out of " +:+
               str_of_int (Z.of_nat (length (find_all "img" [] soup)))
               +:+ " images missing alt attributes")).
Proof.
  intros H1 H2. unfold _check_content_factors.
  destruct (find_all "img" [] soup) as [|i1 l1]; [contradiction|].
  destruct (List.filter without_alt (i1 :: l1)) as [|i2 l2]; [contradiction|].
  change (Z.of_nat (length (i1 :: l1)) =? 0) with false.
  change (Z.of_nat (length (i2 :: l2)) =? 0) with false.
  cbv iota zeta. repeat case_match; reflexivity.
Qed.

(** C5. The image_alt_attributes check is info with 5 out of 5 when the
    document has no img element, whatever else it holds; passes with 10/10
    when every img element has a non-empty alt attribute; and otherwise
    warns with 5 out of 10, its message giving the number of images whose
    alt is missing or empty. *)
Theorem image_alt_check soup :
  let images := find_all "img" [] soup in
  let checks := _check_content_factors soup in
  let missing := List.filter without_alt images in
  (forall img, In img missing <->
     In img images /\ (get "alt" img = None \/ get "alt" img = Some "")) /\
  (images = [] -> outcome "image_alt_attributes" checks = verdict "info" 5 5) /\
  (images <> [] -> Forall has_alt images ->
     outcome "image_alt_attributes" checks = verdict "pass" 10 10) /\
  (images <> [] -> ~ Forall has_alt images ->
     outcome "image_alt_attributes" checks = verdict "warning" 5 10 /\
     message "image_alt_attributes" checks
     = Some (Str (str_of_int (Z.of_nat (length missing)) +:+ " out of " +:+
                  str_of_int (Z.of_nat (length images)) +:+
                  " images missing alt attributes"))).
Proof.
  cbv zeta. split; [|split; [|split]].
  - intros img. rewrite filter_In, without_alt_spec. reflexivity.
  - intros H. rewrite image_alt_outcome. cbv zeta. rewrite H. reflexivity.
  - intros Hne Hall. rewrite image_alt_outcome. cbv zeta.
    apply filter_without_alt_nil in Hall. rewrite Hall.
    destruct (find_all "img" [] soup); [contradiction|reflexivity].
  - intros Hne Hsome. rewrite <- filter_without_alt_nil in Hsome. split.
    + rewrite image_alt_outcome. cbv zeta.
      destruct (find_all "img" [] soup); [contradiction|].
      destruct (List.filter without_alt _); [contradiction|reflexivity].
    + apply image_alt_message; assumption.
Qed.

(** A title of 60 characters passes and one of 61 warns. *)
Example title_of_60_passes :
  outcome "title_tag"
    (_check_seo_factors "https://example.com/"
       (Examples.page [Examples.title Examples.title60] [])
       (Examples.ok_response "https://example.com/"))
  = verdict "pass" 10 10.
Proof. reflexivity. Qed.

Example title_of_61_warns :
  outcome "title_tag"
    (_check_seo_factors "https://example.com/"
       (Examples.page [Examples.title Examples.title61] [])
       (Examples.ok_response "https://example.com/"))
  = verdict "warning" 7 10.
Proof. reflexivity. Qed.

Lemma title_tag_check_witness :
  let r := Examples.ok_response "https://example.com/" in
  let result head := outcome "title_tag" (_check_seo_factors "https://example.com/"
                                              (Examples.page head []) r) in
  result [] = verdict "fail" 0 10 /\
  result [Examples.title "   "] = verdict "fail" 0 10 /\
  result [Examples.title Examples.title61] = verdict "warning" 7 10 /\
  result [Examples.title Examples.title60] = verdict "pass" 10 10.
Proof.
  cbv zeta. split; [|split; [|split]].
  - apply (title_tag_check "https://example.com/" (Examples.page [] [])). reflexivity.
  - apply (title_tag_check "https://example.com/"
             (Examples.page [Examples.title "   "] [])) with (title := Examples.title "   ");
      reflexivity.
  - apply (title_tag_check "https://example.com/"
             (Examples.page [Examples.title Examples.title61] []))
      with (title := Examples.title Examples.title61); reflexivity.
  - apply (title_tag_check "https://example.com/"
             (Examples.page [Examples.title Examples.title60] []))
      with (title := Examples.title Examples.title60);
      [reflexivity|discriminate|vm_compute; discriminate].
Defined.

Lemma h1_tag_check_witness :
  let r := Examples.ok_response "https://example.com/" in
  let result body := outcome "h1_tag" (_check_seo_factors "https://example.com/"
                                         (Examples.page [] body) r) in
  result [] = verdict "fail" 0 10 /\
  result [Examples.h1 "One"; Examples.h1 "Two"] = verdict "warning" 5 10 /\
  result [Examples.h1 "One"] = verdict "pass" 10 10.
Proof.
  cbv zeta. split; [|split].
  - apply (h1_tag_check "https://example.com/" (Examples.page [] [])). reflexivity.
  - apply (h1_tag_check "https://example.com/"
             (Examples.page [] [Examples.h1 "One"; Examples.h1 "Two"])).
    vm_compute. lia.
  - apply (h1_tag_check "https://example.com/" (Examples.page [] [Examples.h1 "One"])).
    reflexivity.
Defined.

Lemma image_alt_check_witness :
  let checks body := _check_content_factors (Examples.page [] body) in
  outcome "image_alt_attributes" (checks [Examples.h1 "No picture here"])
    = verdict "info" 5 5 /\
  outcome "image_alt_attributes"
    (checks [Examples.img [("src", "a.png"); ("alt", "A")]]) = verdict "pass" 10 10 /\
  outcome "image_alt_attributes"
    (checks [Examples.img [("src", "a.png"); ("alt", "A")];
             Examples.img [("src", "b.png"); ("alt", "")];
             Examples.img [("src", "c.png")]]) = verdict "warning" 5 10 /\
  message "image_alt_attributes"
    (checks [Examples.img [("src", "a.png"); ("alt", "A")];
             Examples.img [("src", "b.png"); ("alt", "")];
             Examples.img [("src", "c.png")]])
    = Some (Str "2 out of 3 images missing alt attributes").
Proof.
  cbv zeta. split; [|split].
  - apply (image_alt_check (Examples.page [] [Examples.h1 "No picture here"])).
    reflexivity.
  - apply (image_alt_check
             (Examples.page [] [Examples.img [("src", "a.png"); ("alt", "A")]])).
    + discriminate.
    + repeat constructor. exists "A". split; [reflexivity|discriminate].
  - apply (image_alt_check
             (Examples.page [] [Examples.img [("src", "a.png"); ("alt", "A")];
                                Examples.img [("src", "b.png"); ("alt", "")];
                                Examples.img [("src", "c.png")]])).
    + discriminate.
    + intros H. apply Forall_cons_1 in H as [_ H]. apply Forall_cons_1 in H as [H _].
      destruct H as (v & [= <-] & Hv). apply Hv. reflexivity.
Defined.

End Checks.

(* ===================================================================== *)
(** * The technical checks and the probes *)
(* ===================================================================== *)

Module Technical.

Import SEOAnalyzer Spec.

Section Probes.

Variable w : World.

(** The bare [except] of the two probe functions leaves no way to raise. *)
Lemma try_except_all_returns {A} (body : result A) (a : A) :
  exists b, try_except_all body (Return a) = Return b.
Proof. destruct body; cbn; eauto. Qed.

Lemma check_robots_txt_returns url :
  exists b, _check_robots_txt w url = Return b.
Proof. apply try_except_all_returns. Qed.

Lemma check_sitemap_returns url :
  exists b, _check_sitemap w url = Return b.
Proof. apply try_except_all_returns. Qed.

(** When the sitemap probes say yes. *)
Lemma check_sitemap_true url :
  _check_sitemap w url = Return true <->
  exists p, urlparse w url = Return p /\
    (probe_200 w (site_url p "/sitemap.xml") \/
     (probe_not_200 w (site_url p "/sitemap.xml") /\
      probe_200 w (site_url p "/sitemap_index.xml"))).
Proof.
  unfold _check_sitemap, probe_200, probe_not_200, site_url.
  destruct (urlparse w url) as [p|e]; cbn [mbind result_bind try_except_all sitemap_loop].
  2: { split; [discriminate|]. intros (p & Hp & _). discriminate. }
  destruct (session_get w (scheme p +:+ "://" +:+ netloc p +:+ "/sitemap.xml"))
    as [r1|e1] eqn:E1; cbn [mbind result_bind try_except_all].
  2: { split; [discriminate|].
       intros (p' & Hp & [(r & Hr & _)|[(r & Hr & _) _]]);
         injection Hp as <-; rewrite E1 in Hr; discriminate. }
  destruct (Z.eqb_spec (status_code r1) 200) as [H1|H1]; cbn [try_except_all].
  { split; [|reflexivity]. intros _. exists p. split; [reflexivity|].
    left. exists r1. rewrite E1. auto. }
  destruct (session_get w (scheme p +:+ "://" +:+ netloc p +:+ "/sitemap_index.xml"))
    as [r2|e2] eqn:E2; cbn [mbind result_bind try_except_all].
  2: { split; [discriminate|].
       intros (p' & Hp & [(r & Hr & Hs)|[_ (r & Hr & _)]]); injection Hp as <-.
       - rewrite E1 in Hr. injection Hr as <-. contradiction.
       - rewrite E2 in Hr. discriminate. }
  destruct (Z.eqb_spec (status_code r2) 200) as [H2|H2]; cbn [try_except_all].
  - split; [|reflexivity]. intros _. exists p. split; [reflexivity|].
    right. split; [exists r1|exists r2]; rewrite ?E1, ?E2; auto.
  - split; [discriminate|].
    intros (p' & Hp & [(r & Hr & Hs)|[_ (r & Hr & Hs)]]); injection Hp as <-.
    + rewrite E1 in Hr. injection Hr as <-. contradiction.
    + rewrite E2 in Hr. injection Hr as <-. contradiction.
Qed.

(** The technical checks, read back. *)
Lemma technical_checks url soup response :
  exists robots_exists sitemap_exists checks,
    _check_robots_txt w url = Return robots_exists /\
    _check_sitemap w url = Return sitemap_exists /\
    _check_technical_factors w url soup response = Return checks /\
    outcome "ssl_certificate" checks
      = (if startswith url "https://" then verdict "pass" 10 10 else verdict "fail" 0 10) /\
    outcome "robots_txt" checks
      = (if robots_exists then verdict "pass" 5 5 else verdict "warning" 0 5) /\
    outcome "xml_sitemap" checks
      = (if sitemap_exists then verdict "pass" 5 5 else verdict "warning" 0 5).
Proof.
  destruct (check_robots_txt_returns url) as [rb Hrb].
  destruct (check_sitemap_returns url) as [sm Hsm].
  exists rb, sm. unfold _check_technical_factors. rewrite Hrb, Hsm.
  cbn [mbind result_bind]. eexists. repeat split.
  - destruct (startswith url "https://"), rb, sm; reflexivity.
  - destruct (startswith url "https://"), rb, sm; reflexivity.
  - destruct (startswith url "https://"), rb, sm; reflexivity.
Qed.

(** C7, amended. [_check_sitemap] never raises.  It returns true exactly
    when the probe of /sitemap.xml answers 200, or answers another status
    and the probe of /sitemap_index.xml answers 200; a probe that raises
    ends the search with false.  The xml_sitemap check passes with 5/5 when
    it returns true and warns with 0/5 otherwise. *)
Theorem sitemap_check url soup response :
  exists found checks,
    _check_sitemap w url = Return found /\
    (found = true <->
     exists p, urlparse w url = Return p /\
       (probe_200 w (site_url p "/sitemap.xml") \/
        (probe_not_200 w (site_url p "/sitemap.xml") /\
         probe_200 w (site_url p "/sitemap_index.xml")))) /\
    _check_technical_factors w url soup response = Return checks /\
    outcome "xml_sitemap" checks
      = (if found then verdict "pass" 5 5 else verdict "warning" 0 5).
Proof.
  destruct (technical_checks url soup response)
    as (rb & sm & checks & _ & Hsm & Hc & _ & _ & Hx).
  exists sm, checks. repeat split; try assumption.
  - intros ->. apply check_sitemap_true. exact Hsm.
  - intros H. apply check_sitemap_true in H. congruence.
Qed.

End Probes.

(** C7 as stated fails: /sitemap.xml times out, /sitemap_index.xml answers
    200, and [_check_sitemap] returns false without asking for the second;
    the check warns with 0/5. *)
Lemma sitemap_probe_raise_hides_second :
  let w := Examples.world Examples.slow_sitemap_site (Examples.page [] []) in
  let url := "https://example.com/" in
  (exists e, session_get w "https://example.com/sitemap.xml" = Raise e) /\
  probe_200 w "https://example.com/sitemap_index.xml" /\
  _check_sitemap w url = Return false /\
  (exists checks,
     _check_technical_factors w url (Examples.page [] []) (Examples.ok_response url)
       = Return checks /\
     outcome "xml_sitemap" checks = verdict "warning" 0 5) /\
  ~ (_check_sitemap w url = Return true <->
     probe_200 w "https://example.com/sitemap.xml" \/
     probe_200 w "https://example.com/sitemap_index.xml").
Proof.
  cbv zeta. split; [eexists; reflexivity|].
  assert (H2 : probe_200
                 (Examples.world Examples.slow_sitemap_site (Examples.page [] []))
                 "https://example.com/sitemap_index.xml").
  { eexists. split; reflexivity. }
  split; [exact H2|]. split; [reflexivity|]. split.
  - eexists. split; reflexivity.
  - intros [_ H]. specialize (H (or_intror H2)). discriminate H.
Qed.

Example sitemap_found_at_first_probe :
  _check_sitemap
    (Examples.world (fun u => Return (Examples.ok_response u)) (Examples.page [] []))
    "https://example.com/" = Return true.
Proof. reflexivity. Qed.

End Technical.

(* ===================================================================== *)
(** * The top-level call: [analyze_website] *)
(* ===================================================================== *)

Module Analysis.

Import SEOAnalyzer Spec.

Section World.

Variable w : World.

(** Neither handler returns: a result comes from the [try] block. *)
Lemma analyze_website_Return url res :
  analyze_website w url = Return res -> analyze_website_body w url = Return res.
Proof.
  unfold SEOAnalyzer.analyze_website, try_except.
  destruct (analyze_website_body w url) as [r|e]; [trivial|].
  cbn [handle]. repeat case_match; discriminate.
Qed.

(** What a returned result was computed from. *)
Lemma analyze_website_body_Return url res :
  analyze_website_body w url = Return res ->
  exists response soup technical,
    session_get w url = Return response /\
    raise_for_status response = Return tt /\
    BeautifulSoup w (content response) = Return soup /\
    _check_technical_factors w url soup response = Return technical /\
    details res =
      [("seo", _check_seo_factors url soup response);
       ("technical", technical);
       ("content", _check_content_factors soup);
       ("performance", _check_performance_factors response (elapsed_ms w));
       ("mobile", _check_mobile_factors soup)] /\
    _calculate_overall_score (details res) = Return (overall_score res).
Proof.
  unfold SEOAnalyzer.analyze_website_body.
  destruct (session_get w url) as [response|e] eqn:Hget; cbn [mbind result_bind]; [|discriminate].
  destruct (raise_for_status response) as [[]|e] eqn:Hstatus; cbn [mbind result_bind]; [|discriminate].
  destruct (BeautifulSoup w (content response)) as [soup|e] eqn:Hsoup;
    cbn [mbind result_bind]; [|discriminate].
  destruct (_analyze_seo_metrics w _ _ _ _) as [seo|e];
    cbn [mbind result_bind]; [|discriminate].
  destruct (_analyze_performance w _ _ _) as [perf|e];
    cbn [mbind result_bind]; [|discriminate].
  destruct (_analyze_security w _ _) as [sec|e]; cbn [mbind result_bind]; [|discriminate].
  destruct (_check_technical_factors w _ _ _) as [technical|e] eqn:Htech;
    cbn [mbind result_bind]; [|discriminate].
  cbn [dict_set String.eqb Ascii.eqb Bool.eqb].
  destruct (_calculate_overall_score _) as [score|e] eqn:Hs;
    cbn [mbind result_bind]; [|discriminate].
  intros [= <-].
  exists response, soup, technical. cbn [details overall_score]. repeat split; assumption || reflexivity.
Qed.

(** C4, amended. The ssl_certificate check passes with 10/10 exactly when
    the URL given to the analysis, as the caller wrote it, starts with
    "https://", and fails with 0/10 otherwise; neither the response (and so
    the final URL after redirects) nor the certificate is looked at. *)
Theorem ssl_certificate_check url :
  (forall soup response, exists checks,
     _check_technical_factors w url soup response = Return checks /\
     outcome "ssl_certificate" checks
       = if startswith url "https://" then verdict "pass" 10 10 else verdict "fail" 0 10) /\
  (forall res, analyze_website w url = Return res ->
     outcome "ssl_certificate" (category "technical" (details res))
       = if startswith url "https://" then verdict "pass" 10 10 else verdict "fail" 0 10).
Proof.
  split.
  - intros soup response.
    destruct (Technical.technical_checks w url soup response)
      as (_ & _ & checks & _ & _ & Hc & Hssl & _).
    exists checks. auto.
  - intros res H.
    apply analyze_website_Return, analyze_website_body_Return in H
      as (response & soup & technical & _ & _ & _ & Ht & -> & _).
    change (category "technical" _) with technical.
    destruct (Technical.technical_checks w url soup response)
      as (_ & _ & checks & _ & _ & Hc & Hssl & _).
    congruence.
Qed.

(** C8. When the fetch of the page raises a request exception (the request
    itself, or the status check of its response), the analysis returns no
    result: it raises one exception whose text is "Failed to fetch
    website: " followed by the text of the fetch exception.  A result is
    returned only when the fetch succeeded. *)
Theorem fetch_failure_is_wrapped url :
  (forall e, session_get w url = Raise e -> isinstance e RequestException = true ->
     analyze_website w url
       = Raise (mk_exn Exception ("Failed to fetch website: " +:+ exn_str e))) /\
  (forall response e, session_get w url = Return response ->
     raise_for_status response = Raise e ->
     analyze_website w url
       = Raise (mk_exn Exception ("Failed to fetch website: " +:+ exn_str e))) /\
  (forall res, analyze_website w url = Return res ->
     exists response, session_get w url = Return response /\
                      raise_for_status response = Return tt).
Proof.
  split; [|split].
  - intros e He Hreq.
    unfold SEOAnalyzer.analyze_website, SEOAnalyzer.analyze_website_body.
    rewrite He. cbn [mbind result_bind try_except handle]. rewrite Hreq. reflexivity.
  - intros response e He Hs.
    unfold SEOAnalyzer.analyze_website, SEOAnalyzer.analyze_website_body.
    rewrite He. cbn [mbind result_bind]. rewrite Hs.
    cbn [mbind result_bind try_except handle].
    assert (Hreq : isinstance e RequestException = true).
    { unfold raise_for_status in Hs. repeat case_match; try discriminate;
        injection Hs as <-; reflexivity. }
    rewrite Hreq. reflexivity.
  - intros res H.
    apply analyze_website_Return, analyze_website_body_Return in H
      as (response & _ & _ & Hr & Hs & _).
    eauto.
Qed.

End World.

(** C4 as stated fails: the page asked for over http is served, after a
    redirect, from an https URL, and the check fails with 0/10. *)
Lemma ssl_check_ignores_final_url :
  let soup := Examples.page [Examples.title "Example Domain"] [Examples.h1 "Example Domain"] in
  let w := Examples.world Examples.redirecting_site soup in
  exists response res,
    session_get w "http://example.com/" = Return response /\
    url response = "https://example.com/" /\
    urlparse w (url response) = Return (mk_ParseResult "https" "example.com") /\
    analyze_website w "http://example.com/" = Return res /\
    outcome "ssl_certificate" (category "technical" (details res)) = verdict "fail" 0 10.
Proof.
  cbv zeta. eexists. eexists.
  split; [reflexivity|]. split; [reflexivity|]. split; [reflexivity|].
  split; [vm_compute; reflexivity|]. reflexivity.
Qed.

Lemma ssl_certificate_check_witness :
  let soup := Examples.page [Examples.title "Example Domain"] [Examples.h1 "Example Domain"] in
  let w := Examples.world Examples.redirecting_site soup in
  exists res,
    analyze_website w "http://example.com/" = Return res /\
    outcome "ssl_certificate" (category "technical" (details res)) = verdict "fail" 0 10.
Proof.
  cbv zeta. eexists. split; [vm_compute; reflexivity|].
  apply (ssl_certificate_check
           (Examples.world Examples.redirecting_site
              (Examples.page [Examples.title "Example Domain"] [Examples.h1 "Example Domain"]))
           "http://example.com/").
  vm_compute. reflexivity.
Defined.

Lemma fetch_failure_is_wrapped_witness :
  analyze_website (Examples.world Examples.unreachable_site (Examples.page [] []))
    "http://example.com/"
  = Raise (mk_exn Exception "Failed to fetch website: Connection refused") /\
  analyze_website
    (Examples.world (fun u => Return (Examples.not_found u)) (Examples.page [] []))
    "http://example.com/missing"
  = Raise (mk_exn Exception
             "Failed to fetch website: 404 Client Error: Not Found for url: http://example.com/missing") /\
  exists response,
    session_get (Examples.world Examples.redirecting_site (Examples.page [] []))
      "http://example.com/" = Return response /\
    raise_for_status response = Return tt.
Proof.
  split; [|split].
  - apply (fetch_failure_is_wrapped
             (Examples.world Examples.unreachable_site (Examples.page [] []))
             "http://example.com/"
           ) with (e := mk_exn ConnectionError "Connection refused"); reflexivity.
  - apply (proj1 (proj2 (fetch_failure_is_wrapped
             (Examples.world (fun u => Return (Examples.not_found u)) (Examples.page [] []))
             "http://example.com/missing"))
             (Examples.not_found "http://example.com/missing")
             (mk_exn HTTPError
                "404 Client Error: Not Found for url: http://example.com/missing"));
      reflexivity.
  - eapply (fetch_failure_is_wrapped
              (Examples.world Examples.redirecting_site (Examples.page [] []))
              "http://example.com/").
    vm_compute. reflexivity.
Defined.

End Analysis.

(* ===================================================================== *)
(** * The TTL cache *)
(* ===================================================================== *)

Module Cache.

Import CacheService.

Section Properties.

Context {V : Type}.
Implicit Types (st : state V) (key : string) (v : V).

(** What [set] stores. *)
Lemma set_lookup key v ttl st :
  _cache (set key v ttl st) !! key
  = Some (mk_entry v (clock st (ticks st)) (clock st (S (ticks st)))
            (clock st (S (S (ticks st))) +
             match ttl with None => _default_ttl st | Some t => t end)).
Proof. unfold set. cbn. apply lookup_insert_eq. Qed.

Lemma set_lookup_ne key key' v ttl st :
  key <> key' -> _cache (set key v ttl st) !! key' = _cache st !! key'.
Proof. intros H. unfold set. cbn. apply lookup_insert_ne, H. Qed.

(** The three ways [get] can go. *)
Lemma get_absent key st :
  _cache st !! key = None -> get key st = (None, st).
Proof. intros H. unfold get. rewrite H. reflexivity. Qed.

Lemma get_live key st e :
  _cache st !! key = Some e -> clock st (ticks st) <= expires_at e ->
  fst (get key st) = Some (value e) /\
  _cache (snd (get key st))
  = <[key := mk_entry (value e) (created_at e) (clock st (S (ticks st))) (expires_at e)]>
      (_cache st).
Proof.
  intros H Hle. unfold get. rewrite H. cbn.
  destruct (Z.ltb_spec (expires_at e) (clock st (ticks st))); [lia|]. cbn. auto.
Qed.

Lemma get_expired key st e :
  _cache st !! key = Some e -> expires_at e < clock st (ticks st) ->
  fst (get key st) = None /\
  _cache (snd (get key st)) = base.delete key (_cache st).
Proof.
  intros H Hlt. unfold get. rewrite H. cbn.
  destruct (Z.ltb_spec (expires_at e) (clock st (ticks st))); [|lia]. cbn. auto.
Qed.

(** A read of one key leaves the entries of the other keys alone. *)
Lemma get_other key key' st :
  key' <> key -> _cache (snd (get key st)) !! key' = _cache st !! key'.
Proof.
  intros Hne. unfold get. destruct (_cache st !! key) as [e|]; [|reflexivity].
  cbn. destruct (expires_at e <? clock st (ticks st)); cbn.
  - apply lookup_delete_ne. congruence.
  - apply lookup_insert_ne. congruence.
Qed.

(** C9. [set(k, v, t)] stores [v] under [k] with the expiry time it
    computes.  In every state that holds this value and this expiry time
    under [k], as the one after the [set] and every one reached from it by
    reads before the expiry: a [get(k)] whose clock reading is not after the
    expiry returns [v] and leaves [v] and the expiry in place, so that the
    next read finds them again; a [get] of another key leaves them in place
    as well; and a [get(k)] whose clock reading lies after the expiry
    returns [None] and removes the entry, so that every later [get(k)]
    returns [None] too.  A [get] of a key that is not in the cache, as in a
    fresh cache, returns [None]. *)
Theorem get_after_set key v ttl st :
  let st1 := set key v ttl st in
  let expiry :=
    clock st (S (S (ticks st))) +
    match ttl with None => _default_ttl st | Some t => t end in
  Shape.holds_until key v expiry st1 /\
  (forall st2, Shape.holds_until key v expiry st2 ->
     (clock st2 (ticks st2) <= expiry ->
        fst (get key st2) = Some v /\
        Shape.holds_until key v expiry (snd (get key st2))) /\
     (forall key', key' <> key ->
        Shape.holds_until key v expiry (snd (get key' st2))) /\
     (expiry < clock st2 (ticks st2) ->
        fst (get key st2) = None /\
        _cache (snd (get key st2)) !! key = None /\
        forall st3, _cache st3 !! key = None ->
          fst (get key st3) = None /\ _cache (snd (get key st3)) !! key = None)) /\
  (forall key' st0, _cache st0 !! key' = None -> get key' st0 = (None, st0)) /\
  (forall key' clock ticks, fst (get key' (@init V clock ticks)) = None).
Proof.
  intros st1 expiry. split; [|split; [|split]].
  - eexists. split; [apply set_lookup|]. split; reflexivity.
  - intros st2 (e & He & Hv & Hx). split; [|split].
    + intros Hlive. destruct (get_live key st2 e He) as [Hg Hc]; [lia|].
      split; [rewrite Hg, Hv; reflexivity|].
      eexists. split; [rewrite Hc; apply lookup_insert_eq|]. split; assumption.
    + intros key' Hne. exists e. split; [|split; assumption].
      rewrite get_other by congruence. exact He.
    + intros Hexp. destruct (get_expired key st2 e He) as [Hg Hc]; [lia|].
      split; [exact Hg|]. split; [rewrite Hc; apply lookup_delete_eq|].
      intros st3 H3. rewrite (get_absent key st3 H3). split; [reflexivity|exact H3].
  - intros key' st0. apply get_absent.
  - intros key' c n. reflexivity.
Qed.

(** C10. [delete(k)] returns true exactly when [k] is in the cache; then the
    entry of [k] is removed and the entry of every other key is as before;
    when [k] is not in the cache it returns false and the state is the one
    before. *)
Theorem delete_frame key st :
  let '(found, st') := delete key st in
  (found = true <-> is_Some (_cache st !! key)) /\
  (found = true ->
     _cache st' !! key = None /\
     forall key', key' <> key -> _cache st' !! key' = _cache st !! key') /\
  (found = false -> st' = st).
Proof.
  unfold delete. destruct (_cache st !! key) as [e|] eqn:H.
  - split; [split; eauto|]. split; [|discriminate].
    intros _. cbn. split; [apply lookup_delete_eq|].
    intros key' Hne. apply lookup_delete_ne. congruence.
  - split; [split; [discriminate|intros [? ?]; discriminate]|].
    split; [discriminate|reflexivity].
Qed.

End Properties.

(** Under a clock that shows 1000, 1001, 1002, ... the entry set with a ttl
    of 1800 expires at 2802: it is read back at 1003 and again at 1005, also
    after a read of another key, and it is gone at 5000. *)
Lemma get_after_set_witness :
  let st := @init string Examples.ticking 0 in
  let st1 := set "analysis:example.com:seo" "report" (Some 1800) st in
  let st2 := snd (get "analysis:example.com:seo" st1) in
  let st3 := snd (get "analysis:example.com:backlinks" st2) in
  let later := mk_state (_cache st3) 3600 (fun n => 5000 + Z.of_nat n) 0 in
  fst (get "analysis:example.com:seo" st1) = Some "report" /\
  fst (get "analysis:example.com:seo" st2) = Some "report" /\
  fst (get "analysis:example.com:seo" st3) = Some "report" /\
  fst (get "analysis:example.com:seo" later) = None /\
  fst (get "analysis:example.com:seo" (snd (get "analysis:example.com:seo" later))) = None /\
  fst (get "analysis:example.com:backlinks" st1) = None.
Proof.
  cbv zeta.
  destruct (get_after_set "analysis:example.com:seo" "report" (Some 1800)
              (@init string Examples.ticking 0))
    as (H1 & Hget & Habsent & _).
  set (st1 := set "analysis:example.com:seo" "report" (Some 1800)
                (@init string Examples.ticking 0)) in *.
  destruct (Hget st1 H1) as (Hlive1 & _ & _).
  destruct Hlive1 as [Hv1 H2]; [vm_compute; discriminate|].
  set (st2 := snd (get "analysis:example.com:seo" st1)) in *.
  destruct (Hget st2 H2) as (Hlive2 & Hother2 & _).
  destruct Hlive2 as [Hv2 _]; [vm_compute; discriminate|].
  pose proof (Hother2 "analysis:example.com:backlinks" ltac:(discriminate)) as H3.
  set (st3 := snd (get "analysis:example.com:backlinks" st2)) in *.
  destruct (Hget st3 H3) as (Hlive3 & _ & _).
  destruct Hlive3 as [Hv3 _]; [vm_compute; discriminate|].
  assert (Hl : Shape.holds_until "analysis:example.com:seo" "report"
                 (Examples.ticking 2 + 1800)
                 (mk_state (_cache st3) 3600 (fun n => 5000 + Z.of_nat n) 0)).
  { destruct H3 as (e & He & Hv & Hx). exists e. auto. }
  destruct (Hget _ Hl) as (_ & _ & Hexpired).
  destruct Hexpired as (Hnone & Hgone & Hnever); [vm_compute; reflexivity|].
  split; [exact Hv1|]. split; [exact Hv2|]. split; [exact Hv3|].
  split; [exact Hnone|]. split; [apply Hnever, Hgone|].
  rewrite Habsent; reflexivity.
Defined.

Lemma delete_frame_witness :
  let st := set "a" "1" None (set "b" "2" None (@init string (fun n => Z.of_nat n) 0)) in
  fst (delete "a" st) = true /\
  _cache (snd (delete "a" st)) !! "a" = None /\
  _cache (snd (delete "a" st)) !! "b" = _cache st !! "b" /\
  delete "c" st = (false, st).
Proof.
  cbv zeta.
  pose proof (delete_frame "a"
    (set "a" "1" None (set "b" "2" None (@init string (fun n => Z.of_nat n) 0)))) as Ha.
  pose proof (delete_frame "c"
    (set "a" "1" None (set "b" "2" None (@init string (fun n => Z.of_nat n) 0)))) as Hc.
  destruct (delete "a" _) as [fa sa] eqn:Ea.
  destruct (delete "c" _) as [fc sc] eqn:Ec.
  destruct Ha as (Hfa & Hra & _). destruct Hc as (Hfc & _ & Hrc).
  assert (Ta : fa = true).
  { apply Hfa. rewrite set_lookup. eauto. }
  assert (Tc : fc = false).
  { destruct fc; [|reflexivity]. destruct Hfc as [Hfc _].
    destruct (Hfc eq_refl) as [x Hx]. vm_compute in Hx. discriminate Hx. }
  cbn [fst snd]. split; [exact Ta|]. split; [apply Hra, Ta|].
  split; [apply Hra; [exact Ta|discriminate]|].
  rewrite Tc, (Hrc Tc). reflexivity.
Defined.

End Cache.

(* ===================================================================== *)
(** * The other checks *)
(* ===================================================================== *)

Module MoreChecks.

Import SEOAnalyzer Spec.

Ltac by_cases f := unfold f; repeat case_match; reflexivity.

Lemma meta_description_outcome url soup response :
  outcome "meta_description" (_check_seo_factors url soup response)
  = match find "meta" [("name", "description")] soup with
    | None => verdict "fail" 0 10
    | Some meta_desc =>
        let desc_content := strip (get_default "content" "" meta_desc) in
        if len desc_content =? 0 then verdict "fail" 0 10
        else if len desc_content >? 160 then verdict "warning" 7 10
        else verdict "pass" 10 10
    end.
Proof. by_cases _check_seo_factors. Qed.

(** The meta_description check fails with 0/10 when the document has no
    meta tag named description or the trimmed content of the first one is
    empty (as it is when the tag has no content attribute), warns with 7/10
    when the trimmed content is longer than 160 characters, and passes with
    10/10 otherwise. *)
Theorem meta_description_check url soup response :
  let result := outcome "meta_description" (_check_seo_factors url soup response) in
  let meta := find "meta" [("name", "description")] soup in
  (meta = None -> result = verdict "fail" 0 10) /\
  (forall m, meta = Some m -> get "content" m = None -> result = verdict "fail" 0 10) /\
  (forall m, meta = Some m -> strip (get_default "content" "" m) = "" ->
     result = verdict "fail" 0 10) /\
  (forall m, meta = Some m -> 160 < len (strip (get_default "content" "" m)) ->
     result = verdict "warning" 7 10) /\
  (forall m, meta = Some m -> strip (get_default "content" "" m) <> "" ->
     len (strip (get_default "content" "" m)) <= 160 -> result = verdict "pass" 10 10).
Proof.
  cbv zeta. rewrite meta_description_outcome. split; [|split; [|split; [|split]]].
  - intros ->. reflexivity.
  - intros m -> Hc. unfold get_default. rewrite Hc. reflexivity.
  - intros m -> ->. reflexivity.
  - intros m -> H. cbv zeta.
    destruct (Z.eqb_spec (len (strip (get_default "content" "" m))) 0); [lia|].
    destruct (Z.gtb_spec (len (strip (get_default "content" "" m))) 160);
      [reflexivity|lia].
  - intros m -> Hne Hle. cbv zeta.
    destruct (Z.eqb_spec (len (strip (get_default "content" "" m))) 0) as [E|_].
    { apply Checks.len_0 in E. contradiction. }
    destruct (Z.gtb_spec (len (strip (get_default "content" "" m))) 160);
      [lia|reflexivity].
Qed.

Lemma content_length_outcome soup :
  outcome "content_length" (_check_content_factors soup)
  = let word_count := count_words (get_text soup) in
    if word_count <? 300 then verdict "warning" 3 10
    else if word_count <? 500 then verdict "pass" 7 10
    else verdict "pass" 10 10.
Proof. by_cases _check_content_factors. Qed.

(** A text has at most one word for every two characters, rounded up. *)
Lemma count_words_from_bound (s : string) (inword : bool) :
  0 <= count_words_from inword s /\
  2 * count_words_from inword s <= len s + (if inword then 0 else 1).
Proof.
  revert inword. induction s as [|c s IH]; intros inword.
  - unfold len. cbn. destruct inword; lia.
  - cbn [count_words_from]. unfold len in *. cbn [String.length].
    destruct (isword c).
    + specialize (IH true). destruct inword; lia.
    + specialize (IH false). destruct inword; lia.
Qed.

(** The content_length check counts the maximal runs of word characters of
    the text of the page: it warns with 3/10 below 300 words, passes with
    7/10 from 300 to 499 words and passes with 10/10 from 500 words on.  A
    page with fewer than 599 characters of text always gets the warning. *)
Theorem content_length_check soup :
  let result := outcome "content_length" (_check_content_factors soup) in
  let word_count := count_words (get_text soup) in
  (word_count < 300 -> result = verdict "warning" 3 10) /\
  (300 <= word_count < 500 -> result = verdict "pass" 7 10) /\
  (500 <= word_count -> result = verdict "pass" 10 10) /\
  (len (get_text soup) < 599 -> result = verdict "warning" 3 10).
Proof.
  cbv zeta. rewrite content_length_outcome. cbv zeta.
  pose proof (count_words_from_bound (get_text soup) false) as Hb.
  fold (count_words (get_text soup)) in Hb.
  destruct (Z.ltb_spec (count_words (get_text soup)) 300);
    destruct (Z.ltb_spec (count_words (get_text soup)) 500);
    repeat split; intros; try reflexivity; lia.
Qed.

Lemma performance_outcomes response load_time_ms :
  outcome "page_load_time" (_check_performance_factors response load_time_ms)
  = (if load_time_ms <? 1000 then verdict "pass" 10 10
     else if load_time_ms <? 3000 then verdict "warning" 7 10
     else verdict "fail" 3 10) /\
  outcome "gzip_compression" (_check_performance_factors response load_time_ms)
  = (if str_contains "gzip" (headers_get "content-encoding" "" (headers response))
     then verdict "pass" 5 5 else verdict "fail" 0 5).
Proof. split; by_cases _check_performance_factors. Qed.

(** The page_load_time check passes with 10/10 below 1000 ms, warns with
    7/10 from 1000 ms to below 3000 ms and fails with 3/10 from 3000 ms on;
    the gzip_compression check passes with 5/5 when the Content-Encoding
    header contains "gzip", and fails with 0/5 otherwise, also when the
    response has no such header. *)
Theorem performance_checks response load_time_ms :
  let checks := _check_performance_factors response load_time_ms in
  let encoding := headers_get "content-encoding" "" (headers response) in
  (load_time_ms < 1000 -> outcome "page_load_time" checks = verdict "pass" 10 10) /\
  (1000 <= load_time_ms < 3000 ->
     outcome "page_load_time" checks = verdict "warning" 7 10) /\
  (3000 <= load_time_ms -> outcome "page_load_time" checks = verdict "fail" 3 10) /\
  (str_contains "gzip" encoding = true ->
     outcome "gzip_compression" checks = verdict "pass" 5 5) /\
  (str_contains "gzip" encoding = false ->
     outcome "gzip_compression" checks = verdict "fail" 0 5) /\
  (headers_in "content-encoding" (headers response) = false ->
     outcome "gzip_compression" checks = verdict "fail" 0 5).
Proof.
  cbv zeta. destruct (performance_outcomes response load_time_ms) as [-> ->].
  assert (Hnone : headers_in "content-encoding" (headers response) = false ->
                  headers_get "content-encoding" "" (headers response) = "").
  { induction (headers response) as [|[k v] h IH]; [reflexivity|].
    cbn [headers_in headers_get]. intros H. apply orb_false_iff in H as [H1 H2].
    rewrite H1. apply IH, H2. }
  destruct (Z.ltb_spec load_time_ms 1000); destruct (Z.ltb_spec load_time_ms 3000);
    repeat split; intros; try reflexivity; try lia;
    try (match goal with H : str_contains _ _ = _ |- _ => rewrite H end; reflexivity);
    try (rewrite Hnone by assumption; reflexivity).
Qed.

Lemma viewport_outcome soup :
  outcome "viewport_meta_tag" (_check_mobile_factors soup)
  = if _check_mobile_friendly soup then verdict "pass" 10 10 else verdict "fail" 0 10.
Proof. unfold _check_mobile_factors, _check_mobile_friendly. case_match; reflexivity. Qed.

(** The viewport_meta_tag check passes with 10/10 exactly when
    [_check_mobile_friendly] says yes, that is when the document has a meta
    tag named viewport, and fails with 0/10 otherwise. *)
Theorem viewport_check soup :
  (_check_mobile_friendly soup = true <->
   exists tag, In tag (descendants soup) /\ matches "meta" [("name", "viewport")] tag = true) /\
  (_check_mobile_friendly soup = true <->
   outcome "viewport_meta_tag" (_check_mobile_factors soup) = verdict "pass" 10 10) /\
  (_check_mobile_friendly soup = false <->
   outcome "viewport_meta_tag" (_check_mobile_factors soup) = verdict "fail" 0 10).
Proof.
  rewrite viewport_outcome. split; [|split].
  - unfold _check_mobile_friendly, find, find_all.
    destruct (List.filter _ _) as [|e l] eqn:E.
    + split; [discriminate|]. intros (tag & Hin & Hm).
      assert (Hf : In tag (List.filter (matches "meta" [("name", "viewport")])
                             (descendants soup))) by (apply filter_In; auto).
      rewrite E in Hf. destruct Hf.
    + split; [|reflexivity]. intros _. exists e.
      apply filter_In. rewrite E. left. reflexivity.
  - destruct (_check_mobile_friendly soup); split; try reflexivity; discriminate.
  - destruct (_check_mobile_friendly soup); split; try reflexivity; discriminate.
Qed.

End MoreChecks.

(* ===================================================================== *)
(** * Whole analyses *)
(* ===================================================================== *)

Module WholeAnalysis.

Import SEOAnalyzer Spec Shape.

Ltac shape_cases :=
  repeat case_match;
  repeat match goal with |- exists _, _ => eexists end;
  (split; [reflexivity|]); (split; [reflexivity|]);
  (split; [repeat constructor; eexists; eexists;
            (split; [reflexivity|split; [reflexivity|lia]])|]);
  lia.

(** What each check function yields: the names, the pairs, and that every
    score lies between 0 and its maximum. *)
Lemma seo_factors_shape url soup response :
  exists s1 s2 s3,
    map fst (_check_seo_factors url soup response)
      = ["title_tag"; "meta_description"; "h1_tag"] /\
    pairs_of (_check_seo_factors url soup response)
      = int_pairs [(s1, 10); (s2, 10); (s3, 10)] /\
    Forall well_scored (map snd (_check_seo_factors url soup response)) /\
    (0 <= s1 <= 10 /\ 0 <= s2 <= 10 /\ 0 <= s3 <= 10).
Proof. unfold _check_seo_factors. shape_cases. Qed.

Lemma content_factors_shape soup :
  exists s1 m1 s2,
    map fst (_check_content_factors soup) = ["image_alt_attributes"; "content_length"] /\
    pairs_of (_check_content_factors soup) = int_pairs [(s1, m1); (s2, 10)] /\
    Forall well_scored (map snd (_check_content_factors soup)) /\
    (5 <= s1 <= m1 /\ (m1 = 5 \/ m1 = 10) /\ 3 <= s2 <= 10).
Proof. unfold _check_content_factors. shape_cases. Qed.

Lemma performance_factors_shape response load_time_ms :
  exists s1 s2,
    map fst (_check_performance_factors response load_time_ms)
      = ["page_load_time"; "gzip_compression"] /\
    pairs_of (_check_performance_factors response load_time_ms)
      = int_pairs [(s1, 10); (s2, 5)] /\
    Forall well_scored (map snd (_check_performance_factors response load_time_ms)) /\
    (3 <= s1 <= 10 /\ 0 <= s2 <= 5).
Proof. unfold _check_performance_factors. shape_cases. Qed.

Lemma mobile_factors_shape soup :
  exists s1,
    map fst (_check_mobile_factors soup) = ["viewport_meta_tag"] /\
    pairs_of (_check_mobile_factors soup) = int_pairs [(s1, 10)] /\
    Forall well_scored (map snd (_check_mobile_factors soup)) /\
    0 <= s1 <= 10.
Proof. unfold _check_mobile_factors. shape_cases. Qed.

Lemma technical_factors_shape w url soup response :
  exists checks s1 s2 s3,
    _check_technical_factors w url soup response = Return checks /\
    map fst checks = ["ssl_certificate"; "robots_txt"; "xml_sitemap"] /\
    pairs_of checks = int_pairs [(s1, 10); (s2, 5); (s3, 5)] /\
    Forall well_scored (map snd checks) /\
    (0 <= s1 <= 10 /\ 0 <= s2 <= 5 /\ 0 <= s3 <= 5).
Proof.
  destruct (Technical.check_robots_txt_returns w url) as [rb Hrb].
  destruct (Technical.check_sitemap_returns w url) as [sm Hsm].
  unfold _check_technical_factors. rewrite Hrb, Hsm. cbn [mbind result_bind].
  destruct (startswith url "https://"), rb, sm;
    repeat match goal with |- exists _, _ => eexists end;
    (split; [reflexivity|]); (split; [reflexivity|]); (split; [reflexivity|]);
    (split; [repeat constructor; eexists; eexists;
              (split; [reflexivity|split; [reflexivity|lia]])|]); lia.
Qed.

Lemma checks_of_five n1 (A : dict (dict value)) n2 B n3 C n4 D n5 E :
  checks_of [(n1, A); (n2, B); (n3, C); (n4, D); (n5, E)]
  = (map snd A ++ map snd B ++ map snd C ++ map snd D ++ map snd E)%list.
Proof. unfold checks_of. cbn [flat_map snd]. rewrite app_nil_r. reflexivity. Qed.

Lemma score_pairs_five n1 (A : dict (dict value)) n2 B n3 C n4 D n5 E :
  score_pairs [(n1, A); (n2, B); (n3, C); (n4, D); (n5, E)]
  = (pairs_of A ++ pairs_of B ++ pairs_of C ++ pairs_of D ++ pairs_of E)%list.
Proof. unfold score_pairs. rewrite checks_of_five, !omap_app. reflexivity. Qed.

(** What a returned result was computed from, field by field. *)
Lemma analyze_website_inv w url (res : AnalysisResult w) :
  analyze_website w url = Return res ->
  exists response soup technical,
    session_get w url = Return response /\
    raise_for_status response = Return tt /\
    BeautifulSoup w (content response) = Return soup /\
    _check_technical_factors w url soup response = Return technical /\
    page_title res = _get_page_title soup /\
    meta_description res = _get_meta_description soup /\
    details res =
      [("seo", _check_seo_factors url soup response);
       ("technical", technical);
       ("content", _check_content_factors soup);
       ("performance", _check_performance_factors response (elapsed_ms w));
       ("mobile", _check_mobile_factors soup)] /\
    _calculate_overall_score (details res) = Return (overall_score res).
Proof.
  intros H. apply Analysis.analyze_website_Return in H. revert H.
  unfold analyze_website_body.
  destruct (session_get w url) as [response|e] eqn:Hget; cbn [mbind result_bind]; [|discriminate].
  destruct (raise_for_status response) as [[]|e] eqn:Hstatus; cbn [mbind result_bind]; [|discriminate].
  destruct (BeautifulSoup w (content response)) as [soup|e] eqn:Hsoup;
    cbn [mbind result_bind]; [|discriminate].
  destruct (_analyze_seo_metrics w _ _ _ _) as [seo|e];
    cbn [mbind result_bind]; [|discriminate].
  destruct (_analyze_performance w _ _ _) as [perf|e];
    cbn [mbind result_bind]; [|discriminate].
  destruct (_analyze_security w _ _) as [sec|e]; cbn [mbind result_bind]; [|discriminate].
  destruct (_check_technical_factors w _ _ _) as [technical|e] eqn:Htech;
    cbn [mbind result_bind]; [|discriminate].
  cbn [dict_set String.eqb Ascii.eqb Bool.eqb].
  destruct (_calculate_overall_score _) as [score|e] eqn:Hs;
    cbn [mbind result_bind]; [|discriminate].
  intros [= <-].
  exists response, soup, technical.
  cbn [details overall_score page_title meta_description].
  repeat split; assumption || reflexivity.
Qed.

(** The eleven pairs of a returned analysis. *)
Lemma analysis_pairs w url (res : AnalysisResult w) :
  analyze_website w url = Return res ->
  exists t m h s r x i im c l g v,
    layout (details res) = analysis_layout /\
    score_pairs (details res)
      = int_pairs [(t, 10); (m, 10); (h, 10); (s, 10); (r, 5); (x, 5);
                   (i, im); (c, 10); (l, 10); (g, 5); (v, 10)] /\
    Forall well_scored (checks_of (details res)) /\
    (0 <= t <= 10 /\ 0 <= m <= 10 /\ 0 <= h <= 10 /\ 0 <= s <= 10 /\ 0 <= r <= 5 /\
     0 <= x <= 5 /\ 5 <= i <= im /\ (im = 5 \/ im = 10) /\ 3 <= c <= 10 /\
     3 <= l <= 10 /\ 0 <= g <= 5 /\ 0 <= v <= 10).
Proof.
  intros H. apply analyze_website_inv in H
    as (response & soup & technical & _ & _ & _ & Ht & _ & _ & -> & _).
  destruct (seo_factors_shape url soup response) as (t & m & h & N1 & P1 & W1 & B1).
  destruct (technical_factors_shape w url soup response)
    as (technical' & s & r & x & Ht' & N2 & P2 & W2 & B2).
  rewrite Ht in Ht'. injection Ht' as <-.
  destruct (content_factors_shape soup) as (i & im & c & N3 & P3 & W3 & B3).
  destruct (performance_factors_shape response (elapsed_ms w))
    as (l & g & N4 & P4 & W4 & B4).
  destruct (mobile_factors_shape soup) as (v & N5 & P5 & W5 & B5).
  exists t, m, h, s, r, x, i, im, c, l, g, v.
  split; [|split; [|split]].
  - unfold layout, analysis_layout. cbn [map fst snd]. rewrite N1, N2, N3, N4, N5.
    reflexivity.
  - rewrite score_pairs_five, P1, P2, P3, P4, P5. reflexivity.
  - rewrite checks_of_five. repeat (apply Forall_app; split); assumption.
  - lia.
Qed.

(** The totals of a returned analysis, and its overall score as the nearest
    integer of the percentage. *)
Lemma analysis_totals w url (res : AnalysisResult w) :
  analyze_website w url = Return res ->
  let S := total_of (details res) in
  let M := max_total_of (details res) in
  (M = 90 \/ M = 95) /\ 11 <= S <= M /\
  2 * Z.abs (overall_score res * M - 100 * S) <= M.
Proof.
  intros H. pose proof (analysis_pairs w url res H)
    as (t & m & h & s & r & x & i & im & c & l & g & v & _ & HP & HW & HB).
  apply analyze_website_inv in H as (_ & _ & _ & _ & _ & _ & _ & _ & _ & _ & Hscore).
  cbv zeta. unfold total_of, max_total_of. rewrite HP.
  cbn [int_pairs map foldr fst snd int_of].
  rewrite OverallScore.overall_score_pairs in Hscore.
  rewrite (OverallScore.sum_pairs_ints _ 0 0) in Hscore.
  2: { rewrite HP. reflexivity. }
  rewrite OverallScore.bind_Return, OverallScore.percent_of_ints, HP in Hscore.
  cbn [int_pairs map foldr fst snd int_of] in Hscore. rewrite !Z.add_0_l in Hscore.
  set (S := t + (m + (h + (s + (r + (x + (i + (c + (l + (g + (v + 0))))))))))) in *.
  set (M := 10 + (10 + (10 + (10 + (5 + (5 + (im + (10 + (10 + (5 + (10 + 0))))))))))) in *.
  assert (HM : M = 90 \/ M = 95) by (unfold M; lia).
  assert (HS : 11 <= S <= M) by (unfold S, M; lia).
  split; [exact HM|]. split; [exact HS|].
  destruct (Percent.percent_of_totals_nearest S M ltac:(lia))
    as (r0 & E & Hr); [change (2 ^ 44) with 17592186044416; lia|].
  rewrite E in Hscore. injection Hscore as <-. exact Hr.
Qed.

Lemma content_factors_max soup i im c :
  pairs_of (_check_content_factors soup) = int_pairs [(i, im); (c, 10)] ->
  im = if decide (find_all "img" [] soup = []) then 5 else 10.
Proof.
  unfold _check_content_factors.
  destruct (find_all "img" [] soup) as [|img images].
  - rewrite decide_True by reflexivity.
    change (Z.of_nat (length []) =? 0) with true. cbv iota.
    repeat case_match; intros [= _ <- _]; reflexivity.
  - rewrite decide_False by discriminate.
    change (Z.of_nat (length (img :: images)) =? 0) with false. cbv iota.
    repeat case_match; intros [= _ <- _]; reflexivity.
Qed.

(** Every returned analysis has the same five categories and eleven checks,
    in the same order; every check carries an int score between 0 and its
    int max_score; the maxima add up to 90 when the page has no img element
    and to 95 when it has one; and at least 11 points are reached. *)
Theorem analysis_shape w url (res : AnalysisResult w) :
  analyze_website w url = Return res ->
  layout (details res) = analysis_layout /\
  Forall well_scored (checks_of (details res)) /\
  (exists response soup,
     session_get w url = Return response /\
     BeautifulSoup w (content response) = Return soup /\
     max_total_of (details res)
       = if decide (find_all "img" [] soup = []) then 90 else 95) /\
  11 <= total_of (details res) <= max_total_of (details res).
Proof.
  intros H.
  pose proof (analysis_pairs w url res H)
    as (t & m & h & s & r & x & i & im & c & l & g & v & HL & _ & HW & _).
  pose proof (analysis_totals w url res H) as (_ & HS & _).
  split; [exact HL|]. split; [exact HW|]. split; [|exact HS].
  apply analyze_website_inv in H
    as (response & soup & technical & Hget & _ & Hsoup & Ht & _ & _ & Hd & _).
  exists response, soup. split; [exact Hget|]. split; [exact Hsoup|].
  destruct (seo_factors_shape url soup response) as (t' & m' & h' & _ & P1 & _).
  destruct (technical_factors_shape w url soup response)
    as (technical' & s' & r' & x' & Ht' & _ & P2 & _).
  rewrite Ht in Ht'. injection Ht' as <-.
  destruct (content_factors_shape soup) as (i' & im' & c' & _ & P3 & _).
  destruct (performance_factors_shape response (elapsed_ms w)) as (l' & g' & _ & P4 & _).
  destruct (mobile_factors_shape soup) as (v' & _ & P5 & _).
  pose proof (content_factors_max soup i' im' c' P3) as Him.
  unfold max_total_of. rewrite Hd, score_pairs_five, P1, P2, P3, P4, P5.
  cbn [int_pairs map app foldr fst snd int_of]. case_decide; lia.
Qed.

(** The overall score of a returned analysis is the exact percentage of the
    points reached, rounded to the nearest integer: with maxima that add up
    to 90 or 95 the percentage never lies halfway between two integers, so
    the float arithmetic cannot change the result.  It lies between 12 and
    100. *)
Theorem analysis_overall_score w url (res : AnalysisResult w) :
  analyze_website w url = Return res ->
  overall_score res = exact_percent (total_of (details res)) (max_total_of (details res)) /\
  2 * ((100 * total_of (details res)) mod max_total_of (details res))
    <> max_total_of (details res) /\
  12 <= overall_score res <= 100.
Proof.
  intros H. pose proof (analysis_totals w url res H) as (HM & HS & Hr).
  cbv zeta in *.
  set (S := total_of (details res)) in *. set (M := max_total_of (details res)) in *.
  clearbody S M.
  assert (Htie : 2 * ((100 * S) mod M) <> M).
  { pose proof (Z.div_mod (100 * S) M ltac:(lia)) as E.
    set (q := 100 * S / M) in *. set (t := (100 * S) mod M) in *. clearbody q t.
    destruct HM; subst M; lia. }
  split; [|split; [exact Htie|]].
  - apply OverallScore.nearest_is_exact_percent; [lia|exact Hr|exact Htie].
  - destruct HM; subst M; lia.
Qed.

(** The total equals the maximum exactly when every check reached its
    maximum. *)
Lemma full_marks_total (cs : list (dict value)) :
  Forall well_scored cs ->
  (foldr Z.add 0 (map (fun p => int_of (fst p)) (omap score_pair cs))
   = foldr Z.add 0 (map (fun p => int_of (snd p)) (omap score_pair cs))
   <-> Forall full_marks cs).
Proof.
  induction 1 as [|c cs (s & m & Hs & Hm & Hsm) Hcs IH]; [cbn; split; auto|].
  destruct (OverallScore.well_scored_pairs cs Hcs) as [_ Hle].
  change (omap score_pair (c :: cs))
    with (match score_pair c with
          | Some p => p :: omap score_pair cs
          | None => omap score_pair cs
          end).
  assert (Ec : score_pair c = Some (Int s, Int m))
    by (unfold score_pair; rewrite Hs, Hm; reflexivity).
  rewrite Ec. cbn [map foldr fst snd int_of]. split.
  - intros E. assert (s = m) by lia. subst s. constructor.
    + exists m. auto.
    + apply IH. lia.
  - intros HF. inversion HF as [|? ? (m' & Hs' & Hm') HF']; subst.
    apply IH in HF'. rewrite Hs in Hs'. rewrite Hm in Hm'.
    injection Hs' as Es. injection Hm' as Em. lia.
Qed.

(** A returned analysis scores 100 exactly when every one of its eleven
    checks reached its maximum score. *)
Theorem analysis_full_score w url (res : AnalysisResult w) :
  analyze_website w url = Return res ->
  (overall_score res = 100 <-> Forall full_marks (checks_of (details res))).
Proof.
  intros H. pose proof (analysis_totals w url res H) as (HM & HS & Hr).
  pose proof (analysis_pairs w url res H)
    as (t & m & h & s & r & x & i & im & c & l & g & v & _ & _ & HW & _).
  rewrite <- (full_marks_total _ HW).
  fold (score_pairs (details res)). fold (total_of (details res)).
  fold (max_total_of (details res)). cbv zeta in *.
  set (S := total_of (details res)) in *. set (M := max_total_of (details res)) in *.
  clearbody S M. destruct HM; subst M; lia.
Qed.

(** An analysis fails in one of three ways: with "Failed to fetch
    website: ..." when a request exception came up, with "Analysis
    failed: ..." when another exception came up, both as a plain Exception
    that carries the text of the first one; or, when what came up is no
    Exception at all (an interrupt), with that very exception. *)
Theorem analysis_failures w url (e : exn) :
  analyze_website w url = Raise e ->
  exists e0,
    analyze_website_body w url = Raise e0 /\
    ((isinstance e0 RequestException = true /\
      e = mk_exn Exception ("Failed to fetch website: " +:+ exn_str e0)) \/
     (isinstance e0 RequestException = false /\ isinstance e0 Exception = true /\
      e = mk_exn Exception ("Analysis failed: " +:+ exn_str e0)) \/
     (isinstance e0 Exception = false /\ e = e0)).
Proof.
  unfold analyze_website, try_except.
  destruct (analyze_website_body w url) as [res|e0]; [discriminate|].
  cbn [handle]. intros H. exists e0. split; [reflexivity|].
  destruct (isinstance e0 RequestException) eqn:E1.
  - left. injection H as <-. auto.
  - destruct (isinstance e0 Exception) eqn:E2.
    + right. left. injection H as <-. auto.
    + right. right. injection H as <-. auto.
Qed.

(** Once the page is fetched with a status outside 400..599, parsed, and
    the three summaries are made, the analysis returns a result: neither the
    probes of robots.txt and the sitemap, whatever they answer or raise, nor
    the checks, nor the aggregation can make it fail. *)
Theorem analysis_returns w url response soup seo perf sec :
  session_get w url = Return response ->
  ~ (400 <= status_code response < 600) ->
  BeautifulSoup w (content response) = Return soup ->
  _analyze_seo_metrics w url response soup (elapsed_ms w) = Return seo ->
  _analyze_performance w url response (elapsed_ms w) = Return perf ->
  _analyze_security w url response = Return sec ->
  exists res, analyze_website w url = Return res /\
              page_title res = _get_page_title soup /\
              seo_metrics res = seo /\ performance_metrics res = perf /\
              security_scan res = sec.
Proof.
  intros Hget Hstatus Hsoup Hseo Hperf Hsec.
  assert (Hok : raise_for_status response = Return tt).
  { unfold raise_for_status.
    destruct (Z.leb_spec 400 (status_code response));
      destruct (Z.ltb_spec (status_code response) 500);
      destruct (Z.leb_spec 500 (status_code response));
      destruct (Z.ltb_spec (status_code response) 600); cbn; try reflexivity; lia. }
  destruct (technical_factors_shape w url soup response)
    as (technical & s & r & x & Ht & N2 & P2 & W2 & B2).
  destruct (seo_factors_shape url soup response) as (t & m & h & N1 & P1 & W1 & B1).
  destruct (content_factors_shape soup) as (i & im & c & N3 & P3 & W3 & B3).
  destruct (performance_factors_shape response (elapsed_ms w))
    as (l & g & N4 & P4 & W4 & B4).
  destruct (mobile_factors_shape soup) as (v & N5 & P5 & W5 & B5).
  unfold analyze_website, analyze_website_body.
  rewrite Hget. cbn [mbind result_bind]. rewrite Hok. cbn [mbind result_bind].
  rewrite Hsoup. cbn [mbind result_bind]. rewrite Hseo, Hperf, Hsec.
  cbn [mbind result_bind]. rewrite Ht. cbn [mbind result_bind].
  cbn [dict_set String.eqb Ascii.eqb Bool.eqb].
  rewrite OverallScore.overall_score_pairs, score_pairs_five, P1, P2, P3, P4, P5.
  rewrite (OverallScore.sum_pairs_ints _ 0 0) by reflexivity.
  rewrite OverallScore.bind_Return, OverallScore.percent_of_ints.
  cbn [int_pairs map app foldr fst snd int_of]. rewrite !Z.add_0_l.
  match goal with |- context [percent_of_totals (?S, ?M)] =>
    destruct (Percent.percent_of_totals_nearest S M) as (r0 & E & _);
      [lia|change (2 ^ 44) with 17592186044416; lia|rewrite E]
  end.
  cbn [mbind result_bind try_except]. eexists. split; [reflexivity|].
  cbn. auto.
Qed.

(** In a returned analysis the page_title and meta_description fields agree
    with the two checks: the title_tag check fails exactly when page_title
    is None or empty and otherwise warns or passes by the length of
    page_title against 60; the meta_description check does the same with
    meta_description against 160. *)
Theorem analysis_fields_agree w url (res : AnalysisResult w) :
  analyze_website w url = Return res ->
  let seo := category "seo" (details res) in
  (outcome "title_tag" seo
   = match page_title res with
     | None => verdict "fail" 0 10
     | Some t => if len t =? 0 then verdict "fail" 0 10
                 else if len t >? 60 then verdict "warning" 7 10
                 else verdict "pass" 10 10
     end) /\
  (outcome "meta_description" seo
   = match meta_description res with
     | None => verdict "fail" 0 10
     | Some d => if len d =? 0 then verdict "fail" 0 10
                 else if len d >? 160 then verdict "warning" 7 10
                 else verdict "pass" 10 10
     end).
Proof.
  intros H. apply analyze_website_inv in H
    as (response & soup & technical & _ & _ & _ & _ & -> & -> & -> & _).
  cbv zeta. change (category "seo" _) with (_check_seo_factors url soup response).
  rewrite Checks.title_tag_outcome, MoreChecks.meta_description_outcome.
  unfold _get_page_title, _get_meta_description.
  split; case_match; reflexivity.
Qed.

(** ** The analysis of the example page

    Fetched over http from a site that has neither robots.txt nor sitemap
    and does not compress: 63 of 95 points, which is 66 percent. *)

Local Ltac run_example res Hrun :=
  destruct (analyze_website Examples.example_world "http://example.com/")
    as [res|?] eqn:Hrun; [|vm_compute in Hrun; discriminate Hrun];
  exists res; split; [reflexivity|].

Lemma analysis_shape_witness :
  exists res,
    analyze_website Examples.example_world "http://example.com/" = Return res /\
    layout (details res) = analysis_layout /\
    11 <= total_of (details res) <= max_total_of (details res).
Proof.
  run_example res Hrun.
  destruct (analysis_shape Examples.example_world "http://example.com/" res Hrun)
    as (Hl & _ & _ & Ht).
  split; [exact Hl|exact Ht].
Defined.

Lemma analysis_overall_score_witness :
  exists res,
    analyze_website Examples.example_world "http://example.com/" = Return res /\
    overall_score res = exact_percent (total_of (details res)) (max_total_of (details res)) /\
    12 <= overall_score res <= 100.
Proof.
  run_example res Hrun.
  destruct (analysis_overall_score Examples.example_world "http://example.com/" res Hrun)
    as (Hs & _ & Hr).
  split; [exact Hs|exact Hr].
Defined.

Lemma analysis_full_score_witness :
  exists res,
    analyze_website Examples.example_world "http://example.com/" = Return res /\
    ~ Forall full_marks (checks_of (details res)).
Proof.
  run_example res Hrun.
  intros Hfull.
  apply (analysis_full_score Examples.example_world "http://example.com/" res Hrun)
    in Hfull.
  vm_compute in Hrun. injection Hrun as <-. discriminate Hfull.
Defined.

Lemma analysis_failures_witness :
  exists e0,
    analyze_website_body (Examples.world Examples.unreachable_site Examples.example_page)
      "http://example.com/" = Raise e0 /\
    isinstance e0 RequestException = true.
Proof.
  destruct (analysis_failures
              (Examples.world Examples.unreachable_site Examples.example_page)
              "http://example.com/"
              (mk_exn Exception "Failed to fetch website: Connection refused"))
    as (e0 & Hbody & Hcases); [vm_compute; reflexivity|].
  exists e0. split; [exact Hbody|].
  destruct Hcases as [[Hi _]|[(_ & _ & He)|[Hi He]]].
  - exact Hi.
  - exfalso. vm_compute in Hbody. injection Hbody as <-. vm_compute in He.
    discriminate He.
  - exfalso. subst e0. vm_compute in Hi. discriminate Hi.
Defined.

Lemma analysis_returns_witness :
  exists res,
    analyze_website Examples.example_world "http://example.com/" = Return res /\
    page_title res = Some "Example Domain".
Proof.
  destruct (analysis_returns Examples.example_world "http://example.com/"
              (Examples.ok_response "https://example.com/") Examples.example_page tt tt tt)
    as (res & Hres & Ht & _).
  - vm_compute. reflexivity.
  - vm_compute. intros [Hlow _]. apply Hlow. reflexivity.
  - vm_compute. reflexivity.
  - vm_compute. reflexivity.
  - vm_compute. reflexivity.
  - vm_compute. reflexivity.
  - exists res. split; [exact Hres|]. rewrite Ht. vm_compute. reflexivity.
Defined.

Lemma analysis_fields_agree_witness :
  exists res,
    analyze_website Examples.example_world "http://example.com/" = Return res /\
    (page_title res = Some "Example Domain" ->
     outcome "title_tag" (category "seo" (details res)) = verdict "pass" 10 10).
Proof.
  run_example res Hrun.
  destruct (analysis_fields_agree Examples.example_world "http://example.com/" res Hrun)
    as [Ht _].
  intros Htitle. rewrite Ht, Htitle. reflexivity.
Defined.

End WholeAnalysis.

(* ===================================================================== *)
(** * The robots probe, the link counters and the two summaries *)
(* ===================================================================== *)

Module Metrics.

Import SEOAnalyzer Summaries Spec Shape.

Section Probes.

Variable w : World.

(** When the robots probe says yes. *)
Lemma check_robots_txt_true url :
  _check_robots_txt w url = Return true <->
  exists p, urlparse w url = Return p /\ probe_200 w (site_url p "/robots.txt").
Proof.
  unfold _check_robots_txt, probe_200, site_url.
  destruct (urlparse w url) as [p|e]; cbn [mbind result_bind try_except_all].
  2: { split; [discriminate|]. intros (p & Hp & _). discriminate. }
  destruct (session_get w (scheme p +:+ "://" +:+ netloc p +:+ "/robots.txt"))
    as [r|e] eqn:E; cbn [mbind result_bind try_except_all].
  2: { split; [discriminate|]. intros (p' & [= <-] & r & Hr & _).
       rewrite E in Hr. discriminate. }
  destruct (Z.eqb_spec (status_code r) 200) as [H|H].
  - split; [|reflexivity]. intros _. exists p. split; [reflexivity|].
    exists r. rewrite E. auto.
  - split; [discriminate|]. intros (p' & [= <-] & r' & Hr & Hs).
    rewrite E in Hr. injection Hr as <-. contradiction.
Qed.

(** [_check_robots_txt] never raises.  It returns true exactly when the URL
    can be parsed and the request for /robots.txt on its scheme and host is
    answered with status 200; a request that raises counts as an absent
    file.  The robots_txt check passes with 5/5 when it returns true and
    warns with 0/5 otherwise. *)
Theorem robots_check url soup response :
  exists found checks,
    _check_robots_txt w url = Return found /\
    (found = true <->
     exists p, urlparse w url = Return p /\ probe_200 w (site_url p "/robots.txt")) /\
    _check_technical_factors w url soup response = Return checks /\
    outcome "robots_txt" checks
      = (if found then verdict "pass" 5 5 else verdict "warning" 0 5).
Proof.
  destruct (Technical.technical_checks w url soup response)
    as (rb & sm & checks & Hrb & _ & Hc & _ & Hr & _).
  exists rb, checks. repeat split; try assumption.
  - intros ->. apply check_robots_txt_true. exact Hrb.
  - intros H. apply check_robots_txt_true in H. congruence.
Qed.

(** The link loop adds one to one of its two counters for every counted
    link, and nothing else. *)
Lemma count_links_sum netloc0 links acc i e :
  count_links w netloc0 links acc = Return (i, e) ->
  fst acc <= i /\ snd acc <= e /\
  i + e = fst acc + snd acc + Z.of_nat (length (List.filter counted_link links)).
Proof.
  revert acc. induction links as [|link rest IH]; intros [i0 e0].
  - cbn. intros [= <- <-]. lia.
  - cbn [count_links List.filter]. unfold counted_link at 1.
    destruct (startswith (get_default "href" "" link) "http") eqn:Hh.
    + cbn [orb]. destruct (urlparse w (get_default "href" "" link)) as [p|ex];
        cbn [mbind result_bind]; [|discriminate].
      destruct (String.eqb (netloc p) netloc0); intros H; apply IH in H;
        cbn [fst snd length] in *; lia.
    + cbn [orb]. destruct (startswith (get_default "href" "" link) "/") eqn:Hs;
        intros H; apply IH in H; cbn [fst snd length] in *; lia.
Qed.

(** The two link counters are nonnegative, and together they count the
    anchors with an href that starts with "http" or with "/"; anchors with
    any other href, such as a relative path, a fragment or a mailto
    address, are counted as neither internal nor external. *)
Theorem link_counts_total url soup internal_links external_links :
  link_counts w url soup = Return (internal_links, external_links) ->
  0 <= internal_links /\ 0 <= external_links /\
  internal_links + external_links
  = Z.of_nat (length (List.filter counted_link (find_all_having "a" "href" soup))) /\
  internal_links + external_links
  <= Z.of_nat (length (find_all_having "a" "href" soup)).
Proof.
  unfold link_counts. destruct (urlparse w url) as [p|ex];
    cbn [mbind result_bind]; [|discriminate].
  intros H. apply count_links_sum in H. cbn [fst snd] in H.
  pose proof (filter_length_le counted_link (find_all_having "a" "href" soup)).
  lia.
Qed.

End Probes.

(** The example page has five anchors with an href: two to its own site,
    one to another site and one mail address; its sixth anchor has no
    href. *)
Lemma link_counts_total_witness :
  link_counts Examples.example_world "http://example.com/" Examples.example_page
  = Return (2, 1) /\
  2 + 1 <= Z.of_nat (length (find_all_having "a" "href" Examples.example_page)).
Proof.
  assert (Hrun : link_counts Examples.example_world "http://example.com/"
                   Examples.example_page = Return (2, 1)) by (vm_compute; reflexivity).
  split; [exact Hrun|].
  apply (link_counts_total Examples.example_world "http://example.com/"
           Examples.example_page 2 1 Hrun).
Defined.

(** ** [_analyze_performance] *)

Local Ltac split_load t :=
  destruct (Z.gtb_spec t 3000), (Z.gtb_spec t 2000), (Z.gtb_spec t 1000); try lia.

Local Ltac settle_iff :=
  split;
  [ intros Hscore; repeat split; first [lia | reflexivity]
  | intros (Hload & Hgzip & Hcache); first [discriminate | lia] ].

(** The performance score lies between 50 and 100 in steps of ten, so the
    [max(0, ...)] never acts.  It is 100 exactly when the page loaded in at
    most 1000 ms, the response is gzip-encoded and carries a Cache-Control
    header; it is 50 exactly when the load took more than 3000 ms and both
    are missing; and a slower load never scores higher. *)
Theorem performance_score_range url response load_time_ms :
  let score := performance_score (_analyze_performance url response load_time_ms) in
  let gzip := str_contains "gzip" (headers_get "content-encoding" "" (headers response)) in
  let cache_control := headers_in "cache-control" (headers response) in
  50 <= score <= 100 /\ score mod 10 = 0 /\
  (score = 100 <-> load_time_ms <= 1000 /\ gzip = true /\ cache_control = true) /\
  (score = 50 <-> 3000 < load_time_ms /\ gzip = false /\ cache_control = false) /\
  (forall later, load_time_ms <= later ->
     performance_score (_analyze_performance url response later) <= score).
Proof.
  cbv zeta. unfold _analyze_performance. cbn [performance_score].
  destruct (str_contains "gzip" _), (headers_in "cache-control" _); cbn [negb];
    split_load load_time_ms;
    (split; [lia|]; split; [reflexivity|]; split; [settle_iff|];
     split; [settle_iff|]; intros later Hlater; split_load later; lia).
Qed.

(** The summary and the checks read the same response alike: a performance
    score of 100 means that the gzip_compression check passes and that the
    page_load_time check does not fail; and when both checks pass and the
    response carries a Cache-Control header the performance score is
    100. *)
Theorem performance_score_and_checks url response load_time_ms :
  let score := performance_score (_analyze_performance url response load_time_ms) in
  let checks := _check_performance_factors response load_time_ms in
  (score = 100 ->
     outcome "gzip_compression" checks = verdict "pass" 5 5 /\
     outcome "page_load_time" checks <> verdict "fail" 3 10) /\
  (outcome "gzip_compression" checks = verdict "pass" 5 5 ->
   outcome "page_load_time" checks = verdict "pass" 10 10 ->
   headers_in "cache-control" (headers response) = true -> score = 100).
Proof.
  cbv zeta.
  destruct (MoreChecks.performance_outcomes response load_time_ms) as [-> ->].
  unfold _analyze_performance. cbn [performance_score].
  destruct (str_contains "gzip" _), (headers_in "cache-control" _); cbn [negb];
    split_load load_time_ms;
    destruct (Z.ltb_spec load_time_ms 1000), (Z.ltb_spec load_time_ms 3000); try lia;
    (split; [intros Hscore; first [lia | split; [reflexivity|discriminate]]
            | intros Hgzip Hload Hcache; first [discriminate | lia]]).
Qed.

(** ** [_analyze_security] *)

Section Security.

Variable Certificate : Type.
Variable peer_certificate : string -> result Certificate.

Local Abbreviation analyze_security := (_analyze_security Certificate peer_certificate).

(** The loop over the five headers, in closed form. *)
Lemma check_headers_closed response score :
  check_headers headers_to_check response ([], score)
  = (map (fun header => (header, headers_get header "" (headers response)))
       (present_headers response),
     score - 5 * Z.of_nat (length (missing_headers response))).
Proof.
  unfold present_headers, missing_headers, headers_to_check.
  cbn [check_headers List.filter].
  destruct (headers_in "strict-transport-security" _),
    (headers_in "content-security-policy" _), (headers_in "x-frame-options" _),
    (headers_in "x-content-type-options" _), (headers_in "referrer-policy" _);
    cbn [negb length map dict_set String.eqb Ascii.eqb Bool.eqb]; f_equal; lia.
Qed.

Lemma missing_headers_length response :
  (length (missing_headers response) <= 5)%nat.
Proof.
  unfold missing_headers.
  etransitivity; [apply filter_length_le|]. reflexivity.
Qed.

(** The three ways [_analyze_security] can return, and the one way it can
    raise. *)
Lemma analyze_security_cases url response :
  let scan grade cert base :=
    mk_SecurityScan Certificate cert grade false
      (map (fun header => (header, headers_get header "" (headers response)))
         (present_headers response))
      (base - 5 * Z.of_nat (length (missing_headers response))) in
  analyze_security url response
  = if startswith url "https://" then
      match peer_certificate url with
      | Return cert => Return (scan "A" (Some cert) 100)
      | Raise e => if isinstance e Exception then Return (scan "C" None 80) else Raise e
      end
    else Return (scan "F" None 50).
Proof.
  cbv zeta. pose proof (missing_headers_length response) as Hm.
  unfold _analyze_security.
  destruct (startswith url "https://"); cbn [negb].
  - destruct (peer_certificate url) as [cert|e];
      cbn [mbind result_bind try_except handle].
    + rewrite check_headers_closed. do 2 f_equal. lia.
    + destruct (isinstance e Exception); cbn [mbind result_bind]; [|reflexivity].
      rewrite check_headers_closed. do 2 f_equal. lia.
  - cbn [mbind result_bind]. rewrite check_headers_closed. do 2 f_equal. lia.
Qed.

(** A security scan that is returned has a score between 25 and 100: 100
    for grade A, 80 for grade C, 50 for grade F, less 5 for each of the five
    security headers the response lacks, so the [max(0, ...)] never acts.
    The grade is F exactly when the URL does not start with "https://", and
    A exactly when the certificate was read; the headers reported are the
    ones of the five that the response carries, in the order of the list,
    with the values the response gives them. *)
Theorem security_scan_score url response scan :
  analyze_security url response = Return scan ->
  let missing := Z.of_nat (length (missing_headers response)) in
  25 <= security_score _ scan <= 100 /\
  (ssl_grade _ scan = "F" <-> startswith url "https://" = false) /\
  (ssl_grade _ scan = "A" <-> is_Some (ssl_certificate _ scan)) /\
  (ssl_grade _ scan = "A" /\ security_score _ scan = 100 - 5 * missing \/
   ssl_grade _ scan = "C" /\ security_score _ scan = 80 - 5 * missing \/
   ssl_grade _ scan = "F" /\ security_score _ scan = 50 - 5 * missing) /\
  security_headers _ scan
  = map (fun header => (header, headers_get header "" (headers response)))
      (present_headers response) /\
  malware_detected _ scan = false.
Proof.
  rewrite analyze_security_cases. cbv zeta.
  pose proof (missing_headers_length response) as Hm.
  set (m := length (missing_headers response)) in *. clearbody m.
  set (hs := map _ (present_headers response)). clearbody hs.
  destruct (startswith url "https://").
  - destruct (peer_certificate url) as [cert|e].
    + intros [= <-]. cbn. repeat split; try lia; try discriminate; eauto.
    + destruct (isinstance e Exception); [|discriminate].
      intros [= <-]. cbn. repeat split; try lia; try discriminate; eauto.
      intros [? ?]. discriminate.
  - intros [= <-]. cbn. repeat split; try lia; try discriminate; eauto.
    intros [? ?]. discriminate.
Qed.

(** [_analyze_security] returns whenever reading the certificate returns or
    raises an [Exception]; an exception it lets through is one that reading
    the certificate of an https URL raised and that is no [Exception]. *)
Theorem security_scan_returns url response :
  ((forall e, peer_certificate url = Raise e -> isinstance e Exception = true) ->
   exists scan, analyze_security url response = Return scan) /\
  (forall e, analyze_security url response = Raise e ->
     startswith url "https://" = true /\ peer_certificate url = Raise e /\
     isinstance e Exception = false).
Proof.
  rewrite analyze_security_cases. cbv zeta. split.
  - intros Hp. destruct (startswith url "https://"); [|eauto].
    destruct (peer_certificate url) as [cert|e]; [eauto|].
    rewrite (Hp e eq_refl). eauto.
  - intros e. destruct (startswith url "https://"); [|discriminate].
    destruct (peer_certificate url) as [cert|e']; [discriminate|].
    destruct (isinstance e' Exception) eqn:Hi; [discriminate|].
    intros [= ->]. auto.
Qed.

End Security.

(** A response with two of the five headers, from a host that shows its
    certificate. *)
Lemma security_scan_score_witness :
  exists scan,
    _analyze_security string Examples.shown_certificate "https://example.com/"
      Examples.guarded_response = Return scan /\
    25 <= security_score _ scan <= 100 /\
    ssl_grade _ scan <> "F".
Proof.
  destruct (_analyze_security string Examples.shown_certificate "https://example.com/"
              Examples.guarded_response) as [scan|e] eqn:Hrun;
    [|vm_compute in Hrun; discriminate Hrun].
  exists scan. split; [reflexivity|].
  destruct (security_scan_score string Examples.shown_certificate "https://example.com/"
              Examples.guarded_response scan Hrun) as (Hrange & Hgrade & _).
  split; [exact Hrange|].
  intros HF. apply Hgrade in HF. vm_compute in HF. discriminate HF.
Defined.

End Metrics.

(* ===================================================================== *)
(** * The cache: maintenance, keys and the decorator *)
(* ===================================================================== *)

Module CacheMore.

Import CacheService.

Section Maintenance.

Context {V : Type}.
Implicit Types (st : state V) (key : string) (m : gmap string (entry V)).

(** Deleting a list of keys. *)
Lemma lookup_foldl_delete (keys : list string) m key :
  foldl (fun c k => base.delete k c) m keys !! key
  = if decide (key ∈ keys) then None else m !! key.
Proof.
  revert m. induction keys as [|k keys IH]; intros m; cbn [foldl].
  - rewrite decide_False by (apply not_elem_of_nil). reflexivity.
  - rewrite IH. destruct (decide (key ∈ keys)) as [Hin|Hnin].
    + rewrite decide_True by (right; exact Hin). reflexivity.
    + destruct (decide (k = key)) as [->|Hne].
      * rewrite decide_True by left. apply lookup_delete_eq.
      * rewrite decide_False by (rewrite elem_of_cons; intros [?|?]; congruence).
        apply lookup_delete_ne, Hne.
Qed.

Lemma In_expired_keys (t : Z) m key :
  In key (map fst (List.filter (fun item => expired t (snd item)) (map_to_list m)))
  <-> exists e, m !! key = Some e /\ expired t e = true.
Proof.
  rewrite in_map_iff. split.
  - intros ([k e] & <- & Hin). apply filter_In in Hin as [Hin He].
    apply list_elem_of_In, elem_of_map_to_list in Hin. exists e. auto.
  - intros (e & Hm & He). exists (key, e). split; [reflexivity|].
    apply filter_In. split; [|exact He].
    apply list_elem_of_In, elem_of_map_to_list, Hm.
Qed.

Lemma length_filter_split {A} (f : A -> bool) (l : list A) :
  (length (List.filter f l) + length (List.filter (fun x => negb (f x)) l)
   = length l)%nat.
Proof. induction l as [|x l IH]; cbn; [reflexivity|]. destruct (f x); cbn; lia. Qed.

(** The cache after [cleanup_expired], entry by entry. *)
Lemma cleanup_expired_lookup st key :
  _cache (snd (cleanup_expired st)) !! key
  = match _cache st !! key with
    | Some e => if expired (clock st (ticks st)) e then None else Some e
    | None => None
    end.
Proof.
  unfold cleanup_expired. cbn. rewrite lookup_foldl_delete.
  destruct (decide (key ∈ _)) as [Hin|Hnin].
  - apply list_elem_of_In, In_expired_keys in Hin as (e & -> & ->). reflexivity.
  - destruct (_cache st !! key) as [e|] eqn:E; [|reflexivity].
    destruct (expired (clock st (ticks st)) e) eqn:He; [|reflexivity].
    exfalso. apply Hnin, list_elem_of_In, In_expired_keys. eauto.
Qed.

Lemma cleanup_expired_size st :
  fst (cleanup_expired st) + Z.of_nat (size (_cache (snd (cleanup_expired st))))
  = Z.of_nat (size (_cache st)).
Proof.
  pose proof (cleanup_expired_lookup st) as Hl.
  set (t := clock st (ticks st)) in *.
  set (m' := _cache (snd (cleanup_expired st))) in *.
  assert (Hc : fst (cleanup_expired st)
               = Z.of_nat (length (List.filter (fun item => expired t (snd item))
                                     (map_to_list (_cache st))))).
  { unfold cleanup_expired. cbn. rewrite length_map. reflexivity. }
  rewrite Hc. clearbody m'.
  assert (HP : Permutation (map_to_list m')
                 (List.filter (fun item => negb (expired t (snd item)))
                    (map_to_list (_cache st)))).
  { apply NoDup_Permutation.
    - apply NoDup_map_to_list.
    - apply NoDup_ListNoDup, List.NoDup_filter, NoDup_ListNoDup, NoDup_map_to_list.
    - intros [k e]. rewrite elem_of_map_to_list, Hl, list_elem_of_In, filter_In.
      rewrite <- list_elem_of_In, elem_of_map_to_list. cbn [snd].
      destruct (_cache st !! k) as [e'|]; [|split; [discriminate|intros [? _]; discriminate]].
      destruct (expired t e') eqn:He.
      + split; [discriminate|]. intros [[= ->] H]. rewrite He in H. discriminate.
      + split; [intros [= ->]; rewrite He; auto|]. intros [[= ->] _]. reflexivity. }
  rewrite <- (length_map_to_list m'), <- (length_map_to_list (_cache st)).
  rewrite (Permutation_length HP).
  pose proof (length_filter_split (fun item : string * entry V => expired t (snd item))
                (map_to_list (_cache st))). lia.
Qed.

(** [cleanup_expired] removes exactly the entries whose [expires_at] lies
    before the clock reading it takes, leaves every other entry as it is,
    and returns the number of entries it removed. *)
Theorem cleanup_expired_removes st :
  let now := clock st (ticks st) in
  let n := fst (cleanup_expired st) in
  let st' := snd (cleanup_expired st) in
  (forall key e, _cache st !! key = Some e -> expires_at e < now ->
     _cache st' !! key = None) /\
  (forall key e, _cache st !! key = Some e -> now <= expires_at e ->
     _cache st' !! key = Some e) /\
  (forall key, _cache st !! key = None -> _cache st' !! key = None) /\
  0 <= n /\
  n = Z.of_nat (size (_cache st)) - Z.of_nat (size (_cache st')).
Proof.
  cbv zeta. pose proof (cleanup_expired_lookup st) as Hl.
  pose proof (cleanup_expired_size st) as Hs.
  repeat split.
  - intros key e Hm Hlt. rewrite Hl, Hm. unfold expired.
    destruct (Z.ltb_spec (expires_at e) (clock st (ticks st))); [reflexivity|lia].
  - intros key e Hm Hle. rewrite Hl, Hm. unfold expired.
    destruct (Z.ltb_spec (expires_at e) (clock st (ticks st))); [lia|reflexivity].
  - intros key Hm. rewrite Hl, Hm. reflexivity.
  - unfold cleanup_expired. cbn. lia.
  - lia.
Qed.

Lemma filter_map_snd {A B} (f : B -> bool) (l : list (A * B)) :
  List.filter f (map snd l) = map snd (List.filter (fun item => f (snd item)) l).
Proof.
  induction l as [|x l IH]; cbn; [reflexivity|].
  destruct (f (snd x)); cbn; rewrite IH; reflexivity.
Qed.

Lemma sum_ones {A} (l : list A) : foldr Z.add 0 (map (fun _ => 1) l) = Z.of_nat (length l).
Proof. induction l as [|x l IH]; cbn [map foldr length]; [reflexivity|]. rewrite IH. lia. Qed.

Variable _estimate_memory_usage : gmap string (entry V) -> float.

(** [get_stats] leaves the cache as it is.  Its [total_entries] is the
    number of keys, its [expired_entries] is the number of entries that
    [cleanup_expired] would remove at the same clock reading, and its
    [active_entries] is the number of entries that would be left; so the
    three counts are nonnegative and the total is the sum of the other
    two. *)
Theorem get_stats_counts st :
  let stats := fst (get_stats _estimate_memory_usage st) in
  _cache (snd (get_stats _estimate_memory_usage st)) = _cache st /\
  total_entries stats = Z.of_nat (size (_cache st)) /\
  expired_entries stats = fst (cleanup_expired st) /\
  active_entries stats = Z.of_nat (size (_cache (snd (cleanup_expired st)))) /\
  total_entries stats = active_entries stats + expired_entries stats /\
  0 <= expired_entries stats <= total_entries stats /\
  0 <= active_entries stats <= total_entries stats.
Proof.
  cbv zeta. pose proof (cleanup_expired_size st) as Hs.
  assert (He : expired_entries (fst (get_stats _estimate_memory_usage st))
               = fst (cleanup_expired st)).
  { unfold get_stats, cleanup_expired. cbn.
    rewrite sum_ones, filter_map_snd, !length_map. reflexivity. }
  assert (Hn : 0 <= fst (cleanup_expired st)).
  { unfold cleanup_expired. cbn. lia. }
  assert (Ht : total_entries (fst (get_stats _estimate_memory_usage st))
               = Z.of_nat (size (_cache st))) by reflexivity.
  assert (Ha : active_entries (fst (get_stats _estimate_memory_usage st))
               = total_entries (fst (get_stats _estimate_memory_usage st))
                 - expired_entries (fst (get_stats _estimate_memory_usage st)))
    by reflexivity.
  split; [reflexivity|]. split; [exact Ht|]. split; [exact He|].
  rewrite Ha, Ht, He. lia.
Qed.

(** What [get] leaves under its key is the live entry that was there, with
    the value that was returned and a new access time. *)
Lemma get_kept key st e' :
  _cache (snd (get key st)) !! key = Some e' ->
  exists e, _cache st !! key = Some e /\
    clock st (ticks st) <= expires_at e /\
    fst (get key st) = Some (value e) /\
    value e' = value e /\ created_at e' = created_at e /\
    expires_at e' = expires_at e /\
    accessed_at e' = clock st (S (ticks st)).
Proof.
  unfold get. destruct (_cache st !! key) as [e|] eqn:E; cbn.
  - destruct (Z.ltb_spec (expires_at e) (clock st (ticks st))); cbn.
    + rewrite lookup_delete_eq. discriminate.
    + rewrite lookup_insert_eq. intros [= <-]. exists e. cbn. auto 8.
  - congruence.
Qed.

(** A read touches one key only.  [get(key)] leaves the entry of every
    other key as it is and never adds a key.  On a live entry it returns
    the stored value and sets the access time to the second clock reading
    of the call; the value, the creation time and the expiry time stay as
    they were, so reading an entry does not prolong its life.  On an
    expired entry it returns [None] and removes the entry; on a key that is
    not in the cache it returns [None] and changes nothing. *)
Theorem get_frame key st :
  (forall key', key' <> key ->
     _cache (snd (get key st)) !! key' = _cache st !! key') /\
  (forall e', _cache (snd (get key st)) !! key = Some e' ->
     exists e, _cache st !! key = Some e /\
       clock st (ticks st) <= expires_at e /\
       fst (get key st) = Some (value e) /\
       value e' = value e /\ created_at e' = created_at e /\
       expires_at e' = expires_at e /\
       accessed_at e' = clock st (S (ticks st))) /\
  (forall e, _cache st !! key = Some e -> clock st (ticks st) <= expires_at e ->
     fst (get key st) = Some (value e) /\
     _cache (snd (get key st)) !! key
     = Some (mk_entry (value e) (created_at e) (clock st (S (ticks st))) (expires_at e))) /\
  (forall e, _cache st !! key = Some e -> expires_at e < clock st (ticks st) ->
     fst (get key st) = None /\ _cache (snd (get key st)) !! key = None) /\
  (_cache st !! key = None -> get key st = (None, st)) /\
  _default_ttl (snd (get key st)) = _default_ttl st.
Proof.
  split; [intros key'; apply Cache.get_other|]. split; [apply get_kept|].
  split; [|split; [|split; [apply Cache.get_absent|]]].
  - intros e He Hlive. destruct (Cache.get_live key st e He Hlive) as [Hg Hc].
    split; [exact Hg|]. rewrite Hc. apply lookup_insert_eq.
  - intros e He Hexp. destruct (Cache.get_expired key st e He Hexp) as [Hg Hc].
    split; [exact Hg|]. rewrite Hc. apply lookup_delete_eq.
  - unfold get. destruct (_cache st !! key) as [e|]; [|reflexivity].
    cbn. destruct (expires_at e <? clock st (ticks st)); reflexivity.
Qed.

(** A time to live of zero or less is taken as given, not replaced by the
    default: once the clock has moved on after the [set], the entry is
    expired, and the next [get] returns [None] and removes it. *)
Theorem set_without_lifetime key (v : V) ttl st :
  ttl <= 0 ->
  clock st (S (S (ticks st))) < clock st (S (S (S (ticks st)))) ->
  fst (get key (set key v (Some ttl) st)) = None /\
  _cache (snd (get key (set key v (Some ttl) st))) !! key = None.
Proof.
  intros Httl Hclock.
  pose proof (Cache.set_lookup key v (Some ttl) st) as Hl.
  destruct (Cache.get_expired key (set key v (Some ttl) st) _ Hl) as [Hn Hd].
  - cbn. lia.
  - split; [exact Hn|]. rewrite Hd. apply lookup_delete_eq.
Qed.

(** A later [set] of the same key replaces the entry whatever it was, also
    an expired one: the entry stored depends on the new value, the ttl and
    the clock only, and the entries of the other keys stay. *)
Theorem set_replaces key (v : V) ttl st :
  (exists e, _cache (set key v ttl st) !! key = Some e /\
     value e = v /\
     created_at e = clock st (ticks st) /\
     expires_at e = clock st (S (S (ticks st))) +
                    match ttl with None => _default_ttl st | Some t => t end) /\
  (forall key', key' <> key ->
     _cache (set key v ttl st) !! key' = _cache st !! key') /\
  _default_ttl (set key v ttl st) = _default_ttl st.
Proof.
  split; [|split].
  - eexists. split; [apply Cache.set_lookup|]. cbn. auto.
  - intros key' Hne. apply Cache.set_lookup_ne. congruence.
  - reflexivity.
Qed.

End Maintenance.

(** ** Strings: what the keys need *)

Lemma app_cons (x : ascii) (a b : string) : String x a +:+ b = String x (a +:+ b).
Proof. reflexivity. Qed.

Lemma app_assoc (a b c : string) : (a +:+ b) +:+ c = a +:+ (b +:+ c).
Proof.
  induction a as [|x a IH]; [reflexivity|]. rewrite !app_cons, IH. reflexivity.
Qed.

Lemma len_app (a b : string) : len (a +:+ b) = len a + len b.
Proof.
  unfold len. induction a as [|x a IH]; [reflexivity|].
  rewrite app_cons. cbn [String.length]. lia.
Qed.

Lemma app_empty_r (a : string) : a +:+ "" = a.
Proof. induction a as [|x a IH]; [reflexivity|]. rewrite app_cons, IH. reflexivity. Qed.

Lemma len_nonneg (a : string) : 0 <= len a.
Proof. unfold len. lia. Qed.

Lemma prefix_app (p s : string) : String.prefix p (p +:+ s) = true.
Proof.
  induction p as [|x p IH].
  - destruct ("" +:+ s); reflexivity.
  - rewrite app_cons. cbn [String.prefix].
    destruct (ascii_dec x x); [exact IH|contradiction].
Qed.

Lemma str_contains_app (a d b : string) : str_contains d (a +:+ d +:+ b) = true.
Proof.
  induction a as [|x a IH].
  - change ("" +:+ d +:+ b) with (d +:+ b).
    destruct (d +:+ b) eqn:E; cbn [str_contains]; rewrite <- E, prefix_app; reflexivity.
  - rewrite app_cons. cbn [str_contains]. rewrite IH. apply orb_true_r.
Qed.

Lemma str_contains_empty (hay : string) : str_contains "" hay = true.
Proof. destruct hay; reflexivity. Qed.

Section Keys.

Variable md5_hexdigest : string -> string.

(** The text [_generate_key] measures. *)
Local Abbreviation key_data prefix args kwargs :=
  (match kwargs with
   | Some json => (prefix +:+ ":" +:+ String.concat ":" args) +:+ ":" +:+ json
   | None => prefix +:+ ":" +:+ String.concat ":" args
   end).

Lemma generate_key_cases prefix args kwargs :
  _generate_key md5_hexdigest prefix args kwargs
  = if len (key_data prefix args kwargs) >? 100
    then prefix +:+ ":" +:+ md5_hexdigest (key_data prefix args kwargs)
    else key_data prefix args kwargs.
Proof. unfold _generate_key. destruct kwargs; reflexivity. Qed.

Lemma generate_key_rest prefix args kwargs :
  exists rest, _generate_key md5_hexdigest prefix args kwargs = prefix +:+ ":" +:+ rest.
Proof.
  rewrite generate_key_cases. destruct (_ >? 100); [eauto|].
  destruct kwargs as [json|]; [|eauto].
  rewrite !app_assoc. eauto.
Qed.

(** Every key starts with its prefix and a colon, and, the digest being 32
    characters long, is no longer than 100 characters or the prefix and 33
    more. *)
Theorem generate_key_shape prefix args kwargs :
  (forall s, len (md5_hexdigest s) = 32) ->
  startswith (_generate_key md5_hexdigest prefix args kwargs) (prefix +:+ ":") = true /\
  len (_generate_key md5_hexdigest prefix args kwargs) <= Z.max 100 (len prefix + 33).
Proof.
  intros Hmd5. split.
  - destruct (generate_key_rest prefix args kwargs) as [rest ->].
    unfold startswith. rewrite <- app_assoc. apply prefix_app.
  - rewrite generate_key_cases.
    destruct (Z.gtb_spec (len (key_data prefix args kwargs)) 100) as [Hlong|Hshort].
    + rewrite !len_app, Hmd5. change (len ":") with 1. lia.
    + lia.
Qed.

(** The key joins the arguments with colons and so does not tell where one
    argument ends: the arguments [a, b] and the one argument [a:b] get the
    same key. *)
Theorem generate_key_joins prefix a b rest kwargs :
  _generate_key md5_hexdigest prefix (a :: b :: rest) kwargs
  = _generate_key md5_hexdigest prefix ((a +:+ ":" +:+ b) :: rest) kwargs.
Proof.
  assert (H : String.concat ":" (a :: b :: rest)
              = String.concat ":" ((a +:+ ":" +:+ b) :: rest)).
  { cbn [String.concat]. destruct rest as [|c rest]; [reflexivity|].
    rewrite !app_assoc. reflexivity. }
  unfold _generate_key. rewrite H. reflexivity.
Qed.

(** ** The decorator *)

Context {X Args : Type}.
Variable key_parts : Args -> result (list string * option string).
Variable prefix : string.
Variable ttl : option Z.

Implicit Types (func : Args -> result (option X)) (args : Args) (st : state (option X)).

Local Abbreviation call func args st :=
  (cached md5_hexdigest key_parts prefix ttl func args st).

(** What the wrapper does once the key is built. *)
Local Abbreviation keyed cache_key func args st :=
  (let '(cached_result, st') := get cache_key st in
   match cached_result with
   | Some (Some x) => (Return (Some x), st')
   | _ =>
       match func args with
       | Return result => (Return result, set cache_key result ttl st')
       | Raise e => (Raise e, st')
       end
   end).

Lemma cached_built func args st str_args json_kwargs :
  key_parts args = Return (str_args, json_kwargs) ->
  call func args st
  = keyed (_generate_key md5_hexdigest prefix str_args json_kwargs) func args st.
Proof. intros Hk. unfold cached. rewrite Hk. reflexivity. Qed.

(** A call whose key cannot be built raises before it looks at the cache or
    runs the function. *)
Lemma cached_unbuilt func args st e :
  key_parts args = Raise e -> call func args st = (Raise e, st).
Proof. intros Hk. unfold cached. rewrite Hk. reflexivity. Qed.

(** A call that answers with a value leaves that value under the key. *)
Lemma keyed_stores (k : string) func args st x :
  fst (keyed k func args st) = Return (Some x) ->
  exists e, _cache (snd (keyed k func args st)) !! k = Some e /\ value e = Some x.
Proof.
  assert (Hrun : forall st0,
    fst (match func args with
         | Return result => (Return result, set k result ttl st0)
         | Raise ex => (Raise ex, st0)
         end) = Return (Some x) ->
    exists e,
      _cache (snd (match func args with
                   | Return result => (Return result, set k result ttl st0)
                   | Raise ex => (Raise ex, st0)
                   end)) !! k = Some e /\ value e = Some x).
  { intros st0. destruct (func args) as [r|ex]; cbn [fst snd]; [|discriminate].
    intros [= ->]. eexists. split; [apply Cache.set_lookup|reflexivity]. }
  destruct (get k st) as [got st1] eqn:G.
  destruct got as [[x'|]|]; [|apply Hrun..].
  cbn [fst snd]. intros [= ->].
  unfold get in G. destruct (_cache st !! k) as [e|] eqn:E; [|discriminate].
  cbn in G. destruct (expires_at e <? clock st (ticks st)); [discriminate|].
  injection G as Hv <-. cbn. rewrite lookup_insert_eq. eexists. split; [reflexivity|].
  cbn. congruence.
Qed.

(** A call finds a live entry that holds a value and answers with it. *)
Lemma keyed_hit (k : string) func args st e x :
  _cache st !! k = Some e -> value e = Some x ->
  clock st (ticks st) <= expires_at e ->
  fst (keyed k func args st) = Return (Some x).
Proof.
  intros He Hv Hlive.
  destruct (Cache.get_live _ _ _ He Hlive) as [Hg _].
  destruct (get k st) as [got st1]. cbn [fst] in Hg. subst got.
  rewrite Hv. reflexivity.
Qed.

(** A call that does not answer with a value leaves no value under the
    key. *)
Lemma keyed_leaves (k : string) func args st :
  (forall x, fst (keyed k func args st) <> Return (Some x)) ->
  forall e x, _cache (snd (keyed k func args st)) !! k = Some e -> value e <> Some x.
Proof.
  pose proof (get_kept k st) as Hkept.
  destruct (get k st) as [got st0]. cbn [fst snd] in *.
  destruct got as [[x'|]|].
  - intros Hr. destruct (Hr x'). reflexivity.
  - destruct (func args) as [[x'|]|ex]; cbn [fst snd]; intros Hr e x He.
    + destruct (Hr x'). reflexivity.
    + rewrite Cache.set_lookup in He. injection He as <-. discriminate.
    + destruct (Hkept e He) as (e0 & _ & _ & [= Hg] & -> & _). congruence.
  - destruct (func args) as [[x'|]|ex]; cbn [fst snd]; intros Hr e x He.
    + destruct (Hr x'). reflexivity.
    + rewrite Cache.set_lookup in He. injection He as <-. discriminate.
    + destruct (Hkept e He) as (e0 & _ & _ & [= Hg] & _).
Qed.

(** With no value under the key, a call runs the function. *)
Lemma keyed_runs (k : string) func args st :
  (forall e x, _cache st !! k = Some e -> value e <> Some x) ->
  fst (keyed k func args st) = func args.
Proof.
  intros Hv. destruct (get k st) as [got st2] eqn:G. cbn [fst snd] in *.
  assert (Hgot : forall x, got <> Some (Some x)).
  { intros x ->. unfold get in G.
    destruct (_cache st !! k) as [e|] eqn:E; [|discriminate].
    cbn in G. destruct (expires_at e <? clock st (ticks st)); [discriminate|].
    injection G as G _. apply (Hv e x eq_refl). congruence. }
  destruct got as [[x|]|]; [destruct (Hgot x); reflexivity| |];
    destruct (func args); reflexivity.
Qed.

(** Memoization.  When a call has answered with a value, the next call with
    the same arguments, made while the entry is alive, answers with the same
    value, whatever the wrapped function would do then. *)
Theorem cached_repeats func func' args st x :
  let st1 := snd (cached md5_hexdigest key_parts prefix ttl func args st) in
  fst (cached md5_hexdigest key_parts prefix ttl func args st) = Return (Some x) ->
  (forall str_args json_kwargs e,
     key_parts args = Return (str_args, json_kwargs) ->
     _cache st1 !! _generate_key md5_hexdigest prefix str_args json_kwargs = Some e ->
     clock st1 (ticks st1) <= expires_at e) ->
  fst (cached md5_hexdigest key_parts prefix ttl func' args st1) = Return (Some x).
Proof.
  cbv zeta. destruct (key_parts args) as [[str_args json_kwargs]|ex] eqn:Hk.
  - rewrite !(cached_built _ _ _ _ _ Hk). intros Hr Hlive.
    destruct (keyed_stores _ _ _ _ _ Hr) as (e & He & Hv).
    apply (keyed_hit _ func' args _ e x He Hv).
    apply (Hlive str_args json_kwargs e eq_refl He).
  - rewrite (cached_unbuilt _ _ _ _ Hk). discriminate.
Qed.

(** What is not cached.  When a call has raised or answered [None], the next
    call with the same arguments does the work again: where the key cannot
    be built it raises as before, without running the wrapped function, and
    otherwise it runs the wrapped function and gives what that gives.  An
    exception is never stored, and a stored [None] is never served. *)
Theorem cached_recomputes func func' args st :
  let st1 := snd (cached md5_hexdigest key_parts prefix ttl func args st) in
  (forall x,
     fst (cached md5_hexdigest key_parts prefix ttl func args st) <> Return (Some x)) ->
  fst (cached md5_hexdigest key_parts prefix ttl func' args st1)
  = match key_parts args with
    | Return _ => func' args
    | Raise e => Raise e
    end.
Proof.
  cbv zeta. destruct (key_parts args) as [[str_args json_kwargs]|ex] eqn:Hk.
  - rewrite !(cached_built _ _ _ _ _ Hk). intros Hr.
    apply keyed_runs, keyed_leaves, Hr.
  - intros _. rewrite !(cached_unbuilt _ _ _ _ Hk). reflexivity.
Qed.

End Keys.

(** ** Examples *)

(** A time to live of 0 under a clock that ticks: the entry is gone at the
    next read. *)
Lemma set_without_lifetime_witness :
  fst (get "whois:example.com"
         (set "whois:example.com" "owner" (Some 0) (init Examples.ticking 0))) = None.
Proof.
  apply (set_without_lifetime "whois:example.com" "owner" 0 (init Examples.ticking 0)).
  - lia.
  - vm_compute. reflexivity.
Defined.

(** A domain of 128 characters: its key is the prefix and the digest. *)
Lemma generate_key_shape_witness :
  let domain :=
    "a-very-long-subdomain-name.with-many-labels.and-even-more-labels.so-that-the-key-data-exceeds-one-hundred-characters.example.com" in
  startswith (_generate_key Examples.md5_stub "domain_info" [domain] None) "domain_info:"
  = true /\
  len (_generate_key Examples.md5_stub "domain_info" [domain] None) <= 100.
Proof.
  cbv zeta. apply (generate_key_shape Examples.md5_stub "domain_info"). 
  intros s. reflexivity.
Defined.

(** The owner of example.com is looked up once; the second call is answered
    from the cache although the lookup is out of order by then. *)
Lemma cached_repeats_witness :
  let whois func args st :=
    cached Examples.md5_stub Examples.one_argument "whois" (Some 60) func args st in
  fst (whois Examples.out_of_order "example.com"
         (snd (whois Examples.owner_of "example.com" (init Examples.ticking 0))))
  = Return (Some "owner of example.com").
Proof.
  cbv zeta.
  apply (cached_repeats Examples.md5_stub Examples.one_argument
           "whois" (Some 60) Examples.owner_of Examples.out_of_order "example.com"
           (init Examples.ticking 0) "owner of example.com").
  - vm_compute. reflexivity.
  - intros str_args json_kwargs e Hk He. injection Hk as <- <-.
    vm_compute in He. injection He as <-. vm_compute. discriminate.
Defined.

(** A lookup that fails leaves nothing behind, and an answer of [None] is
    not served: the next call runs the function again.  A call whose
    keyword arguments cannot be written as JSON raises before and after. *)
Lemma cached_recomputes_witness :
  let whois key_parts func args st :=
    cached Examples.md5_stub key_parts "whois" (Some 60) func args st in
  fst (whois Examples.one_argument Examples.owner_of "example.com"
         (snd (whois Examples.one_argument Examples.out_of_order "example.com"
                 (init Examples.ticking 0))))
  = Return (Some "owner of example.com") /\
  fst (whois Examples.one_argument Examples.out_of_order "example.com"
         (snd (whois Examples.one_argument Examples.unknown_owner "example.com"
                 (init Examples.ticking 0))))
  = Raise (mk_exn ConnectionError "whois server unreachable") /\
  fst (whois Examples.set_keyword Examples.owner_of "example.com"
         (snd (whois Examples.set_keyword Examples.owner_of "example.com"
                 (init Examples.ticking 0))))
  = Raise (mk_exn TypeError "Object of type set is not JSON serializable").
Proof.
  cbv zeta. split; [|split].
  - apply (cached_recomputes Examples.md5_stub Examples.one_argument
             "whois" (Some 60) Examples.out_of_order Examples.owner_of "example.com"
             (init Examples.ticking 0)).
    intros x. vm_compute. discriminate.
  - apply (cached_recomputes Examples.md5_stub Examples.one_argument
             "whois" (Some 60) Examples.unknown_owner Examples.out_of_order "example.com"
             (init Examples.ticking 0)).
    intros x. vm_compute. discriminate.
  - apply (cached_recomputes Examples.md5_stub Examples.set_keyword
             "whois" (Some 60) Examples.owner_of Examples.owner_of "example.com"
             (init Examples.ticking 0)).
    intros x. vm_compute. discriminate.
Defined.

End CacheMore.

(* ===================================================================== *)
(** * The cache of the analyses *)
(* ===================================================================== *)

Module AnalysisCache.

Import CacheService SEOAnalysisCache.

Section Properties.

Variable md5_hexdigest : string -> string.
Context {V : Type}.
Implicit Types (st : state V) (domain analysis_type key : string).

Local Abbreviation analysis_key := (SEOAnalysisCache.analysis_key md5_hexdigest).
Local Abbreviation domain_info_key := (SEOAnalysisCache.domain_info_key md5_hexdigest).
Local Abbreviation backlinks_key := (SEOAnalysisCache.backlinks_key md5_hexdigest).

Lemma analysis_key_rest domain analysis_type :
  exists rest, analysis_key domain analysis_type = String "a" rest.
Proof.
  destruct (CacheMore.generate_key_rest md5_hexdigest "analysis"
              [domain; analysis_type] None) as [rest H].
  unfold SEOAnalysisCache.analysis_key. rewrite H. eexists. reflexivity.
Qed.

Lemma domain_info_key_rest domain :
  exists rest, domain_info_key domain = String "d" rest.
Proof.
  destruct (CacheMore.generate_key_rest md5_hexdigest "domain_info" [domain] None)
    as [rest H].
  unfold SEOAnalysisCache.domain_info_key. rewrite H. eexists. reflexivity.
Qed.

Lemma backlinks_key_rest domain :
  exists rest, backlinks_key domain = String "b" rest.
Proof.
  destruct (CacheMore.generate_key_rest md5_hexdigest "backlinks" [domain] None)
    as [rest H].
  unfold SEOAnalysisCache.backlinks_key. rewrite H. eexists. reflexivity.
Qed.

(** The three kinds of entries never share a key, whatever the domains and
    however long they are; so storing one kind leaves what is stored of the
    two other kinds as it is, for each of the three setters. *)
Theorem kinds_apart domain analysis_type domain' analysis_type' (v : V) st :
  analysis_key domain analysis_type <> domain_info_key domain' /\
  analysis_key domain analysis_type <> backlinks_key domain' /\
  domain_info_key domain <> backlinks_key domain' /\
  _cache (set_analysis_result md5_hexdigest domain analysis_type v st)
    !! domain_info_key domain' = _cache st !! domain_info_key domain' /\
  _cache (set_analysis_result md5_hexdigest domain analysis_type v st)
    !! backlinks_key domain' = _cache st !! backlinks_key domain' /\
  _cache (set_domain_info md5_hexdigest domain v st)
    !! analysis_key domain' analysis_type'
  = _cache st !! analysis_key domain' analysis_type' /\
  _cache (set_domain_info md5_hexdigest domain v st)
    !! backlinks_key domain' = _cache st !! backlinks_key domain' /\
  _cache (set_backlinks md5_hexdigest domain v st)
    !! analysis_key domain' analysis_type'
  = _cache st !! analysis_key domain' analysis_type' /\
  _cache (set_backlinks md5_hexdigest domain v st)
    !! domain_info_key domain' = _cache st !! domain_info_key domain'.
Proof.
  destruct (analysis_key_rest domain analysis_type) as [ra Ha].
  destruct (analysis_key_rest domain' analysis_type') as [ra' Ha'].
  destruct (domain_info_key_rest domain) as [rd Hd].
  destruct (domain_info_key_rest domain') as [rd' Hd'].
  destruct (backlinks_key_rest domain) as [rb Hb].
  destruct (backlinks_key_rest domain') as [rb' Hb'].
  unfold set_analysis_result, set_domain_info, set_backlinks.
  rewrite Ha, Ha', Hd, Hd', Hb, Hb'.
  repeat split; try discriminate; apply Cache.set_lookup_ne; discriminate.
Qed.

(** Round trips, each kind with its own time to live.  With [elapsed] the
    time between the moment the entry's expiry is fixed and the moment it
    is read: an analysis result is read back up to 1800 seconds later and
    not after that, domain information up to 3600 seconds, backlinks up to
    7200 seconds. *)
Theorem round_trips domain analysis_type (v : V) st :
  let elapsed := clock st (S (S (S (ticks st)))) - clock st (S (S (ticks st))) in
  fst (get_analysis_result md5_hexdigest domain analysis_type
         (set_analysis_result md5_hexdigest domain analysis_type v st))
  = (if elapsed <=? 1800 then Some v else None) /\
  fst (get_domain_info md5_hexdigest domain (set_domain_info md5_hexdigest domain v st))
  = (if elapsed <=? 3600 then Some v else None) /\
  fst (get_backlinks md5_hexdigest domain (set_backlinks md5_hexdigest domain v st))
  = (if elapsed <=? 7200 then Some v else None).
Proof.
  assert (H : forall key t,
    fst (get key (set key v (Some t) st))
    = if clock st (S (S (S (ticks st)))) - clock st (S (S (ticks st))) <=? t
      then Some v else None).
  { intros key t. pose proof (Cache.set_lookup key v (Some t) st) as Hl.
    destruct (Z.leb_spec (clock st (S (S (S (ticks st)))) - clock st (S (S (ticks st)))) t)
      as [Hle|Hgt].
    - destruct (Cache.get_live key _ _ Hl) as [Hg _]; [cbn; lia|exact Hg].
    - destruct (Cache.get_expired key _ _ Hl) as [Hg _]; [cbn; lia|exact Hg]. }
  cbv zeta. unfold get_analysis_result, set_analysis_result, get_domain_info,
    set_domain_info, get_backlinks, set_backlinks. rewrite !H. auto.
Qed.

(** ** [invalidate_domain] *)

Lemma foldl_delete (keys : list string) st :
  foldl (fun st key => snd (delete key st)) st keys
  = with_cache (foldl (fun c key => base.delete key c) (_cache st) keys) st.
Proof.
  revert st. induction keys as [|k keys IH]; intros st; cbn [foldl].
  - destruct st; reflexivity.
  - rewrite IH. unfold delete. destruct (_cache st !! k) eqn:E; cbn.
    + reflexivity.
    + rewrite (delete_id (_cache st) k E). reflexivity.
Qed.

Lemma invalidate_domain_lookup domain st key :
  _cache (invalidate_domain domain st) !! key
  = if str_contains domain key then None else _cache st !! key.
Proof.
  unfold invalidate_domain. rewrite foldl_delete. cbn [_cache with_cache].
  rewrite CacheMore.lookup_foldl_delete.
  destruct (decide (key ∈ _)) as [Hin|Hnin].
  - apply list_elem_of_In, filter_In in Hin as [_ ->]. reflexivity.
  - destruct (str_contains domain key) eqn:Hc; [|reflexivity].
    destruct (_cache st !! key) as [e|] eqn:E; [|reflexivity].
    exfalso. apply Hnin, list_elem_of_In, filter_In. split; [|exact Hc].
    apply in_map_iff. exists (key, e). split; [reflexivity|].
    apply list_elem_of_In, elem_of_map_to_list, E.
Qed.

(** [invalidate_domain] removes every entry whose key has the domain as a
    substring, of whichever kind and of whichever domain, and leaves every
    other entry as it is; with the empty string for a domain it empties the
    cache. *)
Theorem invalidate_domain_removes domain st :
  (forall key,
     _cache (invalidate_domain domain st) !! key
     = if str_contains domain key then None else _cache st !! key) /\
  _cache (invalidate_domain "" st) = ∅.
Proof.
  split; [intros key; apply invalidate_domain_lookup|].
  apply map_eq. intros key.
  rewrite invalidate_domain_lookup, CacheMore.str_contains_empty, lookup_empty.
  reflexivity.
Qed.

(** What was stored for a domain under keys that were short enough to be
    kept as they are is gone after [invalidate_domain]: the next read of
    its domain information, of its backlinks and of any of its analysis
    results finds nothing. *)
Theorem invalidate_domain_forgets domain analysis_type st :
  len domain <= 88 -> len domain + len analysis_type <= 90 ->
  let st' := invalidate_domain domain st in
  get_domain_info md5_hexdigest domain st' = (None, st') /\
  get_backlinks md5_hexdigest domain st' = (None, st') /\
  get_analysis_result md5_hexdigest domain analysis_type st' = (None, st').
Proof.
  intros Hd Ha st'.
  unfold get_domain_info, get_backlinks, get_analysis_result,
    SEOAnalysisCache.domain_info_key, SEOAnalysisCache.backlinks_key,
    SEOAnalysisCache.analysis_key.
  rewrite !CacheMore.generate_key_cases. cbn [String.concat].
  assert (L1 : (len ("domain_info" +:+ ":" +:+ domain) >? 100) = false).
  { rewrite !CacheMore.len_app. change (len "domain_info") with 11.
    change (len ":") with 1. lia. }
  assert (L2 : (len ("backlinks" +:+ ":" +:+ domain) >? 100) = false).
  { rewrite !CacheMore.len_app. change (len "backlinks") with 9.
    change (len ":") with 1. lia. }
  assert (L3 : (len ("analysis" +:+ ":" +:+ domain +:+ ":" +:+ analysis_type) >? 100) = false).
  { rewrite !CacheMore.len_app. change (len "analysis") with 8.
    change (len ":") with 1. lia. }
  rewrite L1, L2, L3.
  split; [|split]; apply Cache.get_absent; subst st';
    rewrite invalidate_domain_lookup.
  - rewrite <- (CacheMore.app_assoc "domain_info" ":" domain).
    replace domain with (domain +:+ "") at 2 by apply CacheMore.app_empty_r.
    rewrite CacheMore.str_contains_app. reflexivity.
  - rewrite <- (CacheMore.app_assoc "backlinks" ":" domain).
    replace domain with (domain +:+ "") at 2 by apply CacheMore.app_empty_r.
    rewrite CacheMore.str_contains_app. reflexivity.
  - rewrite <- (CacheMore.app_assoc "analysis" ":").
    rewrite CacheMore.str_contains_app. reflexivity.
Qed.

End Properties.

(** Two domains in the cache; invalidating one of them. *)
Lemma invalidate_domain_forgets_witness :
  let st :=
    set_backlinks Examples.md5_stub "example.org" "12 links"
      (set_domain_info Examples.md5_stub "example.com" "registered 1995"
         (init Examples.ticking 0)) in
  let st' := invalidate_domain "example.com" st in
  get_domain_info Examples.md5_stub "example.com" st' = (None, st').
Proof.
  cbv zeta.
  apply (invalidate_domain_forgets Examples.md5_stub "example.com" "seo").
  - vm_compute. discriminate.
  - vm_compute. discriminate.
Defined.

End AnalysisCache.
